(** * od/inputters/inputter.py: dataset loading and instance building

    A shallow embedding of [get_data] and [data_process] together with the
    properties of the specification that concern them.

    - [Py]       : the Python list primitives the code relies on (slices,
                   negative indices, [enumerate], exceptions);
    - [Builder]  : [data_process], on values;
    - [Loader]   : [get_data] and its inner [tokenize], over a file system;
    - [HeapModel]: [data_process] again, over a store of mutable objects,
                   to speak about aliasing and mutation. *)

From stdpp Require Import gmap strings list.
From Stdlib Require Import ZArith Lia.

Local Open Scope Z_scope.

(** ** Python primitives *)

Module Py.

(** The exceptions that the modelled code can raise. [OutOfFuel] is not one
    of Python's: a loop of the store model stopped for want of steps. *)
Inductive exn : Type :=
| IndexError
| TypeError
| ValueError
| AttributeError
| KeyError
| AssertionError
| RuntimeError
| OSError
| OutOfFuel.

Inductive result (A : Type) : Type :=
| Ok (a : A)
| Raise (e : exn).
Arguments Ok {A} a.
Arguments Raise {A} e.

Definition bind {A B : Type} (m : result A) (k : A -> result B) : result B :=
  match m with
  | Ok a => k a
  | Raise e => Raise e
  end.

(** [PySlice_AdjustIndices] for a step of one: a negative bound counts from
    the end, and every bound is clipped to [0, n]. *)
Definition adjust (n i : Z) : Z :=
  if i <? 0 then Z.max (i + n) 0 else Z.min i n.

(** [l[start:stop]]; [None] stands for an omitted bound. *)
Definition slice {A : Type} (l : list A) (start stop : option Z) : list A :=
  let n := Z.of_nat (length l) in
  let lo := adjust n (default 0 start) in
  let hi := adjust n (default n stop) in
  take (Z.to_nat (hi - lo)) (drop (Z.to_nat lo) l).

(** [l[i]], which raises [IndexError] out of range. *)
Definition index {A : Type} (l : list A) (i : Z) : result A :=
  let n := Z.of_nat (length l) in
  let j := if i <? 0 then i + n else i in
  if (j <? 0) || (n <=? j) then Raise IndexError
  else match l !! Z.to_nat j with
       | Some x => Ok x
       | None => Raise IndexError
       end.

(** [enumerate(l)], counting from [i]. *)
Fixpoint enumerate_from {A : Type} (i : nat) (l : list A) : list (nat * A) :=
  match l with
  | [] => []
  | x :: l' => (i, x) :: enumerate_from (S i) l'
  end.

Definition enumerate {A : Type} (l : list A) : list (nat * A) :=
  enumerate_from 0 l.

(** [sum(...)] over natural numbers (lengths). *)
Definition sum (l : list nat) : nat := foldr Nat.add 0%nat l.

(** [[x] * n] *)
Definition times {A : Type} (x : A) (n : nat) : list A := replicate n x.

(** [itertools.chain] applied to the unpacked list of lists. *)
Definition chain {A : Type} (ls : list (list A)) : list A := concat ls.

End Py.

Import Py.

Declare Scope py_scope.
Delimit Scope py_scope with py.
Notation "x <- m ;; k" := (bind m (fun x => k))
  (at level 100, m at next level, right associativity) : py_scope.
Local Open Scope py_scope.

(** ** The tokenizer, an external collaborator

    Only what the file uses of it: the name of its class, [tokenize] on a
    string and [convert_tokens_to_ids] on a list of tokens. *)

Record Tokenizer : Type := {
  type_name : string;
  tok_tokenize : string -> list string;
  tok_convert_token_to_id : string -> Z
}.

Definition convert_tokens_to_ids (tokenizer : Tokenizer) (tokens : list string)
  : list Z :=
  map (tok_convert_token_to_id tokenizer) tokens.

Definition SMALCleanWB_URL : string := "".
Definition SPECIAL_TOKENS : list string :=
  ["[CLS]"; "[SEP]"; "[speaker1]"; "[speaker2]"]%string.

(** ** [data_process] on values *)

Module Builder.

Record Args : Type := { max_history : Z }.

(** A tokenized utterance, a dialogue, and the tokenized dataset. *)
Abbreviation Utterance := (list Z).
Abbreviation Dialog := (list Utterance).
Abbreviation RawDataset := (list (string * list Dialog)).

Record Instance : Type := {
  input_ids : list Z;
  token_type_ids : list Z;
  lm_labels : list Z
}.

(** The four special ids, as the body of the loop sees them. *)
Record Special : Type := {
  bos : Z;
  eos : Z;
  speaker1 : Z;
  speaker2 : Z
}.

(** [speaker2 if i % 2 else speaker1] *)
Definition marker (sp : Special) (i : nat) : Z :=
  if negb (i mod 2 =? 0)%nat then speaker2 sp else speaker1 sp.

(** Line 78: [dialog[-2*args.max_history:-1]]. *)
Definition history_of (args : Args) (dialog : Dialog) : list Utterance :=
  slice dialog (Some (-2 * max_history args)) (Some (-1)).

(** Line 79: [dialog[-1]]. *)
Definition response_of (dialog : Dialog) : result Utterance :=
  index dialog (-1).

(** Line 81: the turns before the speaker markers are added. *)
Definition plain_sequence (sp : Special) (with_eos : bool)
    (history : list Utterance) (resposne : Utterance) : list (list Z) :=
  [[bos sp]] ++ history ++ [resposne ++ (if with_eos then [eos sp] else [])].

(** The turns that follow the BOS turn in it. *)
Definition turns_of (sp : Special) (with_eos : bool)
    (history : list Utterance) (resposne : Utterance) : list (list Z) :=
  history ++ [resposne ++ (if with_eos then [eos sp] else [])].

(** A turn with its marker in front, and the type ids that it gives. *)
Definition mark (sp : Special) (i : nat) (s : list Z) : list Z :=
  marker sp i :: s.

Definition span (sp : Special) (i : nat) (s : list Z) : list Z :=
  replicate (S (length s)) (marker sp i).

(** Lines 82-83: the turns with their speaker markers. *)
Definition marked_sequence (sp : Special) (sequence : list (list Z))
  : result (list (list Z)) :=
  first <- index sequence 0;;
  Ok ([first] ++ map (fun '(i, s) => [marker sp i] ++ s)
                     (enumerate (slice sequence (Some 1) None))).

(** Lines 86-87. *)
Definition type_ids (sp : Special) (sequence : list (list Z)) : list Z :=
  [bos sp] ++ flat_map (fun '(i, s) => map (fun _ => marker sp i) s)
                       (enumerate (slice sequence (Some 1) None)).

(** Line 90. *)
Definition masked_labels (sequence : list (list Z)) : result (list Z) :=
  last_turn <- index sequence (-1);;
  Ok (times (-1) (sum (map length (slice sequence None (Some (-1)))))
      ++ [-1] ++ slice last_turn (Some 1) None).

(** Lines 81-92: what the loop body does once [history] and [resposne] are
    bound. The assertion of line 92 is part of it. *)
Definition instance_of_turns (sp : Special) (with_eos lm_labels_flag : bool)
    (history : list Utterance) (resposne : Utterance) : result Instance :=
  let sequence := plain_sequence sp with_eos history resposne in
  sequence <- marked_sequence sp sequence;;
  let ids := chain sequence in
  let types := type_ids sp sequence in
  let labels := times (-1) (length ids) in
  labels <- (if lm_labels_flag then masked_labels sequence else Ok labels);;
  if (length ids =? length types)%nat && (length types =? length labels)%nat
  then Ok {| input_ids := ids; token_type_ids := types; lm_labels := labels |}
  else Raise AssertionError.

(** The body of the inner loop, lines 78-92. *)
Definition build_instance (args : Args) (sp : Special)
    (with_eos lm_labels_flag : bool) (dialog : Dialog) : result Instance :=
  let history := history_of args dialog in
  resposne <- response_of dialog;;
  instance_of_turns sp with_eos lm_labels_flag history resposne.

(** [datasets[dataset_name].append(instance)] on a [defaultdict(list)]: the
    key is created, at the end, the first time it is used. *)
Fixpoint defaultdict_append {A : Type} (datasets : list (string * list A))
    (name : string) (x : A) : list (string * list A) :=
  match datasets with
  | [] => [(name, [x])]
  | (k, v) :: rest =>
      if String.eqb k name then (k, v ++ [x]) :: rest
      else (k, v) :: defaultdict_append rest name x
  end.

(** The inner loop, [for dialog in dataset]. *)
Fixpoint process_dialogs (args : Args) (sp : Special) (with_eos lm_labels_flag : bool)
    (dataset_name : string) (dataset : list Dialog)
    (datasets : list (string * list Instance))
  : result (list (string * list Instance)) :=
  match dataset with
  | [] => Ok datasets
  | dialog :: rest =>
      instance <- build_instance args sp with_eos lm_labels_flag dialog;;
      process_dialogs args sp with_eos lm_labels_flag dataset_name rest
        (defaultdict_append datasets dataset_name instance)
  end.

(** The outer loop, [for dataset_name, dataset in data.items()]. *)
Fixpoint process_splits (args : Args) (sp : Special) (with_eos lm_labels_flag : bool)
    (items : RawDataset) (datasets : list (string * list Instance))
  : result (list (string * list Instance)) :=
  match items with
  | [] => Ok datasets
  | (dataset_name, dataset) :: rest =>
      datasets <- process_dialogs args sp with_eos lm_labels_flag
                    dataset_name dataset datasets;;
      process_splits args sp with_eos lm_labels_flag rest datasets
  end.

(** Line 73: the unpacking of the four ids. *)
Definition special_ids (tokenizer : Tokenizer) : result Special :=
  match convert_tokens_to_ids tokenizer SPECIAL_TOKENS with
  | [b; e; s1; s2] =>
      Ok {| bos := b; eos := e; speaker1 := s1; speaker2 := s2 |}
  | _ => Raise ValueError
  end.

Definition data_process (args : Args) (data : RawDataset) (tokenizer : Tokenizer)
    (with_eos lm_labels_flag : bool) : result (list (string * list Instance)) :=
  sp <- special_ids tokenizer;;
  process_splits args sp with_eos lm_labels_flag data [].

(** [x] is one of the elements stored under [name]. *)
Definition stored_under {A : Type} (d : list (string * list A))
    (name : string) (x : A) : Prop :=
  exists l, (name, l) ∈ d /\ x ∈ l.

End Builder.

(** ** State and exceptions

    Code with effects is a function from the state before to an outcome and
    the state after; a raised exception keeps the state reached so far. *)

Module SE.

Definition M (S A : Type) : Type := S -> result A * S.

Definition ret {S A : Type} (x : A) : M S A := fun s => (Ok x, s).

Definition raise {S A : Type} (e : exn) : M S A := fun s => (Raise e, s).

Definition bind {S A B : Type} (m : M S A) (k : A -> M S B) : M S B :=
  fun s =>
    match m s with
    | (Ok x, s') => k x s'
    | (Raise e, s') => (Raise e, s')
    end.

Definition lift {S A : Type} (r : result A) : M S A := fun s => (r, s).

(** A comprehension: the body runs on each element in turn. *)
Fixpoint mapM {S A B : Type} (f : A -> M S B) (l : list A) : M S (list B) :=
  match l with
  | [] => ret []
  | x :: l' => bind (f x) (fun y => bind (mapM f l') (fun ys => ret (y :: ys)))
  end.

End SE.

Declare Scope se_scope.
Delimit Scope se_scope with se.
Notation "x <- m ;; k" := (SE.bind m (fun x => k))
  (at level 100, m at next level, right associativity) : se_scope.
Notation "m ;;; k" := (SE.bind m (fun _ => k))
  (at level 100, right associativity) : se_scope.

(** ** [get_data] *)

Module Loader.

(** The values that [json.loads] builds and that [tokenize] walks. A
    dictionary keeps its keys in insertion order. Numbers are integers here;
    a float is, like them, neither a string, nor a dictionary, nor iterable. *)
#[warnings="-register-all"]
Inductive pyobj : Type :=
| PNone
| PBool (b : bool)
| PInt (z : Z)
| PStr (s : string)
| PList (l : list pyobj)
| PDict (d : list (string * pyobj)).

(** [d[k] = v] on a dictionary: an existing key keeps its place. *)
Fixpoint dict_set {V : Type} (d : list (string * V)) (k : string) (v : V)
  : list (string * V) :=
  match d with
  | [] => [(k, v)]
  | (k', v') :: rest =>
      if String.eqb k' k then (k', v) :: rest
      else (k', v') :: dict_set rest k v
  end.

(** [dict(pairs)] *)
Definition dict_of_pairs {V : Type} (pairs : list (string * V))
  : list (string * V) :=
  fold_left (fun d '(k, v) => dict_set d k v) pairs [].

(** Lines 35-40, the inner function [tokenize]. *)
Fixpoint tokenize (tokenizer : Tokenizer) (obj : pyobj) : result pyobj :=
  match obj with
  | PStr s =>
      Ok (PList (map PInt
            (convert_tokens_to_ids tokenizer (tok_tokenize tokenizer s))))
  | PDict d =>
      pairs <- (fix items (d : list (string * pyobj))
                  : result (list (string * pyobj)) :=
                  match d with
                  | [] => Ok []
                  | (n, o) :: d' =>
                      o' <- tokenize tokenizer o;;
                      rest <- items d';;
                      Ok ((n, o') :: rest)
                  end) d;;
      Ok (PDict (dict_of_pairs pairs))
  | PList l =>
      elems <- (fix elems (l : list pyobj) : result (list pyobj) :=
                  match l with
                  | [] => Ok []
                  | o :: l' =>
                      o' <- tokenize tokenizer o;;
                      rest <- elems l';;
                      Ok (o' :: rest)
                  end) l;;
      Ok (PList elems)
  | PNone | PBool _ | PInt _ => Raise TypeError
  end.

(** The two inner loops of [tokenize], by name. *)
Definition tokenize_items (tokenizer : Tokenizer)
  : list (string * pyobj) -> result (list (string * pyobj)) :=
  fix items (d : list (string * pyobj)) : result (list (string * pyobj)) :=
    match d with
    | [] => Ok []
    | (n, o) :: d' =>
        o' <- tokenize tokenizer o;;
        rest <- items d';;
        Ok ((n, o') :: rest)
    end.

Definition tokenize_elems (tokenizer : Tokenizer)
  : list pyobj -> result (list pyobj) :=
  fix elems (l : list pyobj) : result (list pyobj) :=
    match l with
    | [] => Ok []
    | o :: l' =>
        o' <- tokenize tokenizer o;;
        rest <- elems l';;
        Ok (o' :: rest)
    end.

(** The values in the scope of the shape property: strings, lists and
    dictionaries, nested at will. *)
Fixpoint str_tree (obj : pyobj) : bool :=
  match obj with
  | PStr _ => true
  | PList l => forallb str_tree l
  | PDict d => forallb (fun kv => str_tree kv.2) d
  | PNone | PBool _ | PInt _ => false
  end.

(** A dictionary has each key once. *)
Fixpoint keys_unique (obj : pyobj) : bool :=
  match obj with
  | PList l => forallb keys_unique l
  | PDict d =>
      bool_decide (NoDup (map fst d)) && forallb (fun kv => keys_unique kv.2) d
  | _ => true
  end.

(** The token ids of a string leaf, as a Python list. *)
Definition leaf_ids (tokenizer : Tokenizer) (s : string) : pyobj :=
  PList (map PInt (convert_tokens_to_ids tokenizer (tok_tokenize tokenizer s))).

(** [same_shape tokenizer obj out]: [out] is [obj] with every string leaf
    replaced by its token ids, and nothing else changed: a list has the
    same number of elements, a dictionary the same keys in the same order. *)
#[warnings="-register-all"]
Inductive same_shape (tokenizer : Tokenizer) : pyobj -> pyobj -> Prop :=
| shape_leaf (s : string) :
    same_shape tokenizer (PStr s) (leaf_ids tokenizer s)
| shape_list (l l' : list pyobj) :
    Forall2 (same_shape tokenizer) l l' ->
    same_shape tokenizer (PList l) (PList l')
| shape_dict (d d' : list (string * pyobj)) :
    Forall2 (fun kv kv' => kv.1 = kv'.1 /\ same_shape tokenizer kv.2 kv'.2) d d' ->
    same_shape tokenizer (PDict d) (PDict d').

(** The file system: regular files with their content, and directories. *)
Inductive fnode : Type :=
| File (content : string)
| Dir.

Record world : Type := {
  fs : gmap string fnode;
  log : list string
}.

(** The collaborators outside the repository: [transformers.cached_path],
    [json.loads], the deserialization behind [torch.load], and [torch.save],
    of which nothing is assumed: it is given the object, the path and the
    file system, and returns or raises, leaving the file system as it
    likes. *)
Record Collab : Type := {
  cached_path : string -> gmap string fnode -> result string * gmap string fnode;
  json_loads : string -> result pyobj;
  unpickle : string -> result pyobj;
  save : pyobj -> string -> gmap string fnode -> result unit * gmap string fnode
}.

Local Open Scope se_scope.

Definition IO (A : Type) : Type := SE.M world A.

Definition logger_info (msg : string) : IO unit :=
  fun w => (Ok tt, {| fs := fs w; log := log w ++ [msg] |}).

Definition os_path_isfile (path : string) : IO bool :=
  fun w => (Ok match fs w !! path with
               | Some (File _) => true
               | _ => false
               end, w).

Definition read_file (path : string) : IO string :=
  fun w => (match fs w !! path with
            | Some (File c) => Ok c
            | _ => Raise OSError
            end, w).

Definition torch_load (c : Collab) (path : string) : IO pyobj :=
  content <- read_file path;;
  SE.lift (unpickle c content).

Definition torch_save (c : Collab) (obj : pyobj) (path : string) : IO unit :=
  fun w => let '(r, fs') := save c obj path (fs w) in
           (r, {| fs := fs'; log := log w |}).

Definition call_cached_path (c : Collab) (path : string) : IO string :=
  fun w => let '(r, fs') := cached_path c path (fs w) in
           (r, {| fs := fs'; log := log w |}).

(** A string is held as its UTF-8 bytes, and Python slices it by code
    points. A byte [10xxxxxx] continues the code point begun before it. *)
Definition continuation_byte (a : Ascii.ascii) : bool :=
  match a with
  | Ascii.Ascii _ _ _ _ _ _ b6 b7 => b7 && negb b6
  end.

(** [s[:n]] on a string: its first [n] code points. *)
Fixpoint str_prefix (n : nat) (s : string) : string :=
  match s with
  | EmptyString => EmptyString
  | String a rest =>
      if continuation_byte a then String a (str_prefix n rest)
      else match n with
           | O => EmptyString
           | S n' => String a (str_prefix n' rest)
           end
  end.

(** [v[:5]] on a value of the parsed file; a dictionary or a number cannot
    be sliced. *)
Definition first_five (v : pyobj) : result pyobj :=
  match v with
  | PList l => Ok (PList (slice l None (Some 5)))
  | PStr s => Ok (PStr (str_prefix 5 s))
  | _ => Raise TypeError
  end.

(** Line 31: [[{k: v[:5]} for k, v in dataset.items()]]. *)
Fixpoint sample_items (items : list (string * pyobj)) : result (list pyobj) :=
  match items with
  | [] => Ok []
  | (k, v) :: rest =>
      (v5 <- first_five v;;
       more <- sample_items rest;;
       Ok (PDict [(k, v5)] :: more))%py
  end.

Definition take_samples (dataset : pyobj) : result (list pyobj) :=
  match dataset with
  | PDict d => sample_items d
  | _ => Raise AttributeError
  end.

(** Line 21: the path of the cache file. *)
Definition cache_key (tokenizer : Tokenizer) (dataset_cache : string) : string :=
  (dataset_cache ++ "_" ++ type_name tokenizer)%string.

(** The truth value of a string. *)
Definition truthy (s : string) : bool := negb (String.eqb s "").

Definition get_data (c : Collab) (tokenizer : Tokenizer)
    (dataset_path dataset_cache : string)
  : IO (pyobj * option (list pyobj)) :=
  let dataset_path := if truthy dataset_path then dataset_path else SMALCleanWB_URL in
  let dataset_cache := cache_key tokenizer dataset_cache in
  hit <- (if truthy dataset_cache then os_path_isfile dataset_cache
          else SE.ret false);;
  if hit then
    logger_info ("Load tokenized dataset from cache at " ++ dataset_cache) ;;;
    dataset <- torch_load c dataset_cache;;
    SE.ret (dataset, None)
  else
    logger_info ("Download dataset from " ++ dataset_path) ;;;
    cache_file <- call_cached_path c dataset_path;;
    content <- read_file cache_file;;
    dataset <- SE.lift (json_loads c content);;
    samples <- SE.lift (take_samples dataset);;
    logger_info "Tokenize and encode the dataset" ;;;
    dataset <- SE.lift (tokenize tokenizer dataset);;
    torch_save c dataset dataset_cache ;;;
    SE.ret (dataset, Some samples).

End Loader.

(** ** [data_process] over a store of objects

    Lists and dictionaries are objects with an identity: a variable holds a
    reference, [a + b] and [a[i:j]] build a new object whose elements are
    the same references, and [append] or an item assignment changes an
    object in place. Integers are immutable and stand for themselves. *)

Module HeapModel.

Import Builder.

Abbreviation addr := nat.

Inductive val : Type :=
| VInt (z : Z)
| VRef (a : addr).

Inductive obj : Type :=
| OList (items : list val)
| ODict (entries : list (string * val)).

(** The store; a new object takes the next address. *)
Abbreviation heap := (list obj).

Definition H (A : Type) : Type := SE.M heap A.

Local Open Scope se_scope.

Definition alloc (o : obj) : H val :=
  fun h => (Ok (VRef (length h)), h ++ [o]).

Definition store (a : addr) (o : obj) : H unit :=
  fun h => (Ok tt, <[a := o]> h).

(** The object behind a value; an integer where an object is needed is a
    [TypeError], as is, below, an object of the wrong kind. *)
Definition deref (v : val) : H (addr * obj) :=
  fun h => match v with
           | VRef a => match h !! a with
                       | Some o => (Ok (a, o), h)
                       | None => (Raise RuntimeError, h)
                       end
           | VInt _ => (Raise TypeError, h)
           end.

(** The elements of a list object. *)
Definition list_items (v : val) : H (list val) :=
  ao <- deref v;;
  match ao.2 with
  | OList l => SE.ret l
  | ODict _ => SE.raise TypeError
  end.

Definition dict_entries (v : val) : H (list (string * val)) :=
  ao <- deref v;;
  match ao.2 with
  | ODict d => SE.ret d
  | OList _ => SE.raise AttributeError
  end.

(** A list display [[x, y, ...]]. *)
Definition list_new (items : list val) : H val := alloc (OList items).

(** [{}] *)
Definition dict_new : H val := alloc (ODict []).

(** [x + y] on lists *)
Definition list_add (x y : val) : H val :=
  lx <- list_items x;;
  ly <- list_items y;;
  list_new (lx ++ ly).

(** [x * n] on a list *)
Definition list_mul (x : val) (n : nat) : H val :=
  lx <- list_items x;;
  list_new (concat (replicate n lx)).

(** [x[start:stop]] *)
Definition getslice (x : val) (start stop : option Z) : H val :=
  lx <- list_items x;;
  list_new (slice lx start stop).

(** [x[i]] *)
Definition getitem (x : val) (i : Z) : H val :=
  lx <- list_items x;;
  SE.lift (index lx i).

(** [len(x)] *)
Definition len (x : val) : H nat :=
  ao <- deref x;;
  match ao.2 with
  | OList l => SE.ret (length l)
  | ODict d => SE.ret (length d)
  end.

(** [x.append(v)] *)
Definition list_append (x v : val) : H unit :=
  ao <- deref x;;
  match ao.2 with
  | OList l => store ao.1 (OList (l ++ [v]))
  | ODict _ => SE.raise AttributeError
  end.

Fixpoint assoc {V : Type} (d : list (string * V)) (k : string) : option V :=
  match d with
  | [] => None
  | (k', v) :: rest => if String.eqb k' k then Some v else assoc rest k
  end.

(** [d[k]] on a plain dictionary *)
Definition dict_getitem (d : val) (k : string) : H val :=
  entries <- dict_entries d;;
  match assoc entries k with
  | Some v => SE.ret v
  | None => SE.raise KeyError
  end.

(** [d[k] = v] *)
Definition dict_setitem (d : val) (k : string) (v : val) : H unit :=
  ao <- deref d;;
  match ao.2 with
  | ODict entries => store ao.1 (ODict (Loader.dict_set entries k v))
  | OList _ => SE.raise TypeError
  end.

(** [d[k]] on a [defaultdict(list)]: a missing key is first bound to a new
    empty list. *)
Definition defaultdict_getitem (d : val) (k : string) : H val :=
  entries <- dict_entries d;;
  match assoc entries k with
  | Some v => SE.ret v
  | None =>
      fresh <- list_new [];;
      dict_setitem d k fresh ;;;
      SE.ret fresh
  end.

(** [for x in v: body], reading the list as it is at each step. *)
Fixpoint for_list_from (fuel : nat) (v : val) (i : nat) (body : val -> H unit)
  : H unit :=
  match fuel with
  | O => SE.raise OutOfFuel
  | S fuel' =>
      l <- list_items v;;
      match l !! i with
      | None => SE.ret tt
      | Some x => body x ;;; for_list_from fuel' v (S i) body
      end
  end.

(** [for k, x in v.items(): body]; a dictionary that changed size under the
    iteration is a [RuntimeError]. *)
Fixpoint for_items_from (fuel : nat) (v : val) (size i : nat)
    (body : string -> val -> H unit) : H unit :=
  match fuel with
  | O => SE.raise OutOfFuel
  | S fuel' =>
      d <- dict_entries v;;
      if negb (length d =? size)%nat then SE.raise RuntimeError
      else match d !! i with
           | None => SE.ret tt
           | Some (k, x) => body k x ;;; for_items_from fuel' v size (S i) body
           end
  end.

Definition for_list (fuel : nat) (v : val) (body : val -> H unit) : H unit :=
  for_list_from fuel v 0 body.

Definition for_items (fuel : nat) (v : val) (body : string -> val -> H unit)
  : H unit :=
  d <- dict_entries v;;
  for_items_from fuel v (length d) 0 body.

(** Line 81. *)
Definition plain_sequence_h (sp : Special) (with_eos : bool)
    (history resposne : val) : H val :=
  bos1 <- list_new [VInt (bos sp)];;
  bos2 <- list_new [bos1];;
  left <- list_add bos2 history;;
  tail <- list_new (if with_eos then [VInt (eos sp)] else []);;
  last_turn <- list_add resposne tail;;
  right <- list_new [last_turn];;
  list_add left right.

(** Lines 82-83. The comprehension walks [sequence[1:]], a list that nothing
    else refers to. *)
Definition marked_sequence_h (sp : Special) (sequence : val) : H val :=
  first <- getitem sequence 0;;
  left <- list_new [first];;
  rest <- getslice sequence (Some 1) None;;
  turns <- list_items rest;;
  marked <- SE.mapM (fun '(i, s) =>
                       m <- list_new [VInt (marker sp i)];;
                       list_add m s)
                    (enumerate turns);;
  right <- list_new marked;;
  list_add left right.

(** Line 85: the turns of [sequence] are unpacked, chained and copied
    into a new list. *)
Definition input_ids_h (sequence : val) : H val :=
  turns <- list_items sequence;;
  parts <- SE.mapM list_items turns;;
  list_new (chain parts).

(** Lines 86-87. *)
Definition type_ids_h (sp : Special) (sequence : val) : H val :=
  left <- list_new [VInt (bos sp)];;
  rest <- getslice sequence (Some 1) None;;
  turns <- list_items rest;;
  parts <- SE.mapM (fun '(i, s) =>
                      l <- list_items s;;
                      SE.ret (map (fun _ => VInt (marker sp i)) l))
                   (enumerate turns);;
  right <- list_new (concat parts);;
  list_add left right.

(** Line 90. *)
Definition masked_labels_h (sequence : val) : H val :=
  minus1 <- list_new [VInt (-1)];;
  before <- getslice sequence None (Some (-1));;
  turns <- list_items before;;
  lens <- SE.mapM len turns;;
  left <- list_mul minus1 (sum lens);;
  mid <- list_new [VInt (-1)];;
  left <- list_add left mid;;
  last_turn <- getitem sequence (-1);;
  right <- getslice last_turn (Some 1) None;;
  list_add left right.

(** Line 92. *)
Definition assert_lengths (instance : val) : H unit :=
  a <- dict_getitem instance "input_ids";;
  la <- len a;;
  b <- dict_getitem instance "token_type_ids";;
  lb <- len b;;
  if negb (la =? lb)%nat then SE.raise AssertionError
  else
    c <- dict_getitem instance "lm_labels";;
    lc <- len c;;
    if (lb =? lc)%nat then SE.ret tt else SE.raise AssertionError.

(** Lines 78-92. *)
Definition build_instance_h (args : Args) (sp : Special)
    (with_eos lm_labels_flag : bool) (dialog : val) : H val :=
  history <- getslice dialog (Some (-2 * max_history args)) (Some (-1));;
  resposne <- getitem dialog (-1);;
  sequence <- plain_sequence_h sp with_eos history resposne;;
  sequence <- marked_sequence_h sp sequence;;
  instance <- dict_new;;
  ids <- input_ids_h sequence;;
  dict_setitem instance "input_ids" ids ;;;
  types <- type_ids_h sp sequence;;
  dict_setitem instance "token_type_ids" types ;;;
  minus1 <- list_new [VInt (-1)];;
  ids' <- dict_getitem instance "input_ids";;
  n <- len ids';;
  labels <- list_mul minus1 n;;
  dict_setitem instance "lm_labels" labels ;;;
  (if lm_labels_flag then
     labels <- masked_labels_h sequence;;
     dict_setitem instance "lm_labels" labels
   else SE.ret tt) ;;;
  assert_lengths instance ;;;
  SE.ret instance.

(** Lines 77-93, the body of the inner loop. *)
Definition dialog_step (args : Args) (sp : Special) (with_eos lm_labels_flag : bool)
    (datasets : val) (dataset_name : string) (dialog : val) : H unit :=
  instance <- build_instance_h args sp with_eos lm_labels_flag dialog;;
  target <- defaultdict_getitem datasets dataset_name;;
  list_append target instance.

Definition data_process_h (fuel : nat) (args : Args) (data : val)
    (tokenizer : Tokenizer) (with_eos lm_labels_flag : bool) : H val :=
  sp <- SE.lift (special_ids tokenizer);;
  datasets <- dict_new;;
  for_items fuel data (fun dataset_name dataset =>
    for_list fuel dataset
      (dialog_step args sp with_eos lm_labels_flag datasets dataset_name)) ;;;
  SE.ret datasets.

(** *** Reading values back from the store *)

Definition as_int (v : val) : option Z :=
  match v with VInt z => Some z | VRef _ => None end.

(** The list object behind [v], each element read by [f]. *)
Definition read_list {A : Type} (f : val -> option A) (h : heap) (v : val)
  : option (list A) :=
  match v with
  | VRef a => match h !! a with
              | Some (OList l) => mapM f l
              | _ => None
              end
  | VInt _ => None
  end.

Definition read_utterance (h : heap) : val -> option Utterance :=
  read_list as_int h.

Definition read_dialog (h : heap) : val -> option Dialog :=
  read_list (read_utterance h) h.

Definition read_split (h : heap) : val -> option (list Dialog) :=
  read_list (read_dialog h) h.

Definition read_dict {A : Type} (f : val -> option A) (h : heap) (v : val)
  : option (list (string * A)) :=
  match v with
  | VRef a => match h !! a with
              | Some (ODict d) => mapM (fun '(k, x) => pair k <$> f x) d
              | _ => None
              end
  | VInt _ => None
  end.

Definition read_data (h : heap) : val -> option RawDataset :=
  read_dict (read_split h) h.

(** An instance is a dictionary with the three keys, in the order in which
    the code assigns them. *)
Definition read_instance (h : heap) (v : val) : option Instance :=
  match v with
  | VRef a =>
      match h !! a with
      | Some (ODict [("input_ids", x); ("token_type_ids", y); ("lm_labels", z)]) =>
          ids ← read_utterance h x;
          types ← read_utterance h y;
          labels ← read_utterance h z;
          Some {| input_ids := ids; token_type_ids := types; lm_labels := labels |}
      | _ => None
      end
  | VInt _ => None
  end.

Definition read_datasets (h : heap) : val -> option (list (string * list Instance)) :=
  read_dict (read_list (read_instance h) h) h.

(** The addresses of the objects that make up the result: the dictionary,
    its lists, their instances and the three lists of each instance. *)
Definition refs_of (l : list val) : list addr :=
  flat_map (fun v => match v with VRef a => [a] | VInt _ => [] end) l.

Definition children (h : heap) (a : addr) : list addr :=
  match h !! a with
  | Some (OList l) => refs_of l
  | Some (ODict d) => refs_of (map snd d)
  | None => []
  end.

(** The addresses reachable from [roots] in at most [depth] steps. *)
Fixpoint reach (depth : nat) (h : heap) (roots : list addr) : list addr :=
  match depth with
  | O => roots
  | S d => roots ++ reach d h (flat_map (children h) roots)
  end.

(** *** What a computation leaves alone *)

(** [h'] has every object that [h] has below address [n], unchanged, and is
    not shorter. *)
Definition frame (n : nat) (h h' : heap) : Prop :=
  (length h <= length h')%nat /\
  forall a, (a < n)%nat -> h' !! a = h !! a.

(** A value that is not a reference to one of the first [n] objects. *)
Definition fresh (n : nat) (v : val) : Prop :=
  match v with
  | VRef a => (n <= a)%nat
  | VInt _ => True
  end.

(** Run from a store of at least [n] objects, [m] leaves the first [n]
    alone, and a value it returns satisfies [Q]. *)
Definition keeps {A : Type} (n : nat) (m : H A) (Q : A -> Prop) : Prop :=
  forall h, (n <= length h)%nat ->
    frame n h (m h).2 /\ forall x, (m h).1 = Ok x -> Q x.

(** The dictionary at [a] binds its keys to objects created after it. *)
Definition datasets_at (a : addr) (h : heap) : Prop :=
  exists entries,
    h !! a = Some (ODict entries) /\
    Forall (fun kv => exists b, kv.2 = VRef b /\ (a < b)%nat) entries.

(** [m] leaves the first [n] objects alone and keeps the dictionary at [a]
    as [datasets_at] wants it; a value it returns satisfies [Q]. *)
Definition steady {A : Type} (n : nat) (a : addr) (m : H A) (Q : A -> Prop) : Prop :=
  forall h, datasets_at a h ->
    frame n h (m h).2 /\ datasets_at a (m h).2 /\
    forall x, (m h).1 = Ok x -> Q x.

(** [h'] has every object of [h], unchanged. *)
Definition grows (h h' : heap) : Prop :=
  forall a o, h !! a = Some o -> h' !! a = Some o.

(** [m] returns from [h], leaving every object in place, with [Q]. *)
Definition runs {A : Type} (m : H A) (h : heap) (Q : A -> heap -> Prop) : Prop :=
  exists x h', m h = (Ok x, h') /\ grows h h' /\ Q x h'.

(** [h'] has every list object of [h], unchanged. *)
Definition lists_kept (h h' : heap) : Prop :=
  forall a l, h !! a = Some (OList l) -> h' !! a = Some (OList l).

(** The instance [inst] as objects created at or after address [n]: a
    dictionary with the three keys, bound to three lists of integers, none
    of which is one of the objects [bs]. *)
Definition instance_at (n : nat) (bs : list addr) (h : heap) (v : val)
    (inst : Instance) : Prop :=
  exists c x y z,
    v = VRef c /\
    h !! c = Some (ODict [("input_ids"%string, VRef x);
                          ("token_type_ids"%string, VRef y);
                          ("lm_labels"%string, VRef z)]) /\
    h !! x = Some (OList (VInt <$> input_ids inst)) /\
    h !! y = Some (OList (VInt <$> token_type_ids inst)) /\
    h !! z = Some (OList (VInt <$> lm_labels inst)) /\
    (n <= c)%nat /\ (n <= x)%nat /\ (n <= y)%nat /\ (n <= z)%nat /\
    (x ∉ bs) /\ (y ∉ bs) /\ (z ∉ bs).

(** The result [out] as objects created at or after address [n]: the
    dictionary at [a] binds each key to a list object of its own, created
    after it, which holds the instances of that key, created after it
    too. *)
Definition datasets_repr (n : nat) (h : heap) (a : addr)
    (out : list (string * list Instance)) : Prop :=
  exists bs : list addr,
    h !! a = Some (ODict (zip (out.*1) (VRef <$> bs))) /\
    length bs = length out /\
    NoDup bs /\
    (n <= a)%nat /\
    forall i b kv,
      bs !! i = Some b -> out !! i = Some kv ->
      (a < b)%nat /\
      exists vals,
        h !! b = Some (OList vals) /\
        Forall2 (instance_at (S a) bs h) vals kv.2.

(** An object that is a list of integers, and one that is an instance over
    such lists, all of them created at or after address [n]. *)
Definition int_list_at (h : heap) (x : addr) : Prop :=
  exists u : list Z, h !! x = Some (OList (VInt <$> u)).

Definition instance_dict_at (n : nat) (h : heap) (c : addr) : Prop :=
  exists x y z,
    h !! c = Some (ODict [("input_ids"%string, VRef x);
                          ("token_type_ids"%string, VRef y);
                          ("lm_labels"%string, VRef z)]) /\
    (n <= x)%nat /\ (n <= y)%nat /\ (n <= z)%nat /\
    int_list_at h x /\ int_list_at h y /\ int_list_at h z.

End HeapModel.

(** ** Concrete inputs *)

Module Examples.

Import Builder.

(** A tokenizer with the special ids of the specification's example:
    BOS = 1, EOS = 2, speaker-A = 5, speaker-B = 6. Every other token is
    its own length, one token per string. *)
Definition example_tokenizer : Tokenizer := {|
  type_name := "BertTokenizer";
  tok_tokenize := fun s => [s];
  tok_convert_token_to_id := fun t =>
    if String.eqb t "[CLS]" then 1
    else if String.eqb t "[SEP]" then 2
    else if String.eqb t "[speaker1]" then 5
    else if String.eqb t "[speaker2]" then 6
    else Z.of_nat (String.length t)
|}.

Definition example_special : Special :=
  {| bos := 1; eos := 2; speaker1 := 5; speaker2 := 6 |}.

Definition example_args : Args := {| max_history := 1 |}.

Definition example_dialog : Dialog := [[10; 11]; [20]; [30; 31]].

Definition example_data : RawDataset :=
  [("train"%string, [example_dialog; [[7]; [8; 9]]]);
   ("valid"%string, [[[3]; [4]]])].

(** The same dataset as objects of a store: address 0 is the dictionary. *)
Definition example_heap : HeapModel.heap :=
  let i := HeapModel.VInt in
  let r := HeapModel.VRef in
  [ HeapModel.ODict [("train"%string, r 1%nat); ("valid"%string, r 2%nat)];
    HeapModel.OList [r 3%nat; r 4%nat];
    HeapModel.OList [r 5%nat];
    HeapModel.OList [r 6%nat; r 7%nat; r 8%nat];
    HeapModel.OList [r 9%nat; r 10%nat];
    HeapModel.OList [r 11%nat; r 12%nat];
    HeapModel.OList [i 10; i 11];
    HeapModel.OList [i 20];
    HeapModel.OList [i 30; i 31];
    HeapModel.OList [i 7];
    HeapModel.OList [i 8; i 9];
    HeapModel.OList [i 3];
    HeapModel.OList [i 4] ].

(** A raw dataset as [json.loads] gives it, and a cache file for it. *)
Definition example_raw : Loader.pyobj :=
  Loader.PDict
    [("train"%string,
      Loader.PList [Loader.PList [Loader.PStr "hello"; Loader.PStr "hi"];
                    Loader.PList []]);
     ("valid"%string, Loader.PList [])].

Definition example_collab : Loader.Collab := {|
  Loader.cached_path := fun path files => (Ok path, files);
  Loader.json_loads := fun _ => Ok example_raw;
  Loader.unpickle := fun content =>
    if String.eqb content "" then Raise ValueError
    else Ok (Loader.PDict [("train"%string, Loader.PList [])]);
  Loader.save := fun _ path files =>
    (Ok tt, <[path := Loader.File "pickled"]> files)
|}.

Definition example_world : Loader.world := {|
  Loader.fs := {[ "cache_BertTokenizer"%string := Loader.File "pickled" ]};
  Loader.log := []
|}.

(** The arguments with no history window. *)
Definition no_history_args : Args := {| max_history := 0 |}.

(** A tokenizer of a class whose name contains an underscore. *)
Definition fast_tokenizer : Tokenizer := {|
  type_name := "Fast_BertTokenizer";
  tok_tokenize := tok_tokenize example_tokenizer;
  tok_convert_token_to_id := tok_convert_token_to_id example_tokenizer
|}.

(** A tokenized dataset whose second dialogue is empty, and the same
    dataset as objects of a store: address 0 is the dictionary. *)
Definition faulty_data : RawDataset :=
  [("train"%string, [[[7]; [8]]; []])].

Definition faulty_heap : HeapModel.heap :=
  let i := HeapModel.VInt in
  let r := HeapModel.VRef in
  [ HeapModel.ODict [("train"%string, r 1%nat)];
    HeapModel.OList [r 2%nat; r 3%nat];
    HeapModel.OList [r 4%nat; r 5%nat];
    HeapModel.OList [];
    HeapModel.OList [i 7];
    HeapModel.OList [i 8] ].


(** The entries of [example_raw], and the samples that [get_data] takes
    of it. *)
Definition example_entries : list (string * Loader.pyobj) :=
  [("train"%string,
    Loader.PList [Loader.PList [Loader.PStr "hello"; Loader.PStr "hi"];
                  Loader.PList []]);
   ("valid"%string, Loader.PList [])].



Definition fresh_world : Loader.world := {|
  Loader.fs := {[ "data.json"%string := Loader.File "{}" ]};
  Loader.log := []
|}.

(** Collaborators whose [torch.save] raises after it has created the
    file. *)
Definition failing_save_collab : Loader.Collab := {|
  Loader.cached_path := fun path files => (Ok path, files);
  Loader.json_loads := fun _ => Ok example_raw;
  Loader.unpickle := fun _ => Raise ValueError;
  Loader.save := fun _ path files =>
    (Raise OSError, <[path := Loader.File ""]> files)
|}.

End Examples.

(** * Properties *)

Import Builder Examples.

Ltac case_cmp :=
  repeat match goal with
         | |- context [Z.ltb ?a ?b] => destruct (Z.ltb_spec a b); try lia
         | |- context [Z.leb ?a ?b] => destruct (Z.leb_spec a b); try lia
         end.

(** ** Slices and indices *)
Section SliceFacts.
Context {A : Type}.
Implicit Types (l : list A) (x : A).

Lemma slice_from_1 x l : slice (x :: l) (Some 1) None = l.
Proof.
  unfold slice, adjust. cbn [default from_option id]. rewrite length_cons. case_cmp.
  replace (Z.to_nat (Z.min 1 _)) with 1%nat by lia.
  replace (Z.to_nat _) with (length l) by lia.
  cbn. apply firstn_all.
Qed.

Lemma slice_upto_last l x : slice (l ++ [x]) None (Some (-1)) = l.
Proof.
  unfold slice, adjust. cbn [default from_option id].
  rewrite length_app. cbn [length]. case_cmp.
  replace (Z.to_nat (Z.min 0 _)) with 0%nat by lia.
  replace (Z.to_nat _) with (length l) by lia.
  by rewrite drop_0, take_app_length.
Qed.

Lemma index_0 x l : index (x :: l) 0 = Ok x.
Proof. unfold index. rewrite length_cons. case_cmp. reflexivity. Qed.

Lemma index_last l x : index (l ++ [x]) (-1) = Ok x.
Proof.
  unfold index. rewrite length_app. cbn [length]. case_cmp. cbn [orb].
  replace (Z.to_nat _) with (length l) by lia.
  by rewrite list_lookup_middle.
Qed.

Lemma index_empty (i : Z) : index (@nil A) i = Raise IndexError.
Proof. unfold index. cbn [length]. case_cmp; reflexivity. Qed.

(** [l[-k:-1]] on a non-empty list, for a positive [k]: the [k - 1]
    elements before the last one, or all of them when there are fewer. *)
Lemma slice_window l x (k : Z) :
  0 < k ->
  slice (l ++ [x]) (Some (- k)) (Some (-1)) = drop (length l + 1 - Z.to_nat k) l.
Proof.
  intros Hk. unfold slice, adjust. cbn [default from_option id].
  rewrite length_app. cbn [length]. case_cmp.
  - replace (Z.to_nat (Z.max _ 0)) with (length l + 1 - Z.to_nat k)%nat by lia.
    replace (Z.to_nat _) with (length l - (length l + 1 - Z.to_nat k))%nat by lia.
    rewrite drop_app_le by lia.
    rewrite take_app_le by (rewrite length_drop; lia).
    apply take_ge. rewrite length_drop. lia.
Qed.

Lemma enumerate_from_imap {B : Type} (f : nat -> A -> B) (k : nat) l :
  map (fun '(i, s) => f i s) (enumerate_from k l) = imap (fun i => f (k + i)%nat) l.
Proof.
  revert k f. induction l as [|x l IH]; intros k f; [reflexivity|].
  cbn. rewrite Nat.add_0_r. f_equal.
  rewrite IH. apply imap_ext. intros i y _. cbn. f_equal. lia.
Qed.

Lemma enumerate_imap {B : Type} (f : nat -> A -> B) l :
  map (fun '(i, s) => f i s) (enumerate l) = imap f l.
Proof. unfold enumerate. by rewrite enumerate_from_imap. Qed.

Lemma nonempty_snoc l : (1 <= length l)%nat -> exists l' x, l = l' ++ [x].
Proof.
  intros H. destruct (decide (l = [])) as [->|Hne]; [cbn in H; lia|].
  destruct (exists_last Hne) as (l' & x & ->). eauto.
Qed.

End SliceFacts.

(** ** One instance *)

Section BuilderFacts.
Variable sp : Special.


Lemma sum_lengths {A : Type} (ls : list (list A)) :
  sum (map length ls) = length (concat ls).
Proof.
  induction ls as [|l ls IH]; [reflexivity|].
  cbn. rewrite length_app. unfold sum in IH. by rewrite IH.
Qed.

Lemma imap_imap {A B C : Type} (f : nat -> A -> B) (g : nat -> B -> C) (l : list A) :
  imap g (imap f l) = imap (fun i x => g i (f i x)) l.
Proof.
  revert f g. induction l as [|x l IH]; intros f g; [reflexivity|].
  cbn. f_equal. apply IH.
Qed.

Lemma length_concat_imap {A B C : Type} (f : nat -> A -> list B)
    (g : nat -> A -> list C) (l : list A) :
  (forall i x, length (f i x) = length (g i x)) ->
  length (concat (imap f l)) = length (concat (imap g l)).
Proof.
  revert f g. induction l as [|x l IH]; intros f g Hfg; [reflexivity|].
  cbn. rewrite !length_app, Hfg. f_equal. apply IH. intros; apply Hfg.
Qed.

Lemma marked_sequence_plain (with_eos : bool) history resposne :
  marked_sequence sp (plain_sequence sp with_eos history resposne) =
  Ok ([bos sp] :: imap (mark sp) (turns_of sp with_eos history resposne)).
Proof.
  unfold marked_sequence, plain_sequence.
  cbn [app]. rewrite index_0. cbn [bind]. rewrite slice_from_1.
  by rewrite (enumerate_imap (fun i s => [marker sp i] ++ s)).
Qed.

Lemma type_ids_marked (turns : list (list Z)) :
  type_ids sp ([bos sp] :: imap (mark sp) turns) = bos sp :: concat (imap (span sp) turns).
Proof.
  unfold type_ids. rewrite slice_from_1. cbn [app]. f_equal.
  rewrite flat_map_concat_map.
  rewrite (enumerate_imap (fun i s => map (fun _ => marker sp i) s)).
  rewrite imap_imap. f_equal. apply imap_ext. intros i s _.
  unfold span, mark. cbn. f_equal.
  induction s as [|z s IH]; [reflexivity|]. cbn. by f_equal.
Qed.

Lemma marked_split history (r : list Z) :
  [bos sp] :: imap (mark sp) (history ++ [r]) =
  ([bos sp] :: imap (mark sp) history) ++ [mark sp (length history) r].
Proof.
  rewrite imap_app. cbn. by rewrite Nat.add_0_r.
Qed.

Lemma masked_labels_marked history (r : list Z) :
  masked_labels ([bos sp] :: imap (mark sp) (history ++ [r])) =
  Ok (replicate (length (concat ([bos sp] :: imap (mark sp) history))) (-1)
      ++ [-1] ++ r).
Proof.
  rewrite marked_split. unfold masked_labels.
  rewrite index_last. cbn [bind]. rewrite slice_upto_last.
  change (mark sp (length history) r) with (marker sp (length history) :: r).
  rewrite slice_from_1. unfold times.
  by rewrite sum_lengths.
Qed.

Lemma instance_of_turns_ok (with_eos lm_labels_flag : bool) history resposne :
  let r := resposne ++ (if with_eos then [eos sp] else []) in
  instance_of_turns sp with_eos lm_labels_flag history resposne =
  Ok {| input_ids := concat ([bos sp] :: imap (mark sp) (history ++ [r]));
        token_type_ids := bos sp :: concat (imap (span sp) (history ++ [r]));
        lm_labels :=
          if lm_labels_flag
          then replicate (length (concat ([bos sp] :: imap (mark sp) history))) (-1)
               ++ [-1] ++ r
          else replicate (length (concat ([bos sp] :: imap (mark sp) (history ++ [r])))) (-1) |}.
Proof.
  intros r. unfold instance_of_turns.
  rewrite marked_sequence_plain. cbn [bind].
  unfold turns_of. fold r.
  rewrite type_ids_marked. unfold chain, times.
  assert (Hty : length (concat ([bos sp] :: imap (mark sp) (history ++ [r]))) =
                length (bos sp :: concat (imap (span sp) (history ++ [r])))).
  { cbn. f_equal. apply length_concat_imap. intros i s.
    unfold span, mark. by rewrite length_replicate. }
  destruct lm_labels_flag.
  - rewrite masked_labels_marked. cbn [bind].
    assert (Hlb : length (bos sp :: concat (imap (span sp) (history ++ [r]))) =
                  length (replicate (length (concat ([bos sp] :: imap (mark sp) history))) (-1)
                          ++ [-1] ++ r)).
    { rewrite <- Hty, marked_split, concat_app, !length_app, length_replicate.
      unfold mark at 2. cbn [concat length app]. rewrite length_app. cbn [length]. lia. }
    rewrite <- Hlb, <- Hty, !Nat.eqb_refl. reflexivity.
  - cbn [bind]. rewrite length_replicate, <- Hty, !Nat.eqb_refl. reflexivity.
Qed.

End BuilderFacts.

(** ** The loops of [data_process] *)

Section Loops.
Variables (args : Args) (sp : Special) (with_eos lm_labels_flag : bool).


Lemma stored_under_append {A : Type} (d : list (string * list A)) n x name y :
  stored_under (defaultdict_append d n x) name y <->
  stored_under d name y \/ (name = n /\ y = x).
Proof.
  unfold stored_under. induction d as [|[k v] d IH]; cbn.
  - split.
    + intros (l & Hl & Hy). apply list_elem_of_singleton in Hl.
      injection Hl as -> ->. apply list_elem_of_singleton in Hy. auto.
    + intros [(l & Hl & _)|[-> ->]]; [by apply elem_of_nil in Hl|].
      exists [x]. split; apply list_elem_of_singleton; reflexivity.
  - destruct (String.eqb_spec k n) as [->|Hkn].
    + split.
      * intros (l & Hl & Hy). apply elem_of_cons in Hl as [Hl|Hl].
        -- injection Hl as -> ->. apply elem_of_app in Hy as [Hy|Hy].
           ++ left. exists v. split; [left|done].
           ++ apply list_elem_of_singleton in Hy. auto.
        -- left. exists l. split; [by right|done].
      * intros [(l & Hl & Hy)|[-> ->]].
        -- apply elem_of_cons in Hl as [Hl|Hl].
           ++ injection Hl as -> ->. exists (v ++ [x]).
              split; [left|apply elem_of_app; auto].
           ++ exists l. split; [by right|done].
        -- exists (v ++ [x]). split; [left|].
           apply elem_of_app. right. by apply list_elem_of_singleton.
    + split.
      * intros (l & Hl & Hy). apply elem_of_cons in Hl as [Hl|Hl].
        -- injection Hl as -> ->. left. exists v. split; [left|done].
        -- destruct (proj1 IH) as [(l' & Hl' & Hy')|?]; [by eauto| |by auto].
           left. exists l'. split; [by right|done].
      * intros [(l & Hl & Hy)|Heq].
        -- apply elem_of_cons in Hl as [Hl|Hl].
           ++ injection Hl as -> ->. exists v. split; [left|done].
           ++ destruct (proj2 IH) as (l' & Hl' & Hy'); [by left; eauto|].
              exists l'. split; [by right|done].
        -- destruct (proj2 IH) as (l' & Hl' & Hy'); [by right|].
           exists l'. split; [by right|done].
Qed.

Lemma process_dialogs_ok name (dataset : list Dialog) datasets :
  (forall D, D ∈ dataset -> exists inst, build_instance args sp with_eos lm_labels_flag D = Ok inst) ->
  exists out,
    process_dialogs args sp with_eos lm_labels_flag name dataset datasets = Ok out /\
    forall n inst,
      stored_under out n inst <->
      stored_under datasets n inst \/
      (n = name /\ exists D, D ∈ dataset /\ build_instance args sp with_eos lm_labels_flag D = Ok inst).
Proof.
  revert datasets. induction dataset as [|D dataset IH]; intros datasets Hall.
  - exists datasets. split; [reflexivity|]. intros n inst. split; [auto|].
    intros [?|(_ & D & HD & _)]; [done|by apply elem_of_nil in HD].
  - destruct (Hall D) as (inst0 & Hinst0); [left|].
    destruct (IH (defaultdict_append datasets name inst0)) as (out & Hout & Hmem).
    { intros D' HD'. apply Hall. by right. }
    exists out. split; [cbn; by rewrite Hinst0|].
    intros n inst. rewrite Hmem, stored_under_append. split.
    + intros [[?|[-> ->]]|(-> & D' & HD' & Hb)]; [by left| |].
      * right. split; [done|]. exists D. split; [left|done].
      * right. split; [done|]. exists D'. split; [by right|done].
    + intros [?|(-> & D' & HD' & Hb)]; [by left; left|].
      apply elem_of_cons in HD' as [->|HD'].
      * left. right. split; [done|]. congruence.
      * right. split; [done|]. eauto.
Qed.

Lemma process_splits_ok (items : RawDataset) datasets :
  (forall name dataset D, (name, dataset) ∈ items -> D ∈ dataset ->
     exists inst, build_instance args sp with_eos lm_labels_flag D = Ok inst) ->
  exists out,
    process_splits args sp with_eos lm_labels_flag items datasets = Ok out /\
    forall n inst,
      stored_under out n inst <->
      stored_under datasets n inst \/
      (exists dataset D, (n, dataset) ∈ items /\ D ∈ dataset /\ build_instance args sp with_eos lm_labels_flag D = Ok inst).
Proof.
  revert datasets. induction items as [|[name dataset] items IH]; intros datasets Hall.
  - exists datasets. split; [reflexivity|]. intros n inst. split; [auto|].
    intros [?|(ds & D & Hds & _)]; [done|by apply elem_of_nil in Hds].
  - destruct (process_dialogs_ok name dataset datasets) as (mid & Hmid & Hmem1).
    { intros D HD. apply (Hall name dataset); [left|done]. }
    destruct (IH mid) as (out & Hout & Hmem2).
    { intros n ds D Hn HD. apply (Hall n ds); [by right|done]. }
    exists out. split; [cbn; by rewrite Hmid|].
    intros n inst. rewrite Hmem2, Hmem1. split.
    + intros [[?|(-> & D & HD & Hb)]|(ds & D & Hds & HD & Hb)]; [by left| |].
      * right. exists dataset, D. split; [left|done].
      * right. exists ds, D. split; [by right|done].
    + intros [?|(ds & D & Hds & HD & Hb)]; [by left; left|].
      apply elem_of_cons in Hds as [Heq|Hds].
      * injection Heq as -> ->. left. right. eauto.
      * right. eauto.
Qed.

(** A loop that returns has built an instance from every dialogue. *)
Lemma process_dialogs_built name (dataset : list Dialog) datasets out :
  process_dialogs args sp with_eos lm_labels_flag name dataset datasets = Ok out ->
  forall D, D ∈ dataset ->
    exists inst, build_instance args sp with_eos lm_labels_flag D = Ok inst.
Proof.
  revert datasets. induction dataset as [|D0 dataset IH]; intros datasets Hp D HD;
    [by apply elem_of_nil in HD|].
  cbn [process_dialogs] in Hp.
  destruct (build_instance args sp with_eos lm_labels_flag D0) as [inst0|e] eqn:Hb;
    [|done].
  cbn [bind] in Hp. apply elem_of_cons in HD as [->|HD]; [eauto|].
  by eapply IH.
Qed.

Lemma process_splits_built (items : RawDataset) datasets out :
  process_splits args sp with_eos lm_labels_flag items datasets = Ok out ->
  forall name dataset D, (name, dataset) ∈ items -> D ∈ dataset ->
    exists inst, build_instance args sp with_eos lm_labels_flag D = Ok inst.
Proof.
  revert datasets. induction items as [|[name0 dataset0] items IH];
    intros datasets Hp name dataset D Hn HD; [by apply elem_of_nil in Hn|].
  cbn [process_splits] in Hp.
  destruct (process_dialogs args sp with_eos lm_labels_flag name0 dataset0 datasets)
    as [mid|e] eqn:Hmid; [|done].
  cbn [bind] in Hp. apply elem_of_cons in Hn as [Heq|Hn].
  - injection Heq as -> ->. by eapply process_dialogs_built.
  - by eapply IH.
Qed.

End Loops.

Lemma special_ids_ok tokenizer : exists sp, special_ids tokenizer = Ok sp.
Proof. unfold special_ids. cbn. eauto. Qed.

Lemma not_stored_under_nil {A : Type} name (x : A) : ~ stored_under [] name x.
Proof. intros (l & Hl & _). by apply elem_of_nil in Hl. Qed.

(** A dialogue with a last utterance: what the two first lines compute. *)
Lemma history_response args (older : Dialog) (last_u : Utterance) :
  response_of (older ++ [last_u]) = Ok last_u /\
  (0 < max_history args ->
   history_of args (older ++ [last_u]) =
   drop (length older + 1 - Z.to_nat (2 * max_history args)) older).
Proof.
  split; [apply index_last|]. intros Hmh. unfold history_of.
  replace (-2 * max_history args) with (- (2 * max_history args)) by lia.
  apply slice_window. lia.
Qed.

Lemma build_instance_ok args sp with_eos lm_labels_flag (D : Dialog) :
  (1 <= length D)%nat ->
  exists resposne,
    response_of D = Ok resposne /\
    build_instance args sp with_eos lm_labels_flag D =
    instance_of_turns sp with_eos lm_labels_flag (history_of args D) resposne.
Proof.
  intros HD. destruct (nonempty_snoc D HD) as (older & u & ->).
  exists u. destruct (history_response args older u) as [Hr _].
  split; [done|]. unfold build_instance. by rewrite Hr.
Qed.

Lemma marker_parity sp i :
  marker sp i = if Nat.even i then speaker1 sp else speaker2 sp.
Proof.
  unfold marker. rewrite <- Nat.negb_odd.
  destruct (Nat.odd i) eqn:Ho.
  - apply Nat.odd_spec in Ho as [k ->].
    replace (2 * k + 1)%nat with (1 + k * 2)%nat by lia.
    rewrite Nat.Div0.mod_add. reflexivity.
  - assert (He : Nat.even i = true) by (rewrite <- Nat.negb_odd, Ho; done).
    apply Nat.even_spec in He as [k ->].
    replace (2 * k)%nat with (0 + k * 2)%nat by lia.
    rewrite Nat.Div0.mod_add. reflexivity.
Qed.

(** ** What [data_process] stores *)

(** Line 73 binds the ids of the four special tokens. *)
Lemma special_ids_tokens tokenizer sp :
  special_ids tokenizer = Ok sp ->
  bos sp = tok_convert_token_to_id tokenizer "[CLS]" /\
  eos sp = tok_convert_token_to_id tokenizer "[SEP]" /\
  speaker1 sp = tok_convert_token_to_id tokenizer "[speaker1]" /\
  speaker2 sp = tok_convert_token_to_id tokenizer "[speaker2]".
Proof. intros [= <-]. done. Qed.

(** An instance that has been built: its dialogue has a last utterance,
    and the three sequences are those of its history and response. *)
Lemma build_instance_inv args sp with_eos lm_labels_flag (D : Dialog) inst :
  build_instance args sp with_eos lm_labels_flag D = Ok inst ->
  exists r,
    response_of D = Ok r /\
    instance_of_turns sp with_eos lm_labels_flag (history_of args D) r = Ok inst /\
    let content := r ++ (if with_eos then [eos sp] else []) in
    input_ids inst =
      concat ([bos sp] :: imap (mark sp) (history_of args D))
      ++ marker sp (length (history_of args D)) :: content /\
    lm_labels inst =
      if lm_labels_flag
      then replicate (length (concat ([bos sp] :: imap (mark sp) (history_of args D))))
             (-1) ++ [-1] ++ content
      else replicate (length (input_ids inst)) (-1).
Proof.
  intros Hb.
  assert (HD : (1 <= length D)%nat) by (destruct D; [discriminate|cbn; lia]).
  destruct (build_instance_ok args sp with_eos lm_labels_flag D HD) as (r & Hr & Hb').
  rewrite Hb in Hb'. exists r. split; [done|]. split; [done|].
  rewrite instance_of_turns_ok in Hb'.
  apply (f_equal (fun res => match res with Ok x => x | Raise _ => inst end)) in Hb'.
  cbv beta iota in Hb'. subst inst. cbn [input_ids lm_labels]. split; [|done].
  rewrite marked_split, concat_app. cbn [concat]. by rewrite app_nil_r.
Qed.

(** The instances of a split, in the result, are those built from its
    dialogues. *)
Lemma data_process_stores args data tokenizer with_eos lm_labels_flag sp out :
  special_ids tokenizer = Ok sp ->
  data_process args data tokenizer with_eos lm_labels_flag = Ok out ->
  forall name inst,
    stored_under out name inst <->
    exists dataset D,
      (name, dataset) ∈ data /\ D ∈ dataset /\
      build_instance args sp with_eos lm_labels_flag D = Ok inst.
Proof.
  intros Hsp Hout. unfold data_process in Hout. rewrite Hsp in Hout.
  cbn [bind] in Hout.
  destruct (process_splits_ok args sp with_eos lm_labels_flag data []
              (process_splits_built args sp with_eos lm_labels_flag data [] out Hout))
    as (out' & Hout' & Hmem).
  assert (out' = out) as -> by congruence.
  intros name inst. rewrite Hmem. split; [|by right].
  intros [H|H]; [by apply not_stored_under_nil in H|done].
Qed.

Lemma data_process_returns args data tokenizer with_eos lm_labels_flag :
  (forall name dataset, (name, dataset) ∈ data -> [] ∉ dataset) ->
  exists out, data_process args data tokenizer with_eos lm_labels_flag = Ok out.
Proof.
  intros Hne. destruct (special_ids_ok tokenizer) as (sp & Hsp).
  destruct (process_splits_ok args sp with_eos lm_labels_flag data [])
    as (out & Hout & _).
  { intros n ds D Hn HD.
    destruct (build_instance_ok args sp with_eos lm_labels_flag D) as (r & _ & ->).
    { destruct D; [by destruct (Hne n ds Hn)|cbn; lia]. }
    rewrite instance_of_turns_ok. eauto. }
  exists out. unfold data_process. by rewrite Hsp.
Qed.

(** A dialogue of at least one utterance, in a split: its instance. *)
Lemma dialog_instance args data tokenizer with_eos lm_labels_flag
    name dataset (D : Dialog) :
  (name, dataset) ∈ data ->
  D ∈ dataset ->
  (1 <= length D)%nat ->
  exists sp inst,
    special_ids tokenizer = Ok sp /\
    build_instance args sp with_eos lm_labels_flag D = Ok inst /\
    forall out,
      data_process args data tokenizer with_eos lm_labels_flag = Ok out ->
      stored_under out name inst.
Proof.
  intros Hn HD Hlen. destruct (special_ids_ok tokenizer) as (sp & Hsp).
  destruct (build_instance_ok args sp with_eos lm_labels_flag D Hlen) as (r & _ & Hb).
  rewrite instance_of_turns_ok in Hb.
  eexists sp, _. split; [done|]. split; [exact Hb|].
  intros out Hout.
  apply (data_process_stores args data tokenizer with_eos lm_labels_flag sp out Hsp Hout).
  eauto.
Qed.

(** ** The claims on [data_process] *)

(** C1. Let [D] be a dialogue of some split of a tokenized dataset, with at
    least two utterances, and [max_history >= 1]. Whatever the two flags,
    the loop body builds an instance from [D], the assertion of line 92
    holds for it (the three sequences have the same length), and it is in
    whatever [data_process] returns, under the name of its split. When
    every dialogue of the dataset has at least two utterances,
    [data_process] does return, and every instance it stores has three
    sequences of the same length. *)
Theorem C1_instance_lengths_agree
    (args : Args) (data : RawDataset) (tokenizer : Tokenizer)
    (with_eos lm_labels_flag : bool)
    (name : string) (dataset : list Dialog) (D : Dialog) :
  1 <= max_history args ->
  (name, dataset) ∈ data ->
  D ∈ dataset ->
  (2 <= length D)%nat ->
  exists sp inst,
    special_ids tokenizer = Ok sp /\
    build_instance args sp with_eos lm_labels_flag D = Ok inst /\
    length (input_ids inst) = length (token_type_ids inst) /\
    length (token_type_ids inst) = length (lm_labels inst) /\
    (forall out,
       data_process args data tokenizer with_eos lm_labels_flag = Ok out ->
       stored_under out name inst) /\
    ((forall name' dataset' D',
        (name', dataset') ∈ data -> D' ∈ dataset' -> (2 <= length D')%nat) ->
     exists out,
       data_process args data tokenizer with_eos lm_labels_flag = Ok out /\
       forall name' inst',
         stored_under out name' inst' ->
         length (input_ids inst') = length (token_type_ids inst') /\
         length (token_type_ids inst') = length (lm_labels inst')).
Proof.
  intros _ Hn HD Hlen.
  destruct (special_ids_ok tokenizer) as (sp & Hsp).
  assert (Hok : forall D' : Dialog, (1 <= length D')%nat ->
            exists inst, build_instance args sp with_eos lm_labels_flag D' = Ok inst).
  { intros D' HD'.
    destruct (build_instance_ok args sp with_eos lm_labels_flag D' HD') as (r & _ & ->).
    rewrite instance_of_turns_ok. eauto. }
  assert (Hchk : forall (D' : Dialog) inst,
            build_instance args sp with_eos lm_labels_flag D' = Ok inst ->
            length (input_ids inst) = length (token_type_ids inst) /\
            length (token_type_ids inst) = length (lm_labels inst)).
  { intros D' inst Hb. unfold build_instance in Hb.
    destruct (response_of D') as [r|e]; [|discriminate]. cbn [bind] in Hb.
    unfold instance_of_turns in Hb.
    destruct (marked_sequence _ _) as [sq|e]; [|discriminate]. cbn [bind] in Hb.
    destruct (if lm_labels_flag then _ else _) as [lb|e]; [|discriminate].
    cbn [bind] in Hb.
    destruct (_ && _) eqn:Hc; [|discriminate].
    injection Hb as <-. cbn [input_ids token_type_ids lm_labels].
    apply andb_prop in Hc as [H1 H2]. by apply Nat.eqb_eq in H1, H2. }
  destruct (Hok D ltac:(lia)) as (inst & Hinst).
  destruct (Hchk D inst Hinst) as [Hl1 Hl2].
  exists sp, inst. do 4 (split; [done|]). split.
  - intros out Hout. unfold data_process in Hout. rewrite Hsp in Hout.
    cbn [bind] in Hout.
    destruct (process_splits_ok args sp with_eos lm_labels_flag data []
                (process_splits_built args sp with_eos lm_labels_flag data [] out Hout))
      as (out' & Hout' & Hmem).
    assert (out' = out) as -> by congruence.
    apply Hmem. right. eauto.
  - intros Hall.
    destruct (process_splits_ok args sp with_eos lm_labels_flag data []) as (out & Hout & Hmem).
    { intros n ds D' Hn' HD'. apply Hok. specialize (Hall n ds D' Hn' HD'). lia. }
    exists out. split; [unfold data_process; by rewrite Hsp|].
    intros name' inst' Hst.
    apply Hmem in Hst as [Hst|(ds & D' & _ & _ & Hb)];
      [by apply not_stored_under_nil in Hst|].
    by eapply Hchk.
Qed.

(** C2. The example of the specification: [max_history = 1], the dialogue
    [[10,11],[20],[30,31]], BOS = 1, EOS = 2, speaker-A = 5, speaker-B = 6,
    both flags set. *)
Theorem C2_worked_example :
  special_ids example_tokenizer = Ok example_special /\
  history_of example_args example_dialog = [[20]] /\
  response_of example_dialog = Ok [30; 31] /\
  marked_sequence example_special
    (plain_sequence example_special true [[20]] [30; 31]) =
    Ok [[1]; [5; 20]; [6; 30; 31; 2]] /\
  build_instance example_args example_special true true example_dialog =
    Ok {| input_ids := [1; 5; 20; 6; 30; 31; 2];
          token_type_ids := [1; 5; 5; 6; 6; 6; 6];
          lm_labels := [-1; -1; -1; -1; 30; 31; 2] |} /\
  data_process example_args [("train"%string, [example_dialog])]
    example_tokenizer true true =
    Ok [("train"%string,
         [{| input_ids := [1; 5; 20; 6; 30; 31; 2];
             token_type_ids := [1; 5; 5; 6; 6; 6; 6];
             lm_labels := [-1; -1; -1; -1; 30; 31; 2] |}])].
Proof. repeat split; vm_compute; reflexivity. Qed.

(** C3. [data_process] takes, of each dialogue, [history =
    D[-2*max_history:-1]] and [response = D[-1]]. For a dialogue [D] of at
    least two utterances, in a split of the dataset, and [max_history >=
    1]: [D] is some older utterances, then [history], then [response];
    [history] and [response] together are the last [2*max_history]
    utterances (all of them when there are fewer), so that [history] has at
    most [2*max_history - 1] utterances and stops before the final one;
    and the instance made of this history and this response is the one
    that [data_process] stores for [D] under the name of its split.
    Every instance of the result is made this way from a dialogue of its
    split, and [data_process] returns when no dialogue is empty. *)
Theorem C3_history_window
    (args : Args) (data : RawDataset) (tokenizer : Tokenizer)
    (with_eos lm_labels_flag : bool)
    (name : string) (dataset : list Dialog) (D : Dialog) :
  1 <= max_history args ->
  (name, dataset) ∈ data ->
  D ∈ dataset ->
  (2 <= length D)%nat ->
  exists sp older response inst,
    special_ids tokenizer = Ok sp /\
    history_of args D = slice D (Some (-2 * max_history args)) (Some (-1)) /\
    response_of D = index D (-1) /\
    response_of D = Ok response /\
    D = older ++ history_of args D ++ [response] /\
    history_of args D ++ [response] =
      drop (length D - Z.to_nat (2 * max_history args)) D /\
    Z.of_nat (length (history_of args D)) =
      Z.min (2 * max_history args) (Z.of_nat (length D)) - 1 /\
    Z.of_nat (length (history_of args D)) <= 2 * max_history args - 1 /\
    build_instance args sp with_eos lm_labels_flag D = Ok inst /\
    instance_of_turns sp with_eos lm_labels_flag (history_of args D) response
      = Ok inst /\
    (forall out,
       data_process args data tokenizer with_eos lm_labels_flag = Ok out ->
       stored_under out name inst /\
       forall name' inst',
         stored_under out name' inst' ->
         exists dataset' D' response',
           (name', dataset') ∈ data /\ D' ∈ dataset' /\
           index D' (-1) = Ok response' /\
           instance_of_turns sp with_eos lm_labels_flag
             (slice D' (Some (-2 * max_history args)) (Some (-1))) response'
             = Ok inst') /\
    ((forall name' dataset', (name', dataset') ∈ data -> [] ∉ dataset') ->
     exists out, data_process args data tokenizer with_eos lm_labels_flag = Ok out).
Proof.
  intros Hmh Hn HD Hlen.
  destruct (dialog_instance args data tokenizer with_eos lm_labels_flag
              name dataset D Hn HD ltac:(lia)) as (sp & inst & Hsp & Hb & Hst).
  destruct (build_instance_inv _ _ _ _ _ _ Hb) as (u' & Hr' & Hturns & _).
  destruct (nonempty_snoc D) as (init & u & ->); [lia|].
  destruct (history_response args init u) as [Hr Hh].
  specialize (Hh ltac:(lia)).
  assert (u' = u) as -> by congruence.
  set (k := (length init + 1 - Z.to_nat (2 * max_history args))%nat) in *.
  exists sp, (take k init), u, inst.
  split; [done|]. split; [reflexivity|]. split; [reflexivity|]. split; [done|].
  split; [by rewrite Hh, app_assoc, take_drop|].
  split.
  { rewrite Hh, length_app. cbn [length]. fold k.
    rewrite drop_app_le; [done|]. subst k. lia. }
  split; [rewrite Hh, length_drop, length_app; cbn [length]; subst k; lia|].
  split; [rewrite Hh, length_drop; subst k; lia|].
  split; [done|]. split; [done|]. split; [|apply data_process_returns].
  intros out Hout. split; [by apply Hst|].
  intros name' inst' Hst'.
  apply (data_process_stores _ _ _ _ _ _ _ Hsp Hout) in Hst'
    as (dataset' & D' & Hn' & HD' & Hb').
  destruct (build_instance_inv _ _ _ _ _ _ Hb') as (r' & Hr2 & Hturns' & _).
  by exists dataset', D', r'.
Qed.

(** C4. In the instance that [data_process] builds and stores for a
    dialogue of at least two utterances, for any [max_history]: the
    sequence is the BOS turn followed by the turns, each with one marker
    put in front of it, [input_ids] is that sequence flattened, and the
    marker of the turn of index [i] after BOS is the tokenizer's id of
    [[speaker1]] for an even [i] and of [[speaker2]] for an odd one. Every
    instance of the result has its [input_ids] made this way, and
    [data_process] returns when no dialogue is empty. *)
Theorem C4_speaker_markers_alternate
    (args : Args) (data : RawDataset) (tokenizer : Tokenizer)
    (with_eos lm_labels_flag : bool)
    (name : string) (dataset : list Dialog) (D : Dialog) :
  (name, dataset) ∈ data ->
  D ∈ dataset ->
  (2 <= length D)%nat ->
  exists sp response sequence inst,
    special_ids tokenizer = Ok sp /\
    bos sp = tok_convert_token_to_id tokenizer "[CLS]" /\
    speaker1 sp = tok_convert_token_to_id tokenizer "[speaker1]" /\
    speaker2 sp = tok_convert_token_to_id tokenizer "[speaker2]" /\
    response_of D = Ok response /\
    marked_sequence sp
      (plain_sequence sp with_eos (history_of args D) response) = Ok sequence /\
    build_instance args sp with_eos lm_labels_flag D = Ok inst /\
    input_ids inst = concat sequence /\
    sequence !! 0%nat = Some [bos sp] /\
    length sequence = S (length (turns_of sp with_eos (history_of args D) response)) /\
    (forall i s,
       turns_of sp with_eos (history_of args D) response !! i = Some s ->
       sequence !! S i = Some (marker sp i :: s)) /\
    marker sp 0 = speaker1 sp /\
    (forall i, marker sp i = if Nat.even i then speaker1 sp else speaker2 sp) /\
    (forall i, marker sp (S i) = if Nat.even i then speaker2 sp else speaker1 sp) /\
    (forall out,
       data_process args data tokenizer with_eos lm_labels_flag = Ok out ->
       stored_under out name inst /\
       forall name' inst',
         stored_under out name' inst' ->
         exists dataset' D' response',
           (name', dataset') ∈ data /\ D' ∈ dataset' /\
           response_of D' = Ok response' /\
           input_ids inst' =
             bos sp
             :: concat (imap (fun i s =>
                                (if Nat.even i then speaker1 sp else speaker2 sp) :: s)
                          (turns_of sp with_eos (history_of args D') response'))) /\
    ((forall name' dataset', (name', dataset') ∈ data -> [] ∉ dataset') ->
     exists out, data_process args data tokenizer with_eos lm_labels_flag = Ok out).
Proof.
  intros Hn HD Hlen.
  destruct (dialog_instance args data tokenizer with_eos lm_labels_flag
              name dataset D Hn HD ltac:(lia)) as (sp & inst & Hsp & Hb & Hst).
  destruct (special_ids_tokens tokenizer sp Hsp) as (Hbos & _ & Hs1 & Hs2).
  destruct (build_instance_ok args sp with_eos lm_labels_flag D) as (r & Hr & Hb');
    [lia|].
  rewrite Hb, instance_of_turns_ok in Hb'.
  apply (f_equal (fun res => match res with Ok x => x | Raise _ => inst end)) in Hb'.
  cbv beta iota in Hb'.
  exists sp, r, ([bos sp] :: imap (mark sp) (turns_of sp with_eos (history_of args D) r)),
    inst.
  do 5 (split; [done|]).
  split; [apply marked_sequence_plain|]. split; [done|].
  split; [by rewrite Hb'|]. split; [reflexivity|].
  split; [cbn; by rewrite length_imap|].
  split.
  { intros i s Hi.
    change (imap (mark sp) (turns_of sp with_eos (history_of args D) r) !! i =
            Some (marker sp i :: s)).
    rewrite list_lookup_imap, Hi. reflexivity. }
  split; [reflexivity|]. split; [apply marker_parity|].
  split.
  { intros i. rewrite marker_parity, Nat.even_succ, <- Nat.negb_even.
    by destruct (Nat.even i). }
  split; [|apply data_process_returns].
  intros out Hout. split; [by apply Hst|].
  intros name' inst' Hst'.
  apply (data_process_stores _ _ _ _ _ _ _ Hsp Hout) in Hst'
    as (dataset' & D' & Hn' & HD' & Hb2).
  assert (HD2 : (1 <= length D')%nat) by (destruct D'; [discriminate|cbn; lia]).
  destruct (build_instance_ok args sp with_eos lm_labels_flag D' HD2)
    as (r' & Hr2 & Hb3).
  rewrite Hb2, instance_of_turns_ok in Hb3.
  apply (f_equal (fun res => match res with Ok x => x | Raise _ => inst' end)) in Hb3.
  cbv beta iota in Hb3.
  exists dataset', D', r'. do 3 (split; [done|]).
  rewrite Hb3. cbn [input_ids concat app]. f_equal. f_equal.
  apply imap_ext. intros i s _. unfold mark. by rewrite marker_parity.
Qed.

(** C5. With [lm_labels=True], in the instance that [data_process] builds
    and stores for a dialogue of at least two utterances: the labels are
    the ignore marker [-1] at every position before the final turn and at
    the position of the final turn's speaker marker, and then the content
    of the final turn, which is what [input_ids] holds at those positions.
    Every instance of the result has its labels made this way, and
    [data_process] returns when no dialogue is empty. *)
Theorem C5_labels_mask_history
    (args : Args) (data : RawDataset) (tokenizer : Tokenizer) (with_eos : bool)
    (name : string) (dataset : list Dialog) (D : Dialog) :
  (name, dataset) ∈ data ->
  D ∈ dataset ->
  (2 <= length D)%nat ->
  exists sp response before content inst,
    special_ids tokenizer = Ok sp /\
    eos sp = tok_convert_token_to_id tokenizer "[SEP]" /\
    response_of D = Ok response /\
    content = response ++ (if with_eos then [eos sp] else []) /\
    marked_sequence sp
      (plain_sequence sp with_eos (history_of args D) response) =
      Ok (before ++ [marker sp (length (history_of args D)) :: content]) /\
    build_instance args sp with_eos true D = Ok inst /\
    input_ids inst =
      concat before ++ marker sp (length (history_of args D)) :: content /\
    lm_labels inst = replicate (length (concat before)) (-1) ++ [-1] ++ content /\
    (forall i, (i < length (concat before))%nat -> lm_labels inst !! i = Some (-1)) /\
    lm_labels inst !! length (concat before) = Some (-1) /\
    (forall j, lm_labels inst !! (length (concat before) + 1 + j)%nat = content !! j) /\
    (forall j, (j < length content)%nat ->
       lm_labels inst !! (length (concat before) + 1 + j)%nat =
       input_ids inst !! (length (concat before) + 1 + j)%nat) /\
    (forall out,
       data_process args data tokenizer with_eos true = Ok out ->
       stored_under out name inst /\
       forall name' inst',
         stored_under out name' inst' ->
         exists dataset' D' response' masked,
           (name', dataset') ∈ data /\ D' ∈ dataset' /\
           response_of D' = Ok response' /\
           input_ids inst' =
             masked ++ response' ++ (if with_eos then [eos sp] else []) /\
           lm_labels inst' =
             replicate (length masked) (-1)
             ++ response' ++ (if with_eos then [eos sp] else [])) /\
    ((forall name' dataset', (name', dataset') ∈ data -> [] ∉ dataset') ->
     exists out, data_process args data tokenizer with_eos true = Ok out).
Proof.
  intros Hn HD Hlen.
  destruct (dialog_instance args data tokenizer with_eos true
              name dataset D Hn HD ltac:(lia)) as (sp & inst & Hsp & Hb & Hst).
  destruct (build_instance_inv _ _ _ _ _ _ Hb) as (r & Hr & _ & Hids & Hlabels).
  cbv zeta in Hids, Hlabels.
  set (content := r ++ (if with_eos then [eos sp] else [])) in *.
  set (history := history_of args D) in *.
  set (before := [bos sp] :: imap (mark sp) history) in *.
  destruct (special_ids_tokens tokenizer sp Hsp) as (_ & Heos & _ & _).
  exists sp, r, before, content, inst.
  split; [done|]. split; [done|]. split; [done|]. split; [done|].
  split.
  { rewrite marked_sequence_plain. unfold turns_of. fold content history.
    by rewrite marked_split. }
  split; [done|]. split; [done|]. split; [done|].
  assert (Hpad : length (replicate (length (concat before)) (-1)) = length (concat before))
    by apply length_replicate.
  rewrite Hlabels, Hids.
  split.
  { intros i Hi. rewrite lookup_app_l by (rewrite ?length_replicate; lia).
    apply lookup_replicate_2. exact Hi. }
  split.
  { rewrite lookup_app_r by (rewrite ?length_replicate; lia).
    by rewrite Hpad, Nat.sub_diag. }
  split.
  { intros j. rewrite lookup_app_r by (rewrite ?length_replicate; lia). rewrite Hpad.
    by replace (length (concat before) + 1 + j - length (concat before))%nat
      with (S j) by lia. }
  split.
  { intros j Hj.
    rewrite (lookup_app_r (replicate _ _)) by (rewrite ?length_replicate; lia).
    rewrite (lookup_app_r (concat before)) by lia. rewrite Hpad.
    replace (length (concat before) + 1 + j - length (concat before))%nat
      with (S j) by lia.
    reflexivity. }
  split; [|apply data_process_returns].
  intros out Hout. split; [by apply Hst|].
  intros name' inst' Hst'.
  apply (data_process_stores _ _ _ _ _ _ _ Hsp Hout) in Hst'
    as (dataset' & D' & Hn' & HD' & Hb').
  destruct (build_instance_inv _ _ _ _ _ _ Hb') as (r' & Hr' & _ & Hids' & Hlabels').
  cbv zeta in Hids', Hlabels'.
  exists dataset', D', r',
    (concat ([bos sp] :: imap (mark sp) (history_of args D'))
     ++ [marker sp (length (history_of args D'))]).
  do 3 (split; [done|]). split.
  - rewrite Hids'. by rewrite <- app_assoc.
  - rewrite Hlabels', length_app. cbn [length].
    rewrite Nat.add_1_r, replicate_S_end, <- app_assoc. reflexivity.
Qed.

(** C6. With [lm_labels=False], in the instance that [data_process] builds
    and stores for a dialogue of at least two utterances, the labels are
    the ignore marker [-1] throughout and as long as [input_ids]. So are
    the labels of every instance of the result, and [data_process] returns
    when no dialogue is empty. *)
Theorem C6_labels_all_ignored
    (args : Args) (data : RawDataset) (tokenizer : Tokenizer) (with_eos : bool)
    (name : string) (dataset : list Dialog) (D : Dialog) :
  (name, dataset) ∈ data ->
  D ∈ dataset ->
  (2 <= length D)%nat ->
  exists sp inst,
    special_ids tokenizer = Ok sp /\
    build_instance args sp with_eos false D = Ok inst /\
    lm_labels inst = replicate (length (input_ids inst)) (-1) /\
    length (lm_labels inst) = length (input_ids inst) /\
    (forall x, x ∈ lm_labels inst -> x = -1) /\
    (forall out,
       data_process args data tokenizer with_eos false = Ok out ->
       stored_under out name inst /\
       forall name' inst',
         stored_under out name' inst' ->
         lm_labels inst' = replicate (length (input_ids inst')) (-1)) /\
    ((forall name' dataset', (name', dataset') ∈ data -> [] ∉ dataset') ->
     exists out, data_process args data tokenizer with_eos false = Ok out).
Proof.
  intros Hn HD Hlen.
  destruct (dialog_instance args data tokenizer with_eos false
              name dataset D Hn HD ltac:(lia)) as (sp & inst & Hsp & Hb & Hst).
  destruct (build_instance_inv _ _ _ _ _ _ Hb) as (r & _ & _ & _ & Hlabels).
  exists sp, inst. split; [done|]. split; [done|]. split; [done|].
  split; [by rewrite Hlabels, length_replicate|].
  split.
  { intros x Hx. rewrite Hlabels in Hx. by apply elem_of_replicate in Hx as [-> _]. }
  split; [|apply data_process_returns].
  intros out Hout. split; [by apply Hst|].
  intros name' inst' Hst'.
  apply (data_process_stores _ _ _ _ _ _ _ Hsp Hout) in Hst'
    as (dataset' & D' & Hn' & HD' & Hb').
  by destruct (build_instance_inv _ _ _ _ _ _ Hb') as (r' & _ & _ & _ & Hl).
Qed.

(** C7. For a dialogue of at least two utterances, in a split of the
    dataset, whose final response is not empty. With [with_eos=True], the
    last id of [input_ids], in the instance that [data_process] builds and
    stores for it, is the tokenizer's id of the EOS token [[SEP]], as it is
    in every instance of the result. With [with_eos=False] it is the last
    token of the response, hence the EOS id only when the response ends
    with that id; in every instance of the result, it is the last token of
    the response of its dialogue when that response is not empty. Either
    way [data_process] returns when no dialogue is empty. *)
Theorem C7_last_input_id
    (args : Args) (data : RawDataset) (tokenizer : Tokenizer)
    (lm_labels_flag : bool)
    (name : string) (dataset : list Dialog) (D : Dialog) (response : Utterance) :
  (name, dataset) ∈ data ->
  D ∈ dataset ->
  (2 <= length D)%nat ->
  response_of D = Ok response ->
  response <> [] ->
  exists sp,
    special_ids tokenizer = Ok sp /\
    eos sp = tok_convert_token_to_id tokenizer "[SEP]" /\
    (exists inst,
       build_instance args sp true lm_labels_flag D = Ok inst /\
       last (input_ids inst) = Some (eos sp) /\
       (forall out,
          data_process args data tokenizer true lm_labels_flag = Ok out ->
          stored_under out name inst /\
          forall name' inst',
            stored_under out name' inst' ->
            last (input_ids inst') = Some (eos sp))) /\
    (exists inst,
       build_instance args sp false lm_labels_flag D = Ok inst /\
       last (input_ids inst) = last response /\
       (last (input_ids inst) = Some (eos sp) <-> last response = Some (eos sp)) /\
       (forall out,
          data_process args data tokenizer false lm_labels_flag = Ok out ->
          stored_under out name inst /\
          forall name' inst',
            stored_under out name' inst' ->
            exists dataset' D' response',
              (name', dataset') ∈ data /\ D' ∈ dataset' /\
              response_of D' = Ok response' /\
              (response' <> [] -> last (input_ids inst') = last response'))) /\
    ((forall name' dataset', (name', dataset') ∈ data -> [] ∉ dataset') ->
     forall with_eos,
       exists out, data_process args data tokenizer with_eos lm_labels_flag = Ok out).
Proof.
  intros Hn HD Hlen Hr Hne.
  destruct (special_ids_ok tokenizer) as (sp & Hsp).
  destruct (special_ids_tokens tokenizer sp Hsp) as (_ & Heos & _ & _).
  assert (Hlast : forall with_eos (D' : Dialog) inst',
            build_instance args sp with_eos lm_labels_flag D' = Ok inst' ->
            exists r',
              response_of D' = Ok r' /\
              last (input_ids inst') =
              last (marker sp (length (history_of args D'))
                    :: r' ++ (if with_eos then [eos sp] else []))).
  { intros with_eos D' inst' Hb'.
    destruct (build_instance_inv _ _ _ _ _ _ Hb') as (r' & Hr' & _ & Hids & _).
    cbv zeta in Hids. exists r'. split; [done|].
    rewrite Hids. apply last_app_cons. }
  assert (Htail : forall (m : Z) (r' : list Z), r' <> [] -> last (m :: r') = last r').
  { intros m [|z l] Hz; [done|reflexivity]. }
  exists sp. split; [done|]. split; [done|]. split; [|split].
  - destruct (dialog_instance args data tokenizer true lm_labels_flag
                name dataset D Hn HD ltac:(lia)) as (sp' & inst & Hsp' & Hb & Hst).
    assert (sp' = sp) as -> by congruence.
    exists inst. split; [done|].
    assert (Heos_last : forall (D' : Dialog) inst',
              build_instance args sp true lm_labels_flag D' = Ok inst' ->
              last (input_ids inst') = Some (eos sp)).
    { intros D' inst' Hb'. destruct (Hlast true D' inst' Hb') as (r' & _ & ->).
      rewrite app_comm_cons. apply last_snoc. }
    split; [by eapply Heos_last|].
    intros out Hout. split; [by apply Hst|].
    intros name' inst' Hst'.
    apply (data_process_stores _ _ _ _ _ _ _ Hsp Hout) in Hst'
      as (dataset' & D' & _ & _ & Hb').
    by eapply Heos_last.
  - destruct (dialog_instance args data tokenizer false lm_labels_flag
                name dataset D Hn HD ltac:(lia)) as (sp' & inst & Hsp' & Hb & Hst).
    assert (sp' = sp) as -> by congruence.
    exists inst. split; [done|].
    destruct (Hlast false D inst Hb) as (r' & Hr' & Hl).
    assert (r' = response) as -> by congruence.
    rewrite app_nil_r, (Htail _ _ Hne) in Hl.
    split; [done|]. split; [by rewrite Hl|].
    intros out Hout. split; [by apply Hst|].
    intros name' inst' Hst'.
    apply (data_process_stores _ _ _ _ _ _ _ Hsp Hout) in Hst'
      as (dataset' & D' & Hn' & HD' & Hb').
    destruct (Hlast false D' inst' Hb') as (r2 & Hr2 & Hl2).
    exists dataset', D', r2. do 3 (split; [done|]).
    intros Hne2. by rewrite Hl2, app_nil_r, (Htail _ _ Hne2).
  - intros Hall with_eos. by apply data_process_returns.
Qed.

(** ** [tokenize] *)

Section Tokenize.
Import Loader.
Variable tokenizer : Tokenizer.

Lemma pyobj_nested_ind (P : pyobj -> Prop) :
  P PNone ->
  (forall b, P (PBool b)) ->
  (forall z, P (PInt z)) ->
  (forall s, P (PStr s)) ->
  (forall l, Forall P l -> P (PList l)) ->
  (forall d, Forall (fun kv => P kv.2) d -> P (PDict d)) ->
  forall obj, P obj.
Proof.
  intros HN HB HI HS HL HD. fix IH 1.
  intros [ |b|z|s|l|d]; [exact HN|apply HB|apply HI|apply HS| |].
  - apply HL. induction l as [|o l IHl]; constructor; [apply IH|exact IHl].
  - apply HD. induction d as [|[k o] d IHd]; constructor; [apply IH|exact IHd].
Qed.

Lemma tokenize_PList l :
  tokenize tokenizer (PList l) =
  (elems <- tokenize_elems tokenizer l;; Ok (PList elems)).
Proof. reflexivity. Qed.

Lemma tokenize_PDict d :
  tokenize tokenizer (PDict d) =
  (pairs <- tokenize_items tokenizer d;; Ok (PDict (dict_of_pairs pairs))).
Proof. reflexivity. Qed.

Lemma dict_set_fresh {V : Type} (d : list (string * V)) k v :
  k ∉ map fst d -> dict_set d k v = d ++ [(k, v)].
Proof.
  induction d as [|[k' v'] d IH]; intros Hk; [reflexivity|].
  cbn in *. apply not_elem_of_cons in Hk as [Hne Hk].
  destruct (String.eqb_spec k' k) as [->|_]; [done|].
  by rewrite IH.
Qed.

Lemma dict_of_pairs_from {V : Type} (pairs acc : list (string * V)) :
  NoDup (map fst (acc ++ pairs)) ->
  fold_left (fun d '(k, v) => dict_set d k v) pairs acc = acc ++ pairs.
Proof.
  revert acc. induction pairs as [|[k v] pairs IH]; intros acc Hnd.
  - by rewrite app_nil_r.
  - cbn [fold_left]. rewrite dict_set_fresh.
    + rewrite IH; rewrite <- app_assoc; done.
    + rewrite map_app in Hnd. cbn in Hnd.
      apply NoDup_app in Hnd as (_ & Hdisj & _).
      intros Hin. apply (Hdisj k Hin). left.
Qed.

Lemma dict_of_pairs_unique {V : Type} (pairs : list (string * V)) :
  NoDup (map fst pairs) -> dict_of_pairs pairs = pairs.
Proof. intros Hnd. unfold dict_of_pairs. by rewrite dict_of_pairs_from. Qed.

Lemma tokenize_shape obj :
  str_tree obj = true ->
  keys_unique obj = true ->
  exists out, tokenize tokenizer obj = Ok out /\ same_shape tokenizer obj out.
Proof.
  induction obj as [ |b|z|s|l IH|d IH] using pyobj_nested_ind;
    intros Hst Hku; try discriminate.
  - eexists. split; [reflexivity|]. constructor.
  - assert (Hel : exists l', tokenize_elems tokenizer l = Ok l' /\
                             Forall2 (same_shape tokenizer) l l').
    { cbn [str_tree keys_unique] in Hst, Hku.
      induction l as [|o l IHl]; [exists []; split; [done|constructor]|].
      cbn [forallb] in Hst, Hku.
      apply andb_prop in Hst as [Hst1 Hst2]. apply andb_prop in Hku as [Hku1 Hku2].
      apply Forall_cons in IH as [IHo IHr].
      destruct (IHo Hst1 Hku1) as (o' & Ho' & Hso).
      destruct (IHl IHr Hst2 Hku2) as (l' & Hl' & Hsl).
      exists (o' :: l'). split; [|by constructor].
      cbn [tokenize_elems]. rewrite Ho'. cbn [bind].
      fold (tokenize_elems tokenizer). rewrite Hl'. reflexivity. }
    destruct Hel as (l' & Hl' & Hsl). exists (PList l').
    split; [by rewrite tokenize_PList, Hl'|by constructor].
  - cbn [str_tree keys_unique] in Hst, Hku.
    apply andb_prop in Hku as [Hnd Hku]. apply bool_decide_eq_true in Hnd.
    assert (Hit : exists d', tokenize_items tokenizer d = Ok d' /\
                    Forall2 (fun kv kv' => kv.1 = kv'.1 /\
                               same_shape tokenizer kv.2 kv'.2) d d').
    { clear Hnd. induction d as [|[k o] d IHd]; [exists []; split; [done|constructor]|].
      cbn [forallb] in Hst, Hku.
      apply andb_prop in Hst as [Hst1 Hst2]. apply andb_prop in Hku as [Hku1 Hku2].
      apply Forall_cons in IH as [IHo IHr].
      destruct (IHo Hst1 Hku1) as (o' & Ho' & Hso).
      destruct (IHd IHr Hst2 Hku2) as (d' & Hd' & Hsd).
      exists ((k, o') :: d'). split; [|by constructor].
      cbn [tokenize_items]. cbn [snd] in Ho'. rewrite Ho'. cbn [bind].
      fold (tokenize_items tokenizer). rewrite Hd'. reflexivity. }
    destruct Hit as (d' & Hd' & Hsd). exists (PDict d').
    assert (Hkeys : map fst d' = map fst d).
    { clear -Hsd. induction Hsd as [|[k o] [k' o'] d d' [Hk _] _ IHs]; [done|].
      cbn in *. by rewrite Hk, IHs. }
    split; [|by constructor].
    rewrite tokenize_PDict, Hd'. cbn [bind].
    rewrite dict_of_pairs_unique; [done|by rewrite Hkeys].
Qed.

End Tokenize.

Lemma same_shape_list tokenizer l out :
  Loader.same_shape tokenizer (Loader.PList l) out ->
  exists l', out = Loader.PList l' /\ length l' = length l /\
             Forall2 (Loader.same_shape tokenizer) l l'.
Proof.
  intros Hs. inversion Hs as [|? l' HF|]; subst.
  exists l'. split; [done|]. split; [|done]. symmetry. by eapply Forall2_length.
Qed.

Lemma same_shape_dict tokenizer d out :
  Loader.same_shape tokenizer (Loader.PDict d) out ->
  exists d', out = Loader.PDict d' /\ map fst d' = map fst d /\
             length d' = length d /\
             Forall2 (Loader.same_shape tokenizer) (map snd d) (map snd d').
Proof.
  intros Hs. inversion Hs as [| |? d' HF]; subst.
  exists d'. split; [done|].
  assert (Hk : map fst d' = map fst d /\
               Forall2 (Loader.same_shape tokenizer) (map snd d) (map snd d')).
  { clear Hs. induction HF as [|[k o] [k' o'] d d' [Hk Ho] _ [IH1 IH2]];
      [split; [done|constructor]|].
    cbn in *. subst k'. rewrite IH1. split; [done|by constructor]. }
  destruct Hk as [Hk Hv]. split; [done|]. split; [|done].
  symmetry. by eapply Forall2_length.
Qed.

(** C8. On a value built from strings, lists and dictionaries, [tokenize]
    returns a value of the same shape: a string leaf becomes the list of
    its token ids, a list becomes a list of as many elements, each of the
    same shape as the element it comes from, a dictionary becomes a
    dictionary with the same keys in the same order, each value of the
    same shape as the value it comes from. An empty list gives an empty
    list and an empty dictionary an empty dictionary. *)
Theorem C8_tokenize_preserves_shape (tokenizer : Tokenizer) (obj : Loader.pyobj) :
  Loader.str_tree obj = true ->
  Loader.keys_unique obj = true ->
  exists out,
    Loader.tokenize tokenizer obj = Ok out /\
    Loader.same_shape tokenizer obj out /\
    (forall s, obj = Loader.PStr s ->
       out = Loader.PList
               (map Loader.PInt
                  (convert_tokens_to_ids tokenizer (tok_tokenize tokenizer s)))) /\
    (forall l, obj = Loader.PList l ->
       exists l', out = Loader.PList l' /\ length l' = length l /\
                  Forall2 (Loader.same_shape tokenizer) l l') /\
    (forall d, obj = Loader.PDict d ->
       exists d', out = Loader.PDict d' /\ map fst d' = map fst d /\
                  length d' = length d /\
                  Forall2 (Loader.same_shape tokenizer) (map snd d) (map snd d')) /\
    Loader.tokenize tokenizer (Loader.PList []) = Ok (Loader.PList []) /\
    Loader.tokenize tokenizer (Loader.PDict []) = Ok (Loader.PDict []).
Proof.
  intros Hst Hku.
  destruct (tokenize_shape tokenizer obj Hst Hku) as (out & Hout & Hs).
  exists out. split; [done|]. split; [done|].
  split.
  { intros s ->. cbn in Hout. by injection Hout as <-. }
  split; [intros l ->; by apply same_shape_list|].
  split; [intros d ->; by apply same_shape_dict|].
  split; reflexivity.
Qed.

(** ** [get_data] *)

Lemma cache_key_truthy tokenizer dataset_cache :
  Loader.truthy (Loader.cache_key tokenizer dataset_cache) = true.
Proof.
  unfold Loader.truthy, Loader.cache_key.
  by destruct dataset_cache.
Qed.

(** C9. The cache file is [dataset_cache + '_' + type(tokenizer).__name__].
    When a regular file is there, [get_data] logs the load, hands the
    content of the file to the deserializer and returns what it yields,
    as it is, with [None] for the samples; the file system is unchanged.
    The tokenizer matters only through the name of its type. *)
Theorem C9_cache_hit_returns_cached
    (c : Loader.Collab) (tokenizer : Tokenizer)
    (dataset_path dataset_cache : string) (w : Loader.world) (content : string) :
  Loader.fs w !! Loader.cache_key tokenizer dataset_cache
    = Some (Loader.File content) ->
  Loader.cache_key tokenizer dataset_cache
    = (dataset_cache ++ "_" ++ type_name tokenizer)%string /\
  Loader.get_data c tokenizer dataset_path dataset_cache w =
    (match Loader.unpickle c content with
     | Ok dataset => Ok (dataset, None)
     | Raise e => Raise e
     end,
     {| Loader.fs := Loader.fs w;
        Loader.log := Loader.log w ++
          [("Load tokenized dataset from cache at "
            ++ Loader.cache_key tokenizer dataset_cache)%string] |}) /\
  (forall dataset,
     Loader.unpickle c content = Ok dataset ->
     (Loader.get_data c tokenizer dataset_path dataset_cache w).1
       = Ok (dataset, None)) /\
  (forall tokenizer',
     type_name tokenizer' = type_name tokenizer ->
     Loader.get_data c tokenizer' dataset_path dataset_cache w =
     Loader.get_data c tokenizer dataset_path dataset_cache w).
Proof.
  intros Hfile.
  assert (Hrun : forall tk,
            type_name tk = type_name tokenizer ->
            Loader.get_data c tk dataset_path dataset_cache w =
            (match Loader.unpickle c content with
             | Ok dataset => Ok (dataset, None)
             | Raise e => Raise e
             end,
             {| Loader.fs := Loader.fs w;
                Loader.log := Loader.log w ++
                  [("Load tokenized dataset from cache at "
                    ++ Loader.cache_key tokenizer dataset_cache)%string] |})).
  { intros tk Htk.
    assert (Hkey : Loader.cache_key tk dataset_cache =
                   Loader.cache_key tokenizer dataset_cache)
      by (unfold Loader.cache_key; by rewrite Htk).
    unfold Loader.get_data. rewrite Hkey, cache_key_truthy.
    unfold SE.bind, Loader.os_path_isfile. rewrite Hfile.
    unfold Loader.logger_info, Loader.torch_load, SE.bind, Loader.read_file.
    cbn [Loader.fs Loader.log]. rewrite Hfile.
    unfold SE.lift, SE.ret. by destruct (Loader.unpickle c content). }
  split; [reflexivity|]. split; [by apply Hrun|]. split.
  - intros dataset Hd. rewrite Hrun by done. by rewrite Hd.
  - intros tk Htk. rewrite (Hrun tk Htk). symmetry. by apply Hrun.
Qed.

(** ** The store: what [data_process] leaves alone *)

Section Frame.
Import HeapModel.
Local Open Scope nat_scope.
Local Open Scope se_scope.

Lemma frame_refl n h : frame n h h.
Proof. split; [lia|done]. Qed.

Lemma frame_trans n h1 h2 h3 : frame n h1 h2 -> frame n h2 h3 -> frame n h1 h3.
Proof.
  intros [L1 E1] [L2 E2]. split; [lia|]. intros a Ha. by rewrite E2, E1.
Qed.

Lemma frame_weaken n m h h' : m <= n -> frame n h h' -> frame m h h'.
Proof. intros Hmn [L E]. split; [done|]. intros a Ha. apply E. lia. Qed.

Lemma frame_alloc n h o : n <= length h -> frame n h (h ++ [o]).
Proof.
  intros Hn. split; [rewrite length_app; lia|].
  intros a Ha. apply lookup_app_l. lia.
Qed.

Lemma frame_store n h a o : n <= a -> frame n h (<[a := o]> h).
Proof.
  intros Hn. split; [by rewrite length_insert|].
  intros b Hb. apply list_lookup_insert_ne. lia.
Qed.

Lemma fresh_weaken n m v : m <= n -> fresh n v -> fresh m v.
Proof. destruct v; cbn; [done|lia]. Qed.

Section Keeps.
Variable n : nat.

Lemma keeps_ret {A} (x : A) (Q : A -> Prop) : Q x -> keeps n (SE.ret x) Q.
Proof. intros HQ h Hh. split; [apply frame_refl|]. cbn. by intros ? [= <-]. Qed.

Lemma keeps_raise {A} e (Q : A -> Prop) : keeps n (SE.raise e) Q.
Proof. intros h Hh. split; [apply frame_refl|]. cbn. discriminate. Qed.

Lemma keeps_lift {A} (r : result A) : keeps n (SE.lift r) (fun _ => True).
Proof. intros h Hh. split; [apply frame_refl|done]. Qed.

Lemma keeps_bind {A B} (m : H A) (k : A -> H B) (Q : A -> Prop) (R : B -> Prop) :
  keeps n m Q -> (forall x, Q x -> keeps n (k x) R) -> keeps n (SE.bind m k) R.
Proof.
  intros Hm Hk h Hh. unfold SE.bind.
  destruct (Hm h Hh) as [Hf HQ]. destruct (m h) as [[x|e] h1]; cbn in *.
  - destruct (Hk x (HQ x eq_refl) h1) as [Hf' HR]; [destruct Hf; lia|].
    split; [by eapply frame_trans|done].
  - split; [done|discriminate].
Qed.

Lemma keeps_weaken {A} (m : H A) (Q R : A -> Prop) :
  keeps n m Q -> (forall x, Q x -> R x) -> keeps n m R.
Proof.
  intros Hm HQR h Hh. destruct (Hm h Hh) as [Hf HQ]. split; [done|]. auto.
Qed.

Lemma keeps_alloc o : keeps n (alloc o) (fresh n).
Proof.
  intros h Hh. split; [by apply frame_alloc|]. cbn. by intros ? [= <-].
Qed.

Lemma keeps_store a o : n <= a -> keeps n (store a o) (fun _ => True).
Proof. intros Ha h Hh. split; [by apply frame_store|done]. Qed.

Lemma keeps_deref v : keeps n (deref v) (fun ao => v = VRef ao.1).
Proof.
  intros h Hh. unfold deref. destruct v as [z|a]; [split; [apply frame_refl|done]|].
  destruct (h !! a); (split; [apply frame_refl|]); cbn; [|done].
  by intros ? [= <-].
Qed.

Lemma keeps_list_items v : keeps n (list_items v) (fun _ => True).
Proof.
  eapply keeps_bind; [apply keeps_deref|]. intros [a [l|d]] _; cbn.
  - by apply keeps_ret.
  - apply keeps_raise.
Qed.

Lemma keeps_dict_entries v : keeps n (dict_entries v) (fun _ => True).
Proof.
  eapply keeps_bind; [apply keeps_deref|]. intros [a [l|d]] _; cbn.
  - apply keeps_raise.
  - by apply keeps_ret.
Qed.

Lemma keeps_len v : keeps n (len v) (fun _ => True).
Proof.
  eapply keeps_bind; [apply keeps_deref|]. intros [a [l|d]] _; by apply keeps_ret.
Qed.

Lemma keeps_list_new l : keeps n (list_new l) (fresh n).
Proof. apply keeps_alloc. Qed.

Lemma keeps_dict_new : keeps n dict_new (fresh n).
Proof. apply keeps_alloc. Qed.

Lemma keeps_list_add x y : keeps n (list_add x y) (fresh n).
Proof.
  eapply keeps_bind; [apply keeps_list_items|]. intros lx _.
  eapply keeps_bind; [apply keeps_list_items|]. intros ly _.
  apply keeps_list_new.
Qed.

Lemma keeps_list_mul x k : keeps n (list_mul x k) (fresh n).
Proof.
  eapply keeps_bind; [apply keeps_list_items|]. intros lx _. apply keeps_list_new.
Qed.

Lemma keeps_getslice x start stop : keeps n (getslice x start stop) (fresh n).
Proof.
  eapply keeps_bind; [apply keeps_list_items|]. intros lx _. apply keeps_list_new.
Qed.

Lemma keeps_getitem x i : keeps n (getitem x i) (fun _ => True).
Proof.
  eapply keeps_bind; [apply keeps_list_items|]. intros lx _. apply keeps_lift.
Qed.

Lemma keeps_dict_getitem d k : keeps n (dict_getitem d k) (fun _ => True).
Proof.
  eapply keeps_bind; [apply keeps_dict_entries|]. intros entries _.
  destruct (assoc entries k); [by apply keeps_ret|apply keeps_raise].
Qed.

(** An item assignment, or an [append], on an object that is not one of
    the first [n]. *)
Lemma keeps_dict_setitem d k v :
  fresh n d -> keeps n (dict_setitem d k v) (fun _ => True).
Proof.
  intros Hd. eapply keeps_bind; [apply keeps_deref|].
  intros [a [l|entries]] Ha; cbn in *; [apply keeps_raise|].
  subst d. by apply keeps_store.
Qed.

Lemma keeps_list_append x v :
  fresh n x -> keeps n (list_append x v) (fun _ => True).
Proof.
  intros Hx. eapply keeps_bind; [apply keeps_deref|].
  intros [a [l|entries]] Ha; cbn in *; [|apply keeps_raise].
  subst x. by apply keeps_store.
Qed.

Lemma keeps_mapM {A B} (f : A -> H B) (l : list A) :
  (forall x, keeps n (f x) (fun _ => True)) ->
  keeps n (SE.mapM f l) (fun _ => True).
Proof.
  intros Hf. induction l as [|x l IH]; cbn [SE.mapM]; [by apply keeps_ret|].
  eapply keeps_bind; [apply Hf|]. intros y _.
  eapply keeps_bind; [apply IH|]. intros ys _. by apply keeps_ret.
Qed.

End Keeps.

Create HintDb keeps.
#[local] Hint Resolve keeps_list_items keeps_dict_entries keeps_len keeps_list_new
  keeps_dict_new keeps_list_add keeps_list_mul keeps_getslice keeps_getitem
  keeps_dict_getitem keeps_dict_setitem keeps_list_append keeps_lift : keeps.

(** One more statement of the program. *)
Ltac keeps_step :=
  first
    [ eapply keeps_bind; [solve [eauto with keeps]|]; intros ? ?
    | eapply keeps_weaken; [solve [eauto with keeps]|]; cbn; solve [auto]
    | solve [eauto with keeps]
    | apply keeps_ret; solve [auto]
    | apply keeps_raise ].

Lemma keeps_plain_sequence_h n sp with_eos history resposne :
  keeps n (plain_sequence_h sp with_eos history resposne) (fresh n).
Proof. unfold plain_sequence_h. repeat keeps_step. Qed.

Lemma keeps_marked_sequence_h n sp sequence :
  keeps n (marked_sequence_h sp sequence) (fresh n).
Proof.
  unfold marked_sequence_h. do 4 keeps_step.
  eapply keeps_bind.
  { apply keeps_mapM. intros [i s]. eapply keeps_weaken; [|done].
    repeat keeps_step. }
  intros marked _. repeat keeps_step.
Qed.

Lemma keeps_input_ids_h n sequence : keeps n (input_ids_h sequence) (fresh n).
Proof.
  unfold input_ids_h. keeps_step.
  eapply keeps_bind; [apply keeps_mapM; intros; apply keeps_list_items|].
  intros parts _. keeps_step.
Qed.

Lemma keeps_type_ids_h n sp sequence : keeps n (type_ids_h sp sequence) (fresh n).
Proof.
  unfold type_ids_h. do 3 keeps_step.
  eapply keeps_bind.
  { apply keeps_mapM. intros [i s]. repeat keeps_step. }
  intros parts _. repeat keeps_step.
Qed.

Lemma keeps_masked_labels_h n sequence :
  keeps n (masked_labels_h sequence) (fresh n).
Proof.
  unfold masked_labels_h. do 3 keeps_step.
  eapply keeps_bind; [apply keeps_mapM; intros; apply keeps_len|].
  intros lens _. repeat keeps_step.
Qed.

Lemma keeps_assert_lengths n instance :
  keeps n (assert_lengths instance) (fun _ => True).
Proof.
  unfold assert_lengths. do 4 keeps_step.
  destruct (negb _); [apply keeps_raise|]. do 2 keeps_step.
  destruct (_ =? _); [by apply keeps_ret|apply keeps_raise].
Qed.

#[local] Hint Resolve keeps_plain_sequence_h keeps_marked_sequence_h
  keeps_input_ids_h keeps_type_ids_h keeps_masked_labels_h
  keeps_assert_lengths : keeps.

(** Building an instance changes no object that was there before, and the
    instance is a new object. *)
Lemma keeps_build_instance_h n args sp with_eos lm_labels_flag dialog :
  keeps n (build_instance_h args sp with_eos lm_labels_flag dialog) (fresh n).
Proof.
  unfold build_instance_h. do 14 keeps_step.
  eapply keeps_bind with (Q := fun _ => True).
  { destruct lm_labels_flag; repeat keeps_step. }
  intros _ _. repeat keeps_step.
Qed.

Lemma datasets_at_frame a h h' :
  frame (S a) h h' -> datasets_at a h -> datasets_at a h'.
Proof.
  intros [_ E] (entries & Ha & Hall). exists entries. split; [|done].
  rewrite E; [done|lia].
Qed.

Lemma assoc_elem_of {V : Type} (d : list (string * V)) k v :
  assoc d k = Some v -> (k, v) ∈ d.
Proof.
  induction d as [|[k' v'] d IH]; [done|]. cbn.
  destruct (String.eqb_spec k' k) as [->|_].
  - intros [= ->]. left.
  - intros Hd. right. by apply IH.
Qed.

Lemma Forall_dict_set {V : Type} (P : string * V -> Prop) d k v :
  Forall P d -> (forall k', P (k', v)) -> Forall P (Loader.dict_set d k v).
Proof.
  intros Hd Hv. induction Hd as [|[k' v'] d Hx Hd IH]; cbn.
  - constructor; [apply Hv|constructor].
  - destruct (String.eqb k' k); constructor; try done.
Qed.

Section Steady.
Variables (n : nat) (a : addr).
Hypothesis Hna : n <= a.

Lemma steady_of_keeps {A} (m : H A) (Q : A -> Prop) :
  keeps (S a) m Q -> steady n a m Q.
Proof.
  intros Hm h Hds.
  assert (Hlt : S a <= length h).
  { destruct Hds as (? & Ha & _). by eapply lookup_lt_Some. }
  destruct (Hm h Hlt) as [Hf HQ].
  split; [eapply frame_weaken; [|exact Hf]; lia|].
  split; [by eapply datasets_at_frame|done].
Qed.

Lemma steady_bind {A B} (m : H A) (k : A -> H B) (Q : A -> Prop) (R : B -> Prop) :
  steady n a m Q -> (forall x, Q x -> steady n a (k x) R) ->
  steady n a (SE.bind m k) R.
Proof.
  intros Hm Hk h Hds. unfold SE.bind.
  destruct (Hm h Hds) as (Hf & Hds1 & HQ).
  destruct (m h) as [[x|e] h1]; cbn in *.
  - destruct (Hk x (HQ x eq_refl) h1 Hds1) as (Hf' & Hds2 & HR).
    split; [by eapply frame_trans|done].
  - split; [done|]. split; [done|discriminate].
Qed.

Lemma steady_ret {A} (x : A) : steady n a (SE.ret x) (fun _ => True).
Proof. apply steady_of_keeps. by apply keeps_ret. Qed.

Lemma steady_raise {A} e : steady n a (@SE.raise heap A e) (fun _ => True).
Proof. apply steady_of_keeps. apply keeps_raise. Qed.

(** [datasets[dataset_name]]: the list that it yields was created after the
    dictionary, and nothing else changes but the dictionary. *)
Lemma steady_defaultdict_getitem name :
  steady n a (defaultdict_getitem (VRef a) name) (fresh (S a)).
Proof.
  intros h (entries & Ha & Hall).
  assert (Hlt : a < length h) by (by eapply lookup_lt_Some).
  unfold defaultdict_getitem, dict_entries, SE.bind, deref. rewrite Ha. cbn.
  destruct (assoc entries name) as [v|] eqn:Hv; cbn.
  - split; [apply frame_refl|]. split; [exists entries; auto|].
    intros ? [= <-]. apply assoc_elem_of in Hv.
    rewrite Forall_forall in Hall. destruct (Hall _ Hv) as (b & Hb & Hab).
    cbn in Hb. subst v. cbn. lia.
  - unfold dict_setitem, SE.bind, deref.
    rewrite lookup_app_l by done. rewrite Ha. cbn.
    split.
    { eapply frame_trans; [apply frame_alloc; lia|]. apply frame_store; lia. }
    split.
    + exists (Loader.dict_set entries name (VRef (length h))). split.
      * apply list_lookup_insert_eq. rewrite length_app. lia.
      * apply Forall_dict_set; [done|]. intros k'. exists (length h). by split.
    + intros ? [= <-]. cbn. lia.
Qed.

(** One turn of the inner loop. *)
Lemma steady_dialog_step args sp with_eos lm_labels_flag name dialog :
  steady n a (dialog_step args sp with_eos lm_labels_flag (VRef a) name dialog)
    (fun _ => True).
Proof.
  unfold dialog_step.
  eapply steady_bind; [apply steady_of_keeps, keeps_build_instance_h|].
  intros instance _.
  eapply steady_bind; [apply steady_defaultdict_getitem|].
  intros target Ht. apply steady_of_keeps. by apply keeps_list_append.
Qed.

Lemma steady_for_list (body : val -> H unit) :
  (forall x, steady n a (body x) (fun _ => True)) ->
  forall fuel v i, steady n a (for_list_from fuel v i body) (fun _ => True).
Proof.
  intros Hbody fuel. induction fuel as [|fuel IH]; intros v i;
    [apply steady_raise|].
  cbn [for_list_from].
  eapply steady_bind; [apply steady_of_keeps, keeps_list_items|].
  intros l _. destruct (l !! i) as [x|]; [|apply steady_ret].
  eapply steady_bind; [apply Hbody|]. intros _ _. apply IH.
Qed.

Lemma steady_for_items (body : string -> val -> H unit) :
  (forall k x, steady n a (body k x) (fun _ => True)) ->
  forall fuel v size i,
    steady n a (for_items_from fuel v size i body) (fun _ => True).
Proof.
  intros Hbody fuel. induction fuel as [|fuel IH]; intros v size i;
    [apply steady_raise|].
  cbn [for_items_from].
  eapply steady_bind; [apply steady_of_keeps, keeps_dict_entries|].
  intros d _. destruct (negb _); [apply steady_raise|].
  destruct (d !! i) as [[k x]|]; [|apply steady_ret].
  eapply steady_bind; [apply Hbody|]. intros _ _. apply IH.
Qed.

End Steady.

(** Whatever the store, the value passed for [data] and the fuel, and
    however the run ends, every object that was in the store is there
    afterwards, unchanged. *)
Lemma data_process_h_frame fuel args data tokenizer with_eos lm_labels_flag h :
  frame (length h) h
    (data_process_h fuel args data tokenizer with_eos lm_labels_flag h).2.
Proof.
  unfold data_process_h, SE.bind at 1, SE.lift.
  destruct (special_ids tokenizer) as [sp|e]; [|apply frame_refl].
  unfold SE.bind at 1, dict_new, alloc.
  set (a := length h). set (h0 := h ++ [ODict []]).
  assert (Hds : datasets_at a h0).
  { exists []. split; [by apply list_lookup_middle|constructor]. }
  assert (Hloop : steady a a
            (for_items fuel data
               (fun dataset_name dataset =>
                  for_list fuel dataset
                    (dialog_step args sp with_eos lm_labels_flag (VRef a)
                       dataset_name))) (fun _ => True)).
  { assert (Hle : a <= a) by lia. unfold for_items.
    eapply steady_bind;
      [apply (steady_of_keeps a a Hle), keeps_dict_entries|].
    intros d _. apply (steady_for_items a a Hle).
    intros k x. apply (steady_for_list a a Hle).
    intros dialog. apply (steady_dialog_step a a Hle). }
  destruct (Hloop h0 Hds) as (Hf & _ & _).
  unfold SE.bind.
  destruct (for_items _ _ _ h0) as [[[]|e] h1]; cbn in *;
    (eapply frame_trans; [apply frame_alloc; lia|done]).
Qed.

End Frame.

(** ** The store: what [data_process] computes *)

Section Runs.
Import HeapModel.
Local Open Scope nat_scope.
Local Open Scope se_scope.

Lemma grows_refl h : grows h h.
Proof. by intros a o. Qed.

Lemma grows_trans h1 h2 h3 : grows h1 h2 -> grows h2 h3 -> grows h1 h3.
Proof. intros H1 H2 a o Ha. by apply H2, H1. Qed.

Lemma grows_alloc h o : grows h (h ++ [o]).
Proof. intros a o' Ha. by apply lookup_app_l_Some. Qed.

Lemma grows_length h h' : grows h h' -> length h <= length h'.
Proof.
  intros Hg. destruct (decide (length h <= length h')) as [|Hn]; [done|].
  destruct (lookup_lt_is_Some_2 h (length h')) as [o Ho]; [lia|].
  apply Hg in Ho. apply lookup_lt_Some in Ho. lia.
Qed.

Lemma frame_grows h h' : frame (length h) h h' -> grows h h'.
Proof.
  intros [_ E] a o Ha. rewrite E; [done|]. by eapply lookup_lt_Some.
Qed.

Lemma grows_lists_kept h h' : grows h h' -> lists_kept h h'.
Proof. intros Hg a l. apply Hg. Qed.

Lemma lists_kept_store_dict h c d d' :
  h !! c = Some (ODict d) -> lists_kept h (<[c := ODict d']> h).
Proof.
  intros Hc a l Ha. rewrite list_lookup_insert_ne; [done|]. congruence.
Qed.

Lemma lists_kept_trans h1 h2 h3 :
  lists_kept h1 h2 -> lists_kept h2 h3 -> lists_kept h1 h3.
Proof. intros H1 H2 a l Ha. by apply H2, H1. Qed.

Lemma bind_ok {S A B} (m : SE.M S A) (k : A -> SE.M S B) s x s' :
  m s = (Ok x, s') -> SE.bind m k s = k x s'.
Proof. intros Hm. unfold SE.bind. by rewrite Hm. Qed.

Lemma bind_assoc {S A B C} (m : SE.M S A) (k : A -> SE.M S B)
    (k' : B -> SE.M S C) s :
  SE.bind (SE.bind m k) k' s = SE.bind m (fun x => SE.bind (k x) k') s.
Proof. unfold SE.bind. by destruct (m s) as [[x|e] s']. Qed.

(** *** Running a computation that only creates objects *)

Lemma runs_ret {A} (x : A) h (Q : A -> heap -> Prop) :
  Q x h -> runs (SE.ret x) h Q.
Proof. intros HQ. exists x, h. split; [done|]. split; [apply grows_refl|done]. Qed.

Lemma runs_bind {A B} (m : H A) (k : A -> H B) h
    (P : A -> heap -> Prop) (Q : B -> heap -> Prop) :
  runs m h P ->
  (forall x h', grows h h' -> P x h' -> runs (k x) h' Q) ->
  runs (SE.bind m k) h Q.
Proof.
  intros (x & h1 & Hm & Hg1 & HP) Hk.
  destruct (Hk x h1 Hg1 HP) as (y & h2 & Hk' & Hg2 & HQ).
  exists y, h2. unfold SE.bind. rewrite Hm.
  split; [done|]. split; [by eapply grows_trans|done].
Qed.

(** A step that reads the store and leaves it as it is. *)
Lemma runs_read {A B} (m : H A) (k : A -> H B) h x (Q : B -> heap -> Prop) :
  m h = (Ok x, h) -> runs (k x) h Q -> runs (SE.bind m k) h Q.
Proof.
  intros Hm (y & h2 & Hk' & Hg2 & HQ). exists y, h2.
  unfold SE.bind. rewrite Hm. done.
Qed.

Lemma runs_conseq {A} (m : H A) h (P Q : A -> heap -> Prop) :
  runs m h P -> (forall x h', grows h h' -> P x h' -> Q x h') -> runs m h Q.
Proof.
  intros (x & h1 & Hm & Hg1 & HP) HPQ. exists x, h1. auto.
Qed.

(** *** Reading values back *)

Lemma mapM_as_int l u : mapM as_int l = Some u <-> l = VInt <$> u.
Proof.
  rewrite mapM_Some. split.
  - induction 1 as [|v z l u Hv _ IH]; [done|].
    destruct v; [|done]. cbn in Hv. injection Hv as <-. cbn. by f_equal.
  - intros ->. induction u; by constructor.
Qed.

Lemma read_list_kept {A} (f f' : val -> option A) h h' v L :
  lists_kept h h' ->
  (forall x y, f x = Some y -> f' x = Some y) ->
  read_list f h v = Some L -> read_list f' h' v = Some L.
Proof.
  intros Hk Hf. unfold read_list. destruct v as [z|a]; [done|].
  destruct (h !! a) as [[l|d]|] eqn:Ha; try done.
  rewrite (Hk a l Ha). rewrite !mapM_Some.
  intros HF. eapply Forall2_impl; [exact HF|]. auto.
Qed.

Lemma read_utterance_kept h h' v u :
  lists_kept h h' -> read_utterance h v = Some u -> read_utterance h' v = Some u.
Proof. intros Hk. by apply read_list_kept. Qed.

Lemma read_dialog_kept h h' v D :
  lists_kept h h' -> read_dialog h v = Some D -> read_dialog h' v = Some D.
Proof.
  intros Hk. apply read_list_kept; [done|].
  intros x y. by apply read_utterance_kept.
Qed.

Lemma read_split_kept h h' v S :
  lists_kept h h' -> read_split h v = Some S -> read_split h' v = Some S.
Proof.
  intros Hk. apply read_list_kept; [done|].
  intros x y. by apply read_dialog_kept.
Qed.

Lemma read_data_grows h h' v D :
  grows h h' -> read_data h v = Some D -> read_data h' v = Some D.
Proof.
  intros Hg. unfold read_data, read_dict. destruct v as [z|a]; [done|].
  destruct (h !! a) as [[l|d]|] eqn:Ha; try done.
  rewrite (Hg a _ Ha). rewrite !mapM_Some.
  intros HF. eapply Forall2_impl; [exact HF|].
  intros [k x] [k' S]. cbn.
  destruct (read_split h x) as [S0|] eqn:HS; [|done]. cbn. intros [= <- <-].
  by rewrite (read_split_kept h h' x S0 (grows_lists_kept _ _ Hg) HS).
Qed.

(** *** The list operations, on lists read by [f] *)

Section Lists.
Context {A : Type} (f : heap -> val -> option A).
Hypothesis f_kept :
  forall h h' v x, lists_kept h h' -> f h v = Some x -> f h' v = Some x.

Lemma read_list_f_kept h h' v L :
  lists_kept h h' ->
  read_list (f h) h v = Some L -> read_list (f h') h' v = Some L.
Proof. intros Hk. apply read_list_kept; [done|]. intros x y. by apply f_kept. Qed.

Lemma read_list_inv h v L :
  read_list (f h) h v = Some L ->
  exists a l, v = VRef a /\ h !! a = Some (OList l) /\
              Forall2 (fun x y => f h x = Some y) l L.
Proof.
  unfold read_list. destruct v as [z|a]; [done|].
  destruct (h !! a) as [[l|d]|] eqn:Ha; try done.
  rewrite mapM_Some. eauto.
Qed.

Lemma list_items_read h v L :
  read_list (f h) h v = Some L ->
  exists l, list_items v h = (Ok l, h) /\ Forall2 (fun x y => f h x = Some y) l L.
Proof.
  intros (a & l & -> & Ha & HF)%read_list_inv. exists l. split; [|done].
  unfold list_items, SE.bind, deref. by rewrite Ha.
Qed.

Lemma len_read h v L :
  read_list (f h) h v = Some L -> len v h = (Ok (length L), h).
Proof.
  intros (a & l & -> & Ha & HF)%read_list_inv.
  unfold len, SE.bind, deref. rewrite Ha. cbn.
  by rewrite (Forall2_length _ _ _ HF).
Qed.

Lemma runs_list_new h items L :
  Forall2 (fun x y => f h x = Some y) items L ->
  runs (list_new items) h (fun v h' => read_list (f h') h' v = Some L).
Proof.
  intros HF. exists (VRef (length h)), (h ++ [OList items]).
  split; [done|]. split; [apply grows_alloc|].
  unfold read_list. rewrite list_lookup_middle by done.
  apply mapM_Some. eapply Forall2_impl; [exact HF|].
  intros x y. apply f_kept, grows_lists_kept, grows_alloc.
Qed.

Lemma runs_list_add h x y L1 L2 :
  read_list (f h) h x = Some L1 ->
  read_list (f h) h y = Some L2 ->
  runs (list_add x y) h (fun v h' => read_list (f h') h' v = Some (L1 ++ L2)).
Proof.
  intros (l1 & H1 & HF1)%list_items_read (l2 & H2 & HF2)%list_items_read.
  unfold list_add. eapply runs_read; [exact H1|].
  eapply runs_read; [exact H2|].
  apply runs_list_new. by apply Forall2_app.
Qed.

Lemma slice_Forall2 {B C} (R : B -> C -> Prop) l L start stop :
  Forall2 R l L -> Forall2 R (slice l start stop) (slice L start stop).
Proof.
  intros HF. unfold slice. rewrite (Forall2_length _ _ _ HF).
  by apply Forall2_take, Forall2_drop.
Qed.

Lemma runs_getslice h x L start stop :
  read_list (f h) h x = Some L ->
  runs (getslice x start stop) h
    (fun v h' => read_list (f h') h' v = Some (slice L start stop)).
Proof.
  intros (l & Hl & HF)%list_items_read.
  unfold getslice. eapply runs_read; [exact Hl|].
  apply runs_list_new. by apply slice_Forall2.
Qed.

Lemma index_Forall2 {B C} (R : B -> C -> Prop) l L i y :
  Forall2 R l L -> index L i = Ok y -> exists x, index l i = Ok x /\ R x y.
Proof.
  intros HF. unfold index. rewrite (Forall2_length _ _ _ HF).
  destruct (_ || _); [done|].
  destruct (L !! _) as [y'|] eqn:Hy; [|done]. intros [= <-].
  destruct (Forall2_lookup_r _ _ _ _ _ HF Hy) as (x & Hx & HR).
  exists x. by rewrite Hx.
Qed.

Lemma getitem_read h v L i y :
  read_list (f h) h v = Some L ->
  index L i = Ok y ->
  exists x, getitem v i h = (Ok x, h) /\ f h x = Some y.
Proof.
  intros (l & Hl & HF)%list_items_read Hi.
  destruct (index_Forall2 _ l L i y HF Hi) as (x & Hx & Hfx).
  exists x. split; [|done].
  unfold getitem, SE.bind, SE.lift. by rewrite Hl, Hx.
Qed.

End Lists.

(** Lists of integers, and lists of such lists. *)

Lemma runs_ints_new h items (L : Utterance) :
  Forall2 (fun x y => as_int x = Some y) items L ->
  runs (list_new items) h (fun v h' => read_utterance h' v = Some L).
Proof. apply (runs_list_new (fun _ => as_int)). auto. Qed.

Lemma runs_ints_add h x y (L1 L2 : Utterance) :
  read_utterance h x = Some L1 ->
  read_utterance h y = Some L2 ->
  runs (list_add x y) h (fun v h' => read_utterance h' v = Some (L1 ++ L2)).
Proof. apply (runs_list_add (fun _ => as_int)). auto. Qed.

Lemma runs_ints_slice h x (L : Utterance) start stop :
  read_utterance h x = Some L ->
  runs (getslice x start stop) h
    (fun v h' => read_utterance h' v = Some (slice L start stop)).
Proof. apply (runs_getslice (fun _ => as_int)). auto. Qed.

Lemma runs_rows_new h items (L : Dialog) :
  Forall2 (fun x y => read_utterance h x = Some y) items L ->
  runs (list_new items) h (fun v h' => read_dialog h' v = Some L).
Proof. apply (runs_list_new read_utterance read_utterance_kept). Qed.

Lemma runs_rows_add h x y (L1 L2 : Dialog) :
  read_dialog h x = Some L1 ->
  read_dialog h y = Some L2 ->
  runs (list_add x y) h (fun v h' => read_dialog h' v = Some (L1 ++ L2)).
Proof. apply (runs_list_add read_utterance read_utterance_kept). Qed.

Lemma runs_rows_slice h x (L : Dialog) start stop :
  read_dialog h x = Some L ->
  runs (getslice x start stop) h
    (fun v h' => read_dialog h' v = Some (slice L start stop)).
Proof. apply (runs_getslice read_utterance read_utterance_kept). Qed.

Lemma rows_getitem h v (L : Dialog) i y :
  read_dialog h v = Some L ->
  index L i = Ok y ->
  exists x, getitem v i h = (Ok x, h) /\ read_utterance h x = Some y.
Proof. apply (getitem_read read_utterance). Qed.

Lemma rows_items h v (L : Dialog) :
  read_dialog h v = Some L ->
  exists l, list_items v h = (Ok l, h) /\
            Forall2 (fun x y => read_utterance h x = Some y) l L.
Proof. apply (list_items_read read_utterance). Qed.

Lemma ints_items h v (L : Utterance) :
  read_utterance h v = Some L ->
  exists l, list_items v h = (Ok l, h) /\
            Forall2 (fun x y => as_int x = Some y) l L.
Proof. apply (list_items_read (fun _ => as_int)). Qed.

Lemma ints_len h v (L : Utterance) :
  read_utterance h v = Some L -> len v h = (Ok (length L), h).
Proof. apply (len_read (fun _ => as_int)). Qed.

(** Facts on the store before a step, moved to the store after it. *)
Ltac carry :=
  repeat match goal with
         | Hg : grows ?h ?h', H : read_utterance ?h _ = Some _ |- _ =>
             apply (read_utterance_kept h h' _ _ (grows_lists_kept _ _ Hg)) in H
         | Hg : grows ?h ?h', H : read_dialog ?h _ = Some _ |- _ =>
             apply (read_dialog_kept h h' _ _ (grows_lists_kept _ _ Hg)) in H
         end.

Ltac name_reads H :=
  cbn beta in H;
  try change (read_list as_int ?h ?v) with (read_utterance h v) in H;
  try change (read_list (read_utterance ?h) ?h ?v) with (read_dialog h v) in H.

Tactic Notation "step" uconstr(lem) "as" ident(v) ident(h') ident(Hv) :=
  eapply runs_bind;
  [ eapply lem; try eassumption
  | let Hg := fresh "Hg" in intros v h' Hg Hv; name_reads Hv; carry ].

Lemma runs_list_mul h x u k :
  read_utterance h x = Some u ->
  runs (list_mul x k) h
    (fun v h' => read_utterance h' v = Some (concat (replicate k u))).
Proof.
  intros (l & Hl & HF)%ints_items.
  unfold list_mul. eapply runs_read; [exact Hl|].
  apply runs_ints_new. apply mapM_Some, mapM_as_int in HF. subst l.
  apply mapM_Some, mapM_as_int.
  induction k as [|k IH]; [done|]. cbn. by rewrite fmap_app, IH.
Qed.

Lemma concat_replicate_singleton {A} k (x : A) :
  concat (replicate k [x]) = replicate k x.
Proof. induction k; cbn; by f_equal. Qed.

Lemma runs_plain_sequence_h sp with_eos h history resposne Hs r :
  read_dialog h history = Some Hs ->
  read_utterance h resposne = Some r ->
  runs (plain_sequence_h sp with_eos history resposne) h
    (fun v h' => read_dialog h' v = Some (plain_sequence sp with_eos Hs r)).
Proof.
  intros HH Hr. unfold plain_sequence_h.
  step (runs_ints_new _ [VInt (bos sp)] [bos sp]) as bos1 h1 Hbos1;
    [by repeat constructor|].
  step (runs_rows_new _ [bos1] [[bos sp]]) as bos2 h2 Hbos2;
    [by repeat constructor|].
  step runs_rows_add as left h3 Hleft.
  step (runs_ints_new _ (if with_eos then [VInt (eos sp)] else [])
          (if with_eos then [eos sp] else [])) as tail h4 Htail;
    [destruct with_eos; by repeat constructor|].
  step runs_ints_add as last_turn h5 Hlast.
  step (runs_rows_new _ [last_turn] [r ++ (if with_eos then [eos sp] else [])])
    as right h6 Hright; [by repeat constructor|].
  eapply runs_conseq; [by eapply runs_rows_add|].
  intros x h' _ Hx. cbn beta in Hx. unfold plain_sequence.
  by rewrite Hx, <- app_assoc.
Qed.

Lemma Forall2_read_kept h h' (l : list val) (L : list Utterance) :
  grows h h' ->
  Forall2 (fun x y => read_utterance h x = Some y) l L ->
  Forall2 (fun x y => read_utterance h' x = Some y) l L.
Proof.
  intros Hg HF. eapply Forall2_impl; [exact HF|].
  intros x y. apply read_utterance_kept. by apply grows_lists_kept.
Qed.

Lemma runs_mark_turns sp turns T :
  forall k h,
    Forall2 (fun x y => read_utterance h x = Some y) turns T ->
    runs (SE.mapM (fun '(i, s) =>
                     m <- list_new [VInt (marker sp i)];;
                     list_add m s)
                  (enumerate_from k turns)) h
      (fun vs h' =>
         Forall2 (fun x y => read_utterance h' x = Some y) vs
           (map (fun '(i, s) => [marker sp i] ++ s) (enumerate_from k T))).
Proof.
  revert T. induction turns as [|t turns IH]; intros T k h HF.
  - apply Forall2_nil_inv_l in HF as ->. apply runs_ret. constructor.
  - apply Forall2_cons_inv_l in HF as (y & T' & Hy & HF & ->).
    cbn [enumerate_from SE.mapM map].
    eapply runs_bind.
    { step (runs_ints_new _ [VInt (marker sp k)] [marker sp k]) as m h1 Hm;
        [by repeat constructor|].
      by eapply runs_ints_add. }
    intros v h1 Hg1 Hv. cbn beta in Hv.
    eapply runs_bind; [apply (IH T' (S k) h1); by eapply Forall2_read_kept|].
    intros vs h2 Hg2 Hvs. apply runs_ret.
    constructor; [|done].
    eapply read_utterance_kept; [by apply grows_lists_kept|done].
Qed.

Lemma runs_marked_sequence_h sp h sequence S S' :
  read_dialog h sequence = Some S ->
  marked_sequence sp S = Ok S' ->
  runs (marked_sequence_h sp sequence) h
    (fun v h' => read_dialog h' v = Some S').
Proof.
  intros HS Hm. unfold marked_sequence in Hm.
  destruct (index S 0) as [first|e] eqn:Hfirst; [|done]. cbn in Hm.
  injection Hm as <-. unfold marked_sequence_h.
  destruct (rows_getitem h sequence S 0 first HS Hfirst) as (v0 & Hget & Hv0).
  eapply runs_read; [exact Hget|].
  step (runs_rows_new _ [v0] [first]) as left h1 Hleft; [by repeat constructor|].
  step runs_rows_slice as rest h2 Hrest.
  destruct (rows_items h2 rest _ Hrest) as (turns & Hturns & HF).
  eapply runs_read; [exact Hturns|].
  eapply runs_bind; [by apply runs_mark_turns|].
  intros marked h3 Hg3 Hmarked. carry.
  step (runs_rows_new _ marked) as right h4 Hright; [exact Hmarked|].
  eapply runs_conseq; [by eapply runs_rows_add|].
  intros x h' _ Hx. exact Hx.
Qed.

Lemma mapM_list_items_read h turns T :
  Forall2 (fun x y => read_utterance h x = Some y) turns T ->
  exists parts,
    SE.mapM list_items turns h = (Ok parts, h) /\
    parts = map (fmap VInt) T.
Proof.
  induction 1 as [|x y turns T Hx _ (parts & Hp & ->)].
  - by exists [].
  - destruct (ints_items h x y Hx) as (l & Hl & HF).
    apply mapM_Some, mapM_as_int in HF. subst l.
    eexists. split; [|reflexivity].
    cbn [SE.mapM]. unfold SE.bind. by rewrite Hl, Hp.
Qed.

Lemma runs_input_ids_h h sequence S :
  read_dialog h sequence = Some S ->
  runs (input_ids_h sequence) h
    (fun v h' => read_utterance h' v = Some (chain S)).
Proof.
  intros HS. unfold input_ids_h.
  destruct (rows_items h sequence S HS) as (turns & Hturns & HF).
  eapply runs_read; [exact Hturns|].
  destruct (mapM_list_items_read h turns S HF) as (parts & Hp & ->).
  eapply runs_read; [exact Hp|].
  apply runs_ints_new. unfold chain.
  apply mapM_Some, mapM_as_int.
  clear. induction S as [|s S' IH]; [done|]. cbn. by rewrite fmap_app, IH.
Qed.

Lemma mapM_type_parts_read sp h turns T :
  forall k,
    Forall2 (fun x y => read_utterance h x = Some y) turns T ->
    exists parts,
      SE.mapM (fun '(i, s) =>
                 l <- list_items s;;
                 SE.ret (map (fun _ => VInt (marker sp i)) l))
              (enumerate_from k turns) h = (Ok parts, h) /\
      concat parts =
      VInt <$> flat_map (fun '(i, s) => map (fun _ => marker sp i) s)
                        (enumerate_from k T).
Proof.
  intros k HF. revert k.
  induction HF as [|x y turns T Hx _ IH]; intros k.
  - by exists [].
  - destruct (ints_items h x y Hx) as (l & Hl & HFl).
    apply mapM_Some, mapM_as_int in HFl. subst l.
    destruct (IH (S k)) as (parts & Hp & Hc).
    eexists. split.
    { cbn [enumerate_from SE.mapM].
      rewrite (bind_ok _ _ _ _ _ (bind_ok _ _ _ _ _ Hl)).
      unfold SE.ret at 1. by rewrite (bind_ok _ _ _ _ _ Hp). }
    cbn [concat enumerate_from flat_map]. rewrite Hc, fmap_app. f_equal.
    clear. induction y; cbn; by f_equal.
Qed.

Lemma runs_type_ids_h sp h sequence S :
  read_dialog h sequence = Some S ->
  runs (type_ids_h sp sequence) h
    (fun v h' => read_utterance h' v = Some (type_ids sp S)).
Proof.
  intros HS. unfold type_ids_h.
  step (runs_ints_new _ [VInt (bos sp)] [bos sp]) as left h1 Hleft;
    [by repeat constructor|].
  step runs_rows_slice as rest h2 Hrest.
  destruct (rows_items h2 rest _ Hrest) as (turns & Hturns & HF).
  eapply runs_read; [exact Hturns|].
  destruct (mapM_type_parts_read sp h2 turns _ 0 HF) as (parts & Hp & Hc).
  eapply runs_read; [exact Hp|].
  step (runs_ints_new _ (concat parts)) as right h3 Hright.
  { rewrite Hc. apply mapM_Some, mapM_as_int. reflexivity. }
  eapply runs_conseq; [by eapply runs_ints_add|].
  intros x h' _ Hx. exact Hx.
Qed.

Lemma mapM_len_read h turns T :
  Forall2 (fun x y => read_utterance h x = Some y) turns T ->
  SE.mapM len turns h = (Ok (map length T), h).
Proof.
  induction 1 as [|x y turns T Hx _ IH]; [done|].
  cbn [SE.mapM]. unfold SE.bind. by rewrite (ints_len h x y Hx), IH.
Qed.

Lemma runs_masked_labels_h h sequence S labels :
  read_dialog h sequence = Some S ->
  masked_labels S = Ok labels ->
  runs (masked_labels_h sequence) h
    (fun v h' => read_utterance h' v = Some labels).
Proof.
  intros HS Hm. unfold masked_labels in Hm.
  destruct (index S (-1)) as [last_turn|e] eqn:Hlast; [|done]. cbn in Hm.
  injection Hm as <-. unfold masked_labels_h.
  step (runs_ints_new _ [VInt (-1)%Z] [(-1)%Z]) as minus1 h1 Hminus1;
    [by repeat constructor|].
  step runs_rows_slice as before h2 Hbefore.
  destruct (rows_items h2 before _ Hbefore) as (turns & Hturns & HF).
  eapply runs_read; [exact Hturns|].
  eapply runs_read; [by apply mapM_len_read|].
  step runs_list_mul as left h3 Hleft.
  step (runs_ints_new _ [VInt (-1)%Z] [(-1)%Z]) as mid h4 Hmid;
    [by repeat constructor|].
  step runs_ints_add as left' h5 Hleft'.
  destruct (rows_getitem h5 sequence S (-1) last_turn HS Hlast) as (vl & Hget & Hvl).
  eapply runs_read; [exact Hget|].
  step runs_ints_slice as right h6 Hright.
  eapply runs_conseq; [by eapply runs_ints_add|].
  intros x h' _ Hx. cbn beta in Hx. rewrite Hx.
  unfold times. by rewrite concat_replicate_singleton, <- app_assoc.
Qed.

(** *** One instance *)

Lemma dict_setitem_ok {B} c d k v (K : unit -> H B) h :
  h !! c = Some (ODict d) ->
  SE.bind (dict_setitem (VRef c) k v) K h =
  K tt (<[c := ODict (Loader.dict_set d k v)]> h).
Proof.
  intros Hc. unfold dict_setitem, SE.bind, deref, store. by rewrite Hc.
Qed.

Lemma dict_getitem_ok c d k v h :
  h !! c = Some (ODict d) -> assoc d k = Some v ->
  dict_getitem (VRef c) k h = (Ok v, h).
Proof.
  intros Hc Hk. unfold dict_getitem, dict_entries, SE.bind, deref.
  rewrite Hc. cbn. by rewrite Hk.
Qed.

Lemma assert_lengths_ok c x y z h (a b l : Utterance) :
  h !! c = Some (ODict [("input_ids"%string, x);
                        ("token_type_ids"%string, y);
                        ("lm_labels"%string, z)]) ->
  read_utterance h x = Some a ->
  read_utterance h y = Some b ->
  read_utterance h z = Some l ->
  length a = length b -> length b = length l ->
  assert_lengths (VRef c) h = (Ok tt, h).
Proof.
  intros Hc Hx Hy Hz Hab Hbl. unfold assert_lengths.
  rewrite (bind_ok _ _ _ _ _ (dict_getitem_ok c _ "input_ids" x h Hc eq_refl)).
  rewrite (bind_ok _ _ _ _ _ (ints_len h x a Hx)).
  rewrite (bind_ok _ _ _ _ _ (dict_getitem_ok c _ "token_type_ids" y h Hc eq_refl)).
  rewrite (bind_ok _ _ _ _ _ (ints_len h y b Hy)).
  rewrite Hab, Nat.eqb_refl. cbn [negb].
  rewrite (bind_ok _ _ _ _ _ (dict_getitem_ok c _ "lm_labels" z h Hc eq_refl)).
  rewrite (bind_ok _ _ _ _ _ (ints_len h z l Hz)).
  by rewrite Hbl, Nat.eqb_refl.
Qed.

Lemma read_utterance_ref h v u :
  read_utterance h v = Some u ->
  exists x, v = VRef x /\ h !! x = Some (OList (VInt <$> u)).
Proof.
  intros (x & l & -> & Hx & HF)%(read_list_inv (fun _ => as_int)).
  apply mapM_Some, mapM_as_int in HF. subst l. eauto.
Qed.

(** What a creating step yields is a new object. *)
Lemma runs_fresh {A} n (m : H A) h (Q : A -> heap -> Prop) (F : A -> Prop) :
  runs m h Q -> keeps n m F -> n <= length h ->
  exists x h', m h = (Ok x, h') /\ grows h h' /\ Q x h' /\ F x /\ n <= length h'.
Proof.
  intros (x & h' & Hm & Hg & HQ) Hk Hn. exists x, h'.
  destruct (Hk h Hn) as [_ HF]. rewrite Hm in HF.
  repeat split; try done; [by apply HF|].
  apply grows_length in Hg. lia.
Qed.

(** An assignment to an entry of the dictionary at [c]: the facts on the
    store before it are moved to the store after it. *)
Tactic Notation "assign" constr(Hc) constr(k) constr(v) "as"
    ident(hn) ident(Hcn) ident(Ln) :=
  match type of Hc with
  | ?h !! ?c = Some (ODict ?d) =>
      rewrite (dict_setitem_ok c d k v _ h Hc);
      repeat match goal with
             | H : read_utterance h _ = Some _ |- _ =>
                 apply (read_utterance_kept h _ _ _
                          (lists_kept_store_dict h c d
                             (Loader.dict_set d k v) Hc)) in H
             | H : read_dialog h _ = Some _ |- _ =>
                 apply (read_dialog_kept h _ _ _
                          (lists_kept_store_dict h c d
                             (Loader.dict_set d k v) Hc)) in H
             end;
      assert (Hcn : <[c := ODict (Loader.dict_set d k v)]> h !! c =
                    Some (ODict (Loader.dict_set d k v)))
        by (apply list_lookup_insert_eq; by eapply lookup_lt_Some);
      pose proof (length_insert h c (ODict (Loader.dict_set d k v))) as Ln;
      clear Hc;
      set (hn := <[c := ODict (Loader.dict_set d k v)]> h) in *;
      let e := eval vm_compute in (Loader.dict_set d k v) in
      change (Loader.dict_set d k v) with e in Hcn
  end.

Tactic Notation "run" constr(lem) "with" constr(kp) "as"
    ident(v) ident(h') ident(Hv) ident(Hfr) :=
  let E := fresh "E" in let G := fresh "G" in let L := fresh "L" in
  destruct (runs_fresh _ _ _ _ _ lem kp ltac:(lia))
    as (v & h' & E & G & Hv & Hfr & L);
  rewrite (bind_ok _ _ _ _ _ E); clear E;
  name_reads Hv; carry;
  repeat match goal with
         | Hg : grows ?h h', H : ?h !! _ = Some (ODict _) |- _ =>
             apply Hg in H
         end;
  clear G.

Lemma build_instance_h_spec args sp with_eos lm_labels_flag h dialog D inst :
  read_dialog h dialog = Some D ->
  build_instance args sp with_eos lm_labels_flag D = Ok inst ->
  exists v h',
    build_instance_h args sp with_eos lm_labels_flag dialog h = (Ok v, h') /\
    instance_at (length h) [] h' v inst.
Proof.
  intros HD Hb. unfold build_instance in Hb.
  destruct (response_of D) as [r|e] eqn:Hr; [|done]. cbn [bind] in Hb.
  unfold instance_of_turns in Hb.
  destruct (marked_sequence sp _) as [S'|e] eqn:HS'; [|done]. cbn [bind] in Hb.
  destruct (if lm_labels_flag then _ else _) as [labels|e] eqn:Hlab; [|done].
  cbn [bind] in Hb.
  destruct (_ && _) eqn:Hchk; [|done]. injection Hb as <-.
  apply andb_prop in Hchk as [Hl1 Hl2]. apply Nat.eqb_eq in Hl1, Hl2.
  set (n := length h). assert (Hn : n <= length h) by done.
  unfold build_instance_h.
  run (runs_rows_slice h dialog D (Some (-2 * max_history args)%Z) (Some (-1)%Z) HD)
    with (keeps_getslice n dialog (Some (-2 * max_history args)%Z) (Some (-1)%Z))
    as history h1 Hhist Fhist.
  destruct (rows_getitem h1 dialog D (-1) r HD Hr) as (resposne & Eget & Hresp).
  rewrite (bind_ok _ _ _ _ _ Eget). clear Eget.
  run (runs_plain_sequence_h sp with_eos h1 history resposne _ _ Hhist Hresp)
    with (keeps_plain_sequence_h n sp with_eos history resposne)
    as seq0 h2 Hseq0 Fseq0.
  run (runs_marked_sequence_h sp h2 seq0 _ S' Hseq0 HS')
    with (keeps_marked_sequence_h n sp seq0)
    as seq h3 Hseq Fseq.
  (* instance = {} *)
  unfold dict_new at 1, alloc at 1. unfold SE.bind at 1.
  set (c := length h3).
  assert (Hc : (h3 ++ [ODict []]) !! c = Some (ODict []))
    by (by apply list_lookup_middle).
  assert (Hg4 : grows h3 (h3 ++ [ODict []])) by apply grows_alloc.
  assert (L4 : n <= length (h3 ++ [ODict []])) by (rewrite length_app; lia).
  carry. clear Hg4. set (h4 := h3 ++ [ODict []]) in *.
  (* input_ids *)
  run (runs_input_ids_h h4 seq S' Hseq) with (keeps_input_ids_h n seq)
    as ids h5 Hids Fids.
  assign Hc "input_ids"%string ids as h6 Hc6 L6.
  (* token_type_ids *)
  run (runs_type_ids_h sp h6 seq S' Hseq) with (keeps_type_ids_h n sp seq)
    as types h7 Htypes Ftypes.
  assign Hc6 "token_type_ids"%string types as h8 Hc8 L8.
  (* lm_labels, all ignored *)
  run (runs_ints_new h8 [VInt (-1)%Z] [(-1)%Z] ltac:(by repeat constructor))
    with (keeps_list_new n [VInt (-1)%Z]) as minus1 h9 Hminus1 Fminus1.
  rewrite (bind_ok _ _ _ _ _ (dict_getitem_ok c _ "input_ids" ids h9 Hc8 eq_refl)).
  rewrite (bind_ok _ _ _ _ _ (ints_len h9 ids _ Hids)).
  run (runs_list_mul h9 minus1 _ (length (chain S')) Hminus1)
    with (keeps_list_mul n minus1 (length (chain S')))
    as labels0 h10 Hlabels0 Flabels0.
  rewrite concat_replicate_singleton in Hlabels0.
  assign Hc8 "lm_labels"%string labels0 as h11 Hc11 L11.
  assert (Hcn : n <= c) by (subst c n; lia).
  destruct lm_labels_flag.
  - (* lm_labels, with the last turn *)
    lazy beta iota. rewrite bind_assoc.
    run (runs_masked_labels_h h11 seq S' labels Hseq Hlab)
      with (keeps_masked_labels_h n seq) as labels1 h12 Hlabels1 Flabels1.
    assign Hc11 "lm_labels"%string labels1 as h13 Hc13 L13.
    rewrite (bind_ok _ _ _ _ _
               (assert_lengths_ok c ids types labels1 h13 _ _ _
                  Hc13 Hids Htypes Hlabels1 Hl1 Hl2)).
    destruct (read_utterance_ref _ _ _ Hids) as (x & -> & Hx).
    destruct (read_utterance_ref _ _ _ Htypes) as (y & -> & Hy).
    destruct (read_utterance_ref _ _ _ Hlabels1) as (z & -> & Hz).
    eexists _, _. split; [reflexivity|].
    exists c, x, y, z. cbn in Fids, Ftypes, Flabels1.
    repeat split; try done; apply not_elem_of_nil.
  - injection Hlab as <-. lazy beta iota.
    unfold SE.ret at 1. unfold SE.bind at 1.
    rewrite (bind_ok _ _ _ _ _
               (assert_lengths_ok c ids types labels0 h11 _ _ _
                  Hc11 Hids Htypes Hlabels0 Hl1 Hl2)).
    destruct (read_utterance_ref _ _ _ Hids) as (x & -> & Hx).
    destruct (read_utterance_ref _ _ _ Htypes) as (y & -> & Hy).
    destruct (read_utterance_ref _ _ _ Hlabels0) as (z & -> & Hz).
    eexists _, _. split; [reflexivity|].
    exists c, x, y, z. cbn in Fids, Ftypes, Flabels0.
    repeat split; try done; apply not_elem_of_nil.
Qed.

End Runs.

(** ** The store: the loops *)

Section StoreLoops.
Import HeapModel.
Local Open Scope nat_scope.
Local Open Scope se_scope.

Lemma instance_at_valid n bs h v inst :
  instance_at n bs h v inst ->
  exists c x y z, v = VRef c /\ c < length h /\ x < length h /\
                  y < length h /\ z < length h /\
                  h !! c = Some (ODict [("input_ids"%string, VRef x);
                                        ("token_type_ids"%string, VRef y);
                                        ("lm_labels"%string, VRef z)]).
Proof.
  intros (c & x & y & z & -> & Hc & Hx & Hy & Hz & _).
  exists c, x, y, z. repeat split; try done; by eapply lookup_lt_Some.
Qed.

Lemma instance_at_grows n bs h h' v inst :
  grows h h' -> instance_at n bs h v inst -> instance_at n bs h' v inst.
Proof.
  intros Hg (c & x & y & z & -> & Hc & Hx & Hy & Hz & Hrest).
  exists c, x, y, z. repeat split; try apply Hg; try done; apply Hrest.
Qed.

(** An instance made of objects created at or after [m] is one made of
    objects created at or after [n <= m], and apart from any objects
    created before [m]. *)
Lemma instance_at_weaken n m bs h v inst :
  n <= m -> (forall b, b ∈ bs -> b < m) ->
  instance_at m [] h v inst -> instance_at n bs h v inst.
Proof.
  intros Hnm Hbs (c & x & y & z & -> & Hc & Hx & Hy & Hz & Lc & Lx & Ly & Lz & _).
  exists c, x, y, z.
  repeat split; try done; try lia; intros Hin; apply Hbs in Hin; lia.
Qed.

Lemma instance_at_more n bs b h v inst :
  length h <= b ->
  instance_at n bs h v inst -> instance_at n (bs ++ [b]) h v inst.
Proof.
  intros Hb Hi. destruct (instance_at_valid _ _ _ _ _ Hi)
    as (c' & x' & y' & z' & Hv & _ & Lx' & Ly' & Lz' & Hc').
  destruct Hi as (c & x & y & z & -> & Hc & Hx & Hy & Hz & Lc & Lx & Ly & Lz
                  & Nx & Ny & Nz).
  injection Hv as <-. rewrite Hc in Hc'. injection Hc' as <- <- <-.
  exists c, x, y, z. repeat split; try done;
    rewrite elem_of_app, list_elem_of_singleton; intros [Hin | ->]; try done; lia.
Qed.

Lemma instance_at_store_below n bs h a o v inst :
  a < n ->
  instance_at n bs h v inst -> instance_at n bs (<[a := o]> h) v inst.
Proof.
  intros Ha (c & x & y & z & -> & Hc & Hx & Hy & Hz & Lc & Lx & Ly & Lz & Hrest).
  exists c, x, y, z.
  repeat split; try done; try (rewrite list_lookup_insert_ne by lia; done);
    apply Hrest.
Qed.

Lemma instance_at_store_list n bs h b l l' v inst :
  b ∈ bs -> h !! b = Some (OList l) ->
  instance_at n bs h v inst -> instance_at n bs (<[b := OList l']> h) v inst.
Proof.
  intros Hb Hl (c & x & y & z & -> & Hc & Hx & Hy & Hz & Lc & Lx & Ly & Lz
                & Nx & Ny & Nz).
  exists c, x, y, z.
  repeat split; try done; rewrite list_lookup_insert_ne; try done; congruence.
Qed.

(** The key [name] in the result so far: absent, or bound at some index. *)
Lemma defaultdict_cases (out : list (string * list Instance)) :
  forall (bs : list addr) name inst v,
    length bs = length out ->
    (assoc (zip (out.*1) (VRef <$> bs)) name = None /\
     defaultdict_append out name inst = out ++ [(name, [inst])] /\
     Loader.dict_set (zip (out.*1) (VRef <$> bs)) name v =
       zip (out.*1) (VRef <$> bs) ++ [(name, v)]) \/
    (exists i b insts,
       bs !! i = Some b /\ out !! i = Some (name, insts) /\
       assoc (zip (out.*1) (VRef <$> bs)) name = Some (VRef b) /\
       defaultdict_append out name inst = <[i := (name, insts ++ [inst])]> out).
Proof.
  induction out as [|[k insts] out IH]; intros bs name inst v Hlen.
  - left. destruct bs; done.
  - destruct bs as [|b bs]; [done|]. cbn in Hlen.
    cbn [fmap list_fmap zip zip_with assoc defaultdict_append Loader.dict_set fst].
    destruct (String.eqb_spec k name) as [->|Hne].
    + right. exists 0, b, insts. done.
    + assert (Hl : length bs = length out) by lia.
      destruct (IH bs name inst v Hl)
        as [(Ha & Hd & Hs)|(i & b' & insts' & Hb & Ho & Ha & Hd)].
      * left. rewrite Ha, Hd. split; [done|]. split; [done|].
        change (zip_with pair (out.*1) (VRef <$> bs)) with (zip (out.*1) (VRef <$> bs)).
        by rewrite Hs.
      * right. exists (S i), b', insts'. rewrite Ha, Hd. done.
Qed.

Lemma datasets_repr_grows n h h' a out :
  grows h h' -> datasets_repr n h a out -> datasets_repr n h' a out.
Proof.
  intros Hg (bs & Ha & Hlen & Hnd & Hna & Hall).
  exists bs. split; [by apply Hg|]. do 3 (split; [done|]).
  intros i b kv Hb Hkv. destruct (Hall i b kv Hb Hkv) as (Lb & vals & Hvals & HF).
  split; [done|]. exists vals. split; [by apply Hg|].
  eapply Forall2_impl; [exact HF|]. intros x y. by apply instance_at_grows.
Qed.

Lemma datasets_repr_bound n h a out :
  datasets_repr n h a out -> a < length h.
Proof. intros (bs & Ha & _). by eapply lookup_lt_Some. Qed.

Lemma defaultdict_getitem_hit a ents name v h :
  h !! a = Some (ODict ents) -> assoc ents name = Some v ->
  defaultdict_getitem (VRef a) name h = (Ok v, h).
Proof.
  intros Ha Hv. unfold defaultdict_getitem, dict_entries, SE.bind, deref.
  rewrite Ha. cbn. by rewrite Hv.
Qed.

Lemma defaultdict_getitem_miss a ents name h :
  h !! a = Some (ODict ents) -> assoc ents name = None ->
  defaultdict_getitem (VRef a) name h =
  (Ok (VRef (length h)),
   <[a := ODict (Loader.dict_set ents name (VRef (length h)))]> (h ++ [OList []])).
Proof.
  intros Ha Hv. unfold defaultdict_getitem, dict_entries, SE.bind, deref.
  rewrite Ha. cbn. rewrite Hv. cbn.
  unfold dict_setitem, SE.bind, deref.
  rewrite lookup_app_l by (by eapply lookup_lt_Some). by rewrite Ha.
Qed.

Lemma list_append_ok b l v h :
  h !! b = Some (OList l) ->
  list_append (VRef b) v h = (Ok tt, <[b := OList (l ++ [v])]> h).
Proof.
  intros Hb. unfold list_append, SE.bind, deref. by rewrite Hb.
Qed.

(** One turn of the inner loop, on a dialogue that gives an instance. *)
Lemma dialog_step_spec n a args sp with_eos lm_labels_flag name h dialog D inst out :
  datasets_repr n h a out ->
  read_dialog h dialog = Some D ->
  build_instance args sp with_eos lm_labels_flag D = Ok inst ->
  exists h',
    dialog_step args sp with_eos lm_labels_flag (VRef a) name dialog h = (Ok tt, h') /\
    datasets_repr n h' a (defaultdict_append out name inst).
Proof.
  intros Hrep HD Hbuild.
  pose proof (datasets_repr_bound _ _ _ _ Hrep) as La.
  destruct (build_instance_h_spec args sp with_eos lm_labels_flag h dialog D inst
              HD Hbuild) as (v & h1 & E1 & Hinst).
  destruct (keeps_build_instance_h (length h) args sp with_eos lm_labels_flag
              dialog h (le_n _)) as [Hf1 _].
  rewrite E1 in Hf1. cbn in Hf1. apply frame_grows in Hf1.
  pose proof (grows_length _ _ Hf1) as L1.
  destruct Hrep as (bs & Ha & Hlen & Hnd & Hna & Hall).
  assert (Hbs : forall b, b ∈ bs -> b < length h).
  { intros b (i & Hi)%list_elem_of_lookup_1.
    destruct (lookup_lt_is_Some_2 out i) as [kv Hkv];
      [rewrite <- Hlen; by eapply lookup_lt_Some|].
    destruct (Hall i b kv Hi Hkv) as (_ & vals & Hvals & _).
    by eapply lookup_lt_Some. }
  assert (Hnew : instance_at (S a) bs h1 v inst)
    by (eapply instance_at_weaken; [|exact Hbs|exact Hinst]; lia).
  assert (Hall1 : forall i b kv,
            bs !! i = Some b -> out !! i = Some kv ->
            a < b /\ exists vals, h1 !! b = Some (OList vals) /\
                       Forall2 (instance_at (S a) bs h1) vals kv.2).
  { intros i b kv Hb Hkv. destruct (Hall i b kv Hb Hkv) as (Lb & vals & Hvals & HF).
    split; [done|]. exists vals. split; [by apply Hf1|].
    eapply Forall2_impl; [exact HF|]. intros x y. by apply instance_at_grows. }
  apply Hf1 in Ha. clear Hall Hinst.
  unfold dialog_step. rewrite (bind_ok _ _ _ _ _ E1).
  destruct (defaultdict_cases out bs name inst (VRef (length h1)) Hlen)
    as [(Has & Hd & Hs)|(i & b & insts & Hb & Ho & Has & Hd)].
  - (* a new key *)
    rewrite (bind_ok _ _ _ _ _ (defaultdict_getitem_miss a _ name h1 Ha Has)).
    rewrite Hs, Hd.
    set (b := length h1).
    set (h2 := h1 ++ [OList []]).
    set (h3 := <[a := ODict (zip (out.*1) (VRef <$> bs) ++ [(name, VRef b)])]> h2).
    assert (Hb3 : h3 !! b = Some (OList [])).
    { unfold h3. rewrite list_lookup_insert_ne by (subst b; lia).
      by apply list_lookup_middle. }
    rewrite (list_append_ok b [] v h3 Hb3). cbn [app].
    eexists. split; [reflexivity|].
    assert (Hmove : forall x y, instance_at (S a) bs h1 x y ->
              instance_at (S a) (bs ++ [b]) (<[b := OList [v]]> h3) x y).
    { intros x y Hxy.
      eapply instance_at_store_list;
        [apply elem_of_app; right; by apply list_elem_of_singleton|exact Hb3|].
      apply instance_at_store_below; [lia|].
      eapply instance_at_grows; [apply grows_alloc|].
      apply instance_at_more; [subst b; lia|done]. }
    exists (bs ++ [b]). split.
    { rewrite list_lookup_insert_ne by (subst b; lia).
      unfold h3. rewrite list_lookup_insert_eq
        by (unfold h2; rewrite length_app; lia).
      do 2 f_equal. rewrite !fmap_app. cbn.
      rewrite zip_with_app; [done|]. by rewrite !length_fmap. }
    split; [rewrite !length_app; cbn; lia|].
    split.
    { apply NoDup_app. split; [done|]. split; [|apply NoDup_singleton].
      intros x Hx ->%list_elem_of_singleton. apply Hbs in Hx. subst b. lia. }
    split; [done|].
    intros j b' kv Hb' Hkv.
    destruct (decide (j < length bs)) as [Hj|Hj].
    + rewrite lookup_app_l in Hb' by done.
      rewrite lookup_app_l in Hkv by lia.
      destruct (Hall1 j b' kv Hb' Hkv) as (Lb & vals & Hvals & HF).
      split; [done|]. exists vals. split.
      * assert (b' < length h1) by (by eapply lookup_lt_Some).
        rewrite list_lookup_insert_ne by (subst b; lia).
        unfold h3. rewrite list_lookup_insert_ne by lia.
        unfold h2. by rewrite lookup_app_l.
      * eapply Forall2_impl; [exact HF|]. exact Hmove.
    + assert (j = length bs) as ->.
      { apply lookup_lt_Some in Hb'. rewrite length_app in Hb'. cbn in Hb'. lia. }
      rewrite list_lookup_middle in Hb' by done. injection Hb' as <-.
      rewrite list_lookup_middle in Hkv by done. injection Hkv as <-.
      split; [subst b; lia|]. exists [v]. split.
      * apply list_lookup_insert_eq. by eapply lookup_lt_Some.
      * constructor; [by apply Hmove|constructor].
  - (* a key that is there *)
    rewrite (bind_ok _ _ _ _ _ (defaultdict_getitem_hit a _ name (VRef b) h1 Ha Has)).
    destruct (Hall1 i b _ Hb Ho) as (Lb & vals & Hvals & HF). cbn [snd] in HF.
    rewrite (list_append_ok b vals v h1 Hvals), Hd.
    eexists. split; [reflexivity|].
    assert (Hbin : b ∈ bs) by (by eapply list_elem_of_lookup_2).
    assert (Hmove : forall x y, instance_at (S a) bs h1 x y ->
              instance_at (S a) bs (<[b := OList (vals ++ [v])]> h1) x y).
    { intros x y. by apply instance_at_store_list with (l := vals). }
    exists bs. split.
    { rewrite list_lookup_insert_ne by lia. rewrite Ha. do 3 f_equal.
      rewrite list_fmap_insert. cbn [fst]. symmetry. apply list_insert_id.
      by rewrite list_lookup_fmap, Ho. }
    split; [by rewrite length_insert|]. split; [done|]. split; [done|].
    intros j b' kv Hb' Hkv.
    destruct (decide (j = i)) as [->|Hji].
    + assert (b' = b) as -> by congruence.
      rewrite list_lookup_insert_eq in Hkv by (by eapply lookup_lt_Some).
      injection Hkv as <-. split; [done|].
      exists (vals ++ [v]). split.
      * apply list_lookup_insert_eq. by eapply lookup_lt_Some.
      * cbn [snd]. apply Forall2_app.
        -- eapply Forall2_impl; [exact HF|]. exact Hmove.
        -- constructor; [by apply Hmove|constructor].
    + rewrite list_lookup_insert_ne in Hkv by done.
      destruct (Hall1 j b' kv Hb' Hkv) as (Lb' & vals' & Hvals' & HF').
      split; [done|]. exists vals'. split.
      * rewrite list_lookup_insert_ne; [done|].
        intros ->. apply Hji. by eapply NoDup_lookup.
      * eapply Forall2_impl; [exact HF'|]. exact Hmove.
Qed.

Lemma datasets_repr_at n h a out : datasets_repr n h a out -> datasets_at a h.
Proof.
  intros (bs & Ha & Hlen & Hnd & Hna & Hall).
  eexists. split; [exact Ha|].
  apply Forall_forall. intros [k v] (i & Hi)%list_elem_of_lookup_1.
  apply lookup_zip_with_Some in Hi as (k' & v' & [= <- <-] & Hk & Hv).
  apply list_lookup_fmap_Some in Hv as (b & -> & Hb).
  apply list_lookup_fmap_Some in Hk as (kv & _ & Hkv).
  destruct (Hall i b kv Hb Hkv) as [Lb _]. by exists b.
Qed.

Lemma grows_frame h0 h h' :
  grows h0 h -> frame (length h0) h h' -> grows h0 h'.
Proof.
  intros Hg [_ E] a o Ha. rewrite E; [by apply Hg|]. by eapply lookup_lt_Some.
Qed.

Section Iteration.
Variables (args : Args) (sp : Special) (with_eos lm_labels_flag : bool).
Variables (h0 : heap) (a : addr).
Hypothesis Hna : length h0 <= a.

Lemma for_list_spec name dataset (Ds : list Dialog) :
  read_split h0 dataset = Some Ds ->
  forall fuel i h out out',
    grows h0 h ->
    datasets_repr (length h0) h a out ->
    process_dialogs args sp with_eos lm_labels_flag name (drop i Ds) out = Ok out' ->
    length Ds - i < fuel ->
    exists h',
      for_list_from fuel dataset i
        (dialog_step args sp with_eos lm_labels_flag (VRef a) name) h = (Ok tt, h') /\
      grows h0 h' /\
      datasets_repr (length h0) h' a out'.
Proof.
  intros HDs fuel. induction fuel as [|fuel IH]; intros i h out out' Hg Hrep Hp Hfuel;
    [lia|].
  cbn [for_list_from].
  pose proof (read_split_kept _ _ _ _ (grows_lists_kept _ _ Hg) HDs) as HDs'.
  destruct (list_items_read read_dialog h dataset Ds HDs') as (l & Hl & HF).
  rewrite (bind_ok _ _ _ _ _ Hl).
  destruct (l !! i) as [x|] eqn:Hx.
  - destruct (Forall2_lookup_l _ _ _ _ _ HF Hx) as (D & HD & Hread).
    rewrite (drop_S _ _ _ HD) in Hp. cbn [process_dialogs] in Hp.
    destruct (build_instance args sp with_eos lm_labels_flag D) as [inst|e] eqn:Hb;
      [|done].
    cbn [bind] in Hp.
    destruct (dialog_step_spec (length h0) a args sp with_eos lm_labels_flag name
                h x D inst out Hrep Hread Hb) as (h1 & E1 & Hrep1).
    destruct (steady_dialog_step (length h0) a Hna args sp with_eos lm_labels_flag
                name x h (datasets_repr_at _ _ _ _ Hrep)) as (Hf & _ & _).
    rewrite E1 in Hf. cbn in Hf.
    rewrite (bind_ok _ _ _ _ _ E1).
    pose proof (lookup_lt_Some _ _ _ HD).
    eapply (IH (S i) h1); [by eapply grows_frame|exact Hrep1|exact Hp|lia].
  - apply lookup_ge_None in Hx. rewrite (Forall2_length _ _ _ HF) in Hx.
    rewrite drop_ge in Hp by done. injection Hp as <-.
    exists h. done.
Qed.

Lemma for_items_spec fuel0 data (Dt : RawDataset) :
  read_data h0 data = Some Dt ->
  (forall name Ds, (name, Ds) ∈ Dt -> length Ds < fuel0) ->
  forall fuel i h out out',
    grows h0 h ->
    datasets_repr (length h0) h a out ->
    process_splits args sp with_eos lm_labels_flag (drop i Dt) out = Ok out' ->
    length Dt - i < fuel ->
    exists h',
      for_items_from fuel data (length Dt) i
        (fun dataset_name dataset =>
           for_list fuel0 dataset
             (dialog_step args sp with_eos lm_labels_flag (VRef a) dataset_name))
        h = (Ok tt, h') /\
      grows h0 h' /\
      datasets_repr (length h0) h' a out'.
Proof.
  intros HDt Hfuel0 fuel.
  assert (Hents : exists dd ents,
            data = VRef dd /\ h0 !! dd = Some (ODict ents) /\
            Forall2 (fun kx kS => kx.1 = kS.1 /\
                       read_split h0 kx.2 = Some kS.2) ents Dt).
  { unfold read_data, read_dict in HDt. destruct data as [z|dd]; [done|].
    destruct (h0 !! dd) as [[l|ents]|] eqn:Hdd; try done.
    exists dd, ents. split; [done|]. split; [done|].
    apply mapM_Some in HDt. eapply Forall2_impl; [exact HDt|].
    intros [k x] [k' S]. cbn.
    destruct (read_split h0 x); [|done]. cbn. by intros [= <- <-]. }
  destruct Hents as (dd & ents & -> & Hdd & HF).
  induction fuel as [|fuel IH]; intros i h out out' Hg Hrep Hp Hfuel; [lia|].
  cbn [for_items_from].
  assert (Hent : dict_entries (VRef dd) h = (Ok ents, h)).
  { unfold dict_entries, SE.bind, deref. by rewrite (Hg _ _ Hdd). }
  rewrite (bind_ok _ _ _ _ _ Hent).
  rewrite (Forall2_length _ _ _ HF), Nat.eqb_refl. cbn [negb].
  destruct (ents !! i) as [[k x]|] eqn:Hx.
  - destruct (Forall2_lookup_l _ _ _ _ _ HF Hx) as ([k' Ds] & HD & Hk & Hread).
    cbn in Hk, Hread. subst k'.
    rewrite (drop_S _ _ _ HD) in Hp. cbn [process_splits] in Hp.
    destruct (process_dialogs args sp with_eos lm_labels_flag k Ds out)
      as [mid|e] eqn:Hmid; [|done].
    cbn [bind] in Hp.
    destruct (for_list_spec k x Ds Hread fuel0 0 h out mid Hg Hrep)
      as (h1 & E1 & Hg1 & Hrep1).
    { by rewrite drop_0. }
    { assert (length Ds < fuel0); [|lia].
      apply (Hfuel0 k). by eapply list_elem_of_lookup_2. }
    unfold for_list. rewrite (bind_ok _ _ _ _ _ E1).
    pose proof (lookup_lt_Some _ _ _ HD).
    eapply (IH (S i) h1); [exact Hg1|exact Hrep1|exact Hp|lia].
  - apply lookup_ge_None in Hx. rewrite (Forall2_length _ _ _ HF) in Hx.
    rewrite drop_ge in Hp by done. injection Hp as <-.
    exists h. done.
Qed.

End Iteration.

(** *** Reading the result back *)

Lemma instance_at_read n bs h v inst :
  instance_at n bs h v inst -> read_instance h v = Some inst.
Proof.
  intros (c & x & y & z & -> & Hc & Hx & Hy & Hz & _).
  unfold read_instance. rewrite Hc.
  unfold read_utterance, read_list. rewrite Hx, Hy, Hz.
  rewrite !(proj2 (mapM_as_int _ _) eq_refl). cbn. by destruct inst.
Qed.

Lemma datasets_repr_read n h a out :
  datasets_repr n h a out -> read_datasets h (VRef a) = Some out.
Proof.
  intros (bs & Ha & Hlen & Hnd & Hna & Hall).
  unfold read_datasets, read_dict. rewrite Ha. apply mapM_Some.
  apply Forall2_same_length_lookup_2.
  { rewrite length_zip_with, !length_fmap. lia. }
  intros i [k v] kv Hi Hkv.
  apply lookup_zip_with_Some in Hi as (k' & v' & [= <- <-] & Hk & Hv).
  apply list_lookup_fmap_Some in Hv as (b & -> & Hb).
  rewrite list_lookup_fmap, Hkv in Hk. injection Hk as <-.
  destruct (Hall i b kv Hb Hkv) as (_ & vals & Hvals & HF).
  unfold read_list. rewrite Hvals.
  assert (Hm : mapM (read_instance h) vals = Some kv.2).
  { apply mapM_Some. eapply Forall2_impl; [exact HF|].
    intros x y. apply instance_at_read. }
  rewrite Hm. by destruct kv.
Qed.

End StoreLoops.

(** *** What can be reached from the result *)

Section Reach.
Import HeapModel.
Local Open Scope nat_scope.

Lemma refs_of_refs (bs : list addr) : refs_of (VRef <$> bs) = bs.
Proof. induction bs as [|b bs IH]; [done|]. cbn. by f_equal. Qed.

Lemma refs_of_ints (u : list Z) : refs_of (VInt <$> u) = [].
Proof. induction u as [|z u IH]; [done|]. exact IH. Qed.

Lemma reach_closed (P : addr -> Prop) h :
  (forall b, P b -> Forall P (children h b)) ->
  forall depth roots, Forall P roots -> Forall P (reach depth h roots).
Proof.
  intros Hclosed depth. induction depth as [|depth IH]; intros roots Hroots; [done|].
  cbn [reach]. apply Forall_app. split; [done|]. apply IH.
  induction Hroots as [|b roots Hb _ IHr]; [constructor|].
  cbn. apply Forall_app. split; [by apply Hclosed|done].
Qed.

(** Every object that can be reached from the result was created at or
    after address [n]. *)
Lemma datasets_repr_reach n h a out :
  datasets_repr n h a out ->
  forall depth, Forall (fun b => n <= b) (reach depth h [a]).
Proof.
  intros (bs & Ha & Hlen & Hnd & Hna & Hall) depth.
  set (P := fun b => n <= b /\
                     (b = a \/ b ∈ bs \/ instance_dict_at n h b \/ int_list_at h b)).
  assert (Hinst : forall v inst, instance_at (S a) bs h v inst ->
            exists c, v = VRef c /\ P c).
  { intros v inst (c & x & y & z & -> & Hc & Hx & Hy & Hz & Lc & Lx & Ly & Lz & _).
    exists c. split; [done|]. split; [lia|]. right. right. left.
    exists x, y, z. repeat split; try done; try lia; eexists; eassumption. }
  assert (Hclosed : forall b, P b -> Forall P (children h b)).
  { intros b [Lb [->|[Hb|[Hb|Hb]]]]; unfold children.
    - rewrite Ha. rewrite snd_zip by (rewrite !length_fmap; lia).
      rewrite refs_of_refs. apply Forall_forall.
      intros b (i & Hi)%list_elem_of_lookup_1.
      destruct (lookup_lt_is_Some_2 out i) as [kv Hkv];
        [rewrite <- Hlen; by eapply lookup_lt_Some|].
      destruct (Hall i b kv Hi Hkv) as [Lab _].
      split; [lia|]. right. left. by eapply list_elem_of_lookup_2.
    - apply list_elem_of_lookup_1 in Hb as (i & Hi).
      destruct (lookup_lt_is_Some_2 out i) as [kv Hkv];
        [rewrite <- Hlen; by eapply lookup_lt_Some|].
      destruct (Hall i b kv Hi Hkv) as (_ & vals & Hvals & HF).
      rewrite Hvals. clear Hvals.
      induction HF as [|v inst vals insts Hv _ IH]; [constructor|].
      destruct (Hinst v inst Hv) as (c & -> & Hc).
      change (Forall P (c :: refs_of vals)). by constructor.
    - destruct Hb as (x & y & z & Hc & Lx & Ly & Lz & Hx & Hy & Hz).
      rewrite Hc.
      change (Forall P [x; y; z]).
      repeat (apply Forall_cons; split); [| | |constructor];
        (split; [done|by do 3 right]).
    - destruct Hb as (u & Hu). rewrite Hu, refs_of_ints. constructor. }
  eapply Forall_impl; [apply (reach_closed P h Hclosed)|by intros b [Lb _]].
  constructor; [|constructor]. split; [done|]. by left.
Qed.

End Reach.

(** C10. [data_process] changes nothing of what it is given: run on a store
    in which [data] is a tokenized dataset, it leaves every object of that
    store as it was, however the run ends, so that the dataset read back
    afterwards is the same, split by split, dialogue by dialogue and token
    by token. When the run has fuel for its loops and the dataset is one on
    which [data_process] returns, the result is a new dictionary that reads
    back as the result computed on values, and every object that can be
    reached from it, at any depth, was created during the run: no list of
    an instance is, or leads to, an object of the input. *)
Theorem C10_input_not_mutated
    (fuel : nat) (args : Args) (data : HeapModel.val) (tokenizer : Tokenizer)
    (with_eos lm_labels_flag : bool) (h : list HeapModel.obj) (D : RawDataset) :
  HeapModel.read_data h data = Some D ->
  let run := HeapModel.data_process_h fuel args data tokenizer
               with_eos lm_labels_flag h in
  (forall a o, h !! a = Some o -> run.2 !! a = Some o) /\
  HeapModel.read_data run.2 data = Some D /\
  forall out,
    data_process args D tokenizer with_eos lm_labels_flag = Ok out ->
    (length D < fuel)%nat ->
    (forall name dataset, (name, dataset) ∈ D -> (length dataset < fuel)%nat) ->
    exists ds,
      run.1 = Ok (HeapModel.VRef ds) /\
      (length h <= ds)%nat /\
      HeapModel.read_datasets run.2 (HeapModel.VRef ds) = Some out /\
      forall depth,
        Forall (fun b => (length h <= b)%nat) (HeapModel.reach depth run.2 [ds]).
Proof.
  intros HD run.
  assert (Hg : HeapModel.grows h run.2)
    by apply frame_grows, data_process_h_frame.
  split; [exact Hg|]. split; [by eapply read_data_grows|].
  intros out Hout Hfuel Hfuel0.
  unfold data_process in Hout.
  destruct (special_ids tokenizer) as [sp|e] eqn:Hsp; [|done]. cbn [bind] in Hout.
  assert (Hents : exists dd ents,
            data = HeapModel.VRef dd /\ h !! dd = Some (HeapModel.ODict ents) /\
            length ents = length D).
  { unfold HeapModel.read_data, HeapModel.read_dict in HD.
    destruct data as [z|dd]; [done|].
    destruct (h !! dd) as [[l|ents]|] eqn:Hdd; try done.
    exists dd, ents. split; [done|]. split; [done|].
    apply mapM_Some in HD. by eapply Forall2_length. }
  destruct Hents as (dd & ents & -> & Hdd & Hlen).
  set (a := length h). set (h1 := h ++ [HeapModel.ODict []]).
  assert (Hrep : HeapModel.datasets_repr (length h) h1 a []).
  { exists []. split; [by apply list_lookup_middle|].
    split; [done|]. split; [constructor|]. split; [done|].
    intros i b kv Hb. done. }
  destruct (for_items_spec args sp with_eos lm_labels_flag h a (le_n _) fuel
              (HeapModel.VRef dd) D HD Hfuel0 fuel 0%nat h1 [] out)
    as (h' & E & Hg' & Hrep'); [apply grows_alloc|done|by rewrite drop_0|lia|].
  assert (Hrun : run = (Ok (HeapModel.VRef a), h')).
  { unfold run, HeapModel.data_process_h. rewrite Hsp.
    rewrite (bind_ok _ _ _ _ _ (eq_refl : SE.lift (Ok sp) h = (Ok sp, h))).
    rewrite (bind_ok _ _ _ _ _
               (eq_refl : HeapModel.dict_new h = (Ok (HeapModel.VRef a), h1))).
    unfold HeapModel.for_items. rewrite bind_assoc.
    assert (Hent : HeapModel.dict_entries (HeapModel.VRef dd) h1 = (Ok ents, h1)).
    { unfold HeapModel.dict_entries, SE.bind, HeapModel.deref.
      unfold h1. rewrite lookup_app_l by (by eapply lookup_lt_Some).
      by rewrite Hdd. }
    rewrite (bind_ok _ _ _ _ _ Hent), Hlen.
    by rewrite (bind_ok _ _ _ _ _ E). }
  exists a. rewrite Hrun. cbn [fst snd].
  split; [done|]. split; [done|].
  split; [by eapply datasets_repr_read|by eapply datasets_repr_reach].
Qed.

(** ** The theorems at concrete inputs *)

Lemma C1_witness :
  1 <= max_history example_args /\
  ("train"%string, [example_dialog; [[7]; [8; 9]]]) ∈ example_data /\
  example_dialog ∈ [example_dialog; [[7]; [8; 9]]] /\
  (2 <= length example_dialog)%nat /\
  exists sp inst,
    special_ids example_tokenizer = Ok sp /\
    build_instance example_args sp true true example_dialog = Ok inst /\
    length (input_ids inst) = length (token_type_ids inst) /\
    length (token_type_ids inst) = length (lm_labels inst) /\
    (forall out,
       data_process example_args example_data example_tokenizer true true = Ok out ->
       stored_under out "train" inst) /\
    ((forall name' dataset' D',
        (name', dataset') ∈ example_data -> D' ∈ dataset' ->
        (2 <= length D')%nat) ->
     exists out,
       data_process example_args example_data example_tokenizer true true = Ok out /\
       forall name' inst',
         stored_under out name' inst' ->
         length (input_ids inst') = length (token_type_ids inst') /\
         length (token_type_ids inst') = length (lm_labels inst')).
Proof.
  split; [cbn; lia|]. split; [left|]. split; [left|]. split; [cbn; lia|].
  apply (C1_instance_lengths_agree example_args example_data example_tokenizer
           true true "train" [example_dialog; [[7]; [8; 9]]] example_dialog);
    [cbn; lia|left|left|cbn; lia].
Defined.

Lemma C3_witness :
  1 <= max_history example_args /\
  ("train"%string, [example_dialog; [[7]; [8; 9]]]) ∈ example_data /\
  example_dialog ∈ [example_dialog; [[7]; [8; 9]]] /\
  (2 <= length example_dialog)%nat /\
  exists sp older response inst,
    special_ids example_tokenizer = Ok sp /\
    history_of example_args example_dialog =
      slice example_dialog (Some (-2 * max_history example_args)) (Some (-1)) /\
    response_of example_dialog = index example_dialog (-1) /\
    response_of example_dialog = Ok response /\
    example_dialog = older ++ history_of example_args example_dialog ++ [response] /\
    history_of example_args example_dialog ++ [response] =
      drop (length example_dialog - Z.to_nat (2 * max_history example_args))
        example_dialog /\
    Z.of_nat (length (history_of example_args example_dialog)) =
      Z.min (2 * max_history example_args) (Z.of_nat (length example_dialog)) - 1 /\
    Z.of_nat (length (history_of example_args example_dialog)) <=
      2 * max_history example_args - 1 /\
    build_instance example_args sp true true example_dialog = Ok inst /\
    instance_of_turns sp true true (history_of example_args example_dialog) response
      = Ok inst /\
    (forall out,
       data_process example_args example_data example_tokenizer true true = Ok out ->
       stored_under out "train" inst /\
       forall name' inst',
         stored_under out name' inst' ->
         exists dataset' D' response',
           (name', dataset') ∈ example_data /\ D' ∈ dataset' /\
           index D' (-1) = Ok response' /\
           instance_of_turns sp true true
             (slice D' (Some (-2 * max_history example_args)) (Some (-1))) response'
             = Ok inst') /\
    ((forall name' dataset', (name', dataset') ∈ example_data -> [] ∉ dataset') ->
     exists out,
       data_process example_args example_data example_tokenizer true true = Ok out).
Proof.
  split; [cbn; lia|]. split; [left|]. split; [left|]. split; [cbn; lia|].
  apply (C3_history_window example_args example_data example_tokenizer true true
           "train" [example_dialog; [[7]; [8; 9]]] example_dialog);
    [cbn; lia|left|left|cbn; lia].
Defined.

Lemma C4_witness :
  ("train"%string, [example_dialog; [[7]; [8; 9]]]) ∈ example_data /\
  example_dialog ∈ [example_dialog; [[7]; [8; 9]]] /\
  (2 <= length example_dialog)%nat /\
  exists sp response sequence inst,
    special_ids example_tokenizer = Ok sp /\
    bos sp = tok_convert_token_to_id example_tokenizer "[CLS]" /\
    speaker1 sp = tok_convert_token_to_id example_tokenizer "[speaker1]" /\
    speaker2 sp = tok_convert_token_to_id example_tokenizer "[speaker2]" /\
    response_of example_dialog = Ok response /\
    marked_sequence sp
      (plain_sequence sp true (history_of example_args example_dialog) response)
      = Ok sequence /\
    build_instance example_args sp true true example_dialog = Ok inst /\
    input_ids inst = concat sequence /\
    sequence !! 0%nat = Some [bos sp] /\
    length sequence =
      S (length (turns_of sp true (history_of example_args example_dialog)
                   response)) /\
    (forall i s,
       turns_of sp true (history_of example_args example_dialog) response !! i
         = Some s ->
       sequence !! S i = Some (marker sp i :: s)) /\
    marker sp 0 = speaker1 sp /\
    (forall i, marker sp i = if Nat.even i then speaker1 sp else speaker2 sp) /\
    (forall i, marker sp (S i) = if Nat.even i then speaker2 sp else speaker1 sp) /\
    (forall out,
       data_process example_args example_data example_tokenizer true true = Ok out ->
       stored_under out "train" inst /\
       forall name' inst',
         stored_under out name' inst' ->
         exists dataset' D' response',
           (name', dataset') ∈ example_data /\ D' ∈ dataset' /\
           response_of D' = Ok response' /\
           input_ids inst' =
             bos sp
             :: concat (imap (fun i s =>
                                (if Nat.even i then speaker1 sp else speaker2 sp) :: s)
                          (turns_of sp true (history_of example_args D') response'))) /\
    ((forall name' dataset', (name', dataset') ∈ example_data -> [] ∉ dataset') ->
     exists out,
       data_process example_args example_data example_tokenizer true true = Ok out).
Proof.
  split; [left|]. split; [left|]. split; [cbn; lia|].
  apply (C4_speaker_markers_alternate example_args example_data example_tokenizer
           true true "train" [example_dialog; [[7]; [8; 9]]] example_dialog);
    [left|left|cbn; lia].
Defined.

Lemma C5_witness :
  ("train"%string, [example_dialog; [[7]; [8; 9]]]) ∈ example_data /\
  example_dialog ∈ [example_dialog; [[7]; [8; 9]]] /\
  (2 <= length example_dialog)%nat /\
  exists sp response before content inst,
    special_ids example_tokenizer = Ok sp /\
    eos sp = tok_convert_token_to_id example_tokenizer "[SEP]" /\
    response_of example_dialog = Ok response /\
    content = response ++ [eos sp] /\
    marked_sequence sp
      (plain_sequence sp true (history_of example_args example_dialog) response) =
      Ok (before ++
          [marker sp (length (history_of example_args example_dialog)) :: content]) /\
    build_instance example_args sp true true example_dialog = Ok inst /\
    input_ids inst =
      concat before ++
      marker sp (length (history_of example_args example_dialog)) :: content /\
    lm_labels inst = replicate (length (concat before)) (-1) ++ [-1] ++ content /\
    (forall i, (i < length (concat before))%nat -> lm_labels inst !! i = Some (-1)) /\
    lm_labels inst !! length (concat before) = Some (-1) /\
    (forall j, lm_labels inst !! (length (concat before) + 1 + j)%nat = content !! j) /\
    (forall j, (j < length content)%nat ->
       lm_labels inst !! (length (concat before) + 1 + j)%nat =
       input_ids inst !! (length (concat before) + 1 + j)%nat) /\
    (forall out,
       data_process example_args example_data example_tokenizer true true = Ok out ->
       stored_under out "train" inst /\
       forall name' inst',
         stored_under out name' inst' ->
         exists dataset' D' response' masked,
           (name', dataset') ∈ example_data /\ D' ∈ dataset' /\
           response_of D' = Ok response' /\
           input_ids inst' = masked ++ response' ++ [eos sp] /\
           lm_labels inst' =
             replicate (length masked) (-1) ++ response' ++ [eos sp]) /\
    ((forall name' dataset', (name', dataset') ∈ example_data -> [] ∉ dataset') ->
     exists out,
       data_process example_args example_data example_tokenizer true true = Ok out).
Proof.
  split; [left|]. split; [left|]. split; [cbn; lia|].
  apply (C5_labels_mask_history example_args example_data example_tokenizer true
           "train" [example_dialog; [[7]; [8; 9]]] example_dialog);
    [left|left|cbn; lia].
Defined.

Lemma C6_witness :
  ("train"%string, [example_dialog; [[7]; [8; 9]]]) ∈ example_data /\
  example_dialog ∈ [example_dialog; [[7]; [8; 9]]] /\
  (2 <= length example_dialog)%nat /\
  exists sp inst,
    special_ids example_tokenizer = Ok sp /\
    build_instance example_args sp true false example_dialog = Ok inst /\
    lm_labels inst = replicate (length (input_ids inst)) (-1) /\
    length (lm_labels inst) = length (input_ids inst) /\
    (forall x, x ∈ lm_labels inst -> x = -1) /\
    (forall out,
       data_process example_args example_data example_tokenizer true false = Ok out ->
       stored_under out "train" inst /\
       forall name' inst',
         stored_under out name' inst' ->
         lm_labels inst' = replicate (length (input_ids inst')) (-1)) /\
    ((forall name' dataset', (name', dataset') ∈ example_data -> [] ∉ dataset') ->
     exists out,
       data_process example_args example_data example_tokenizer true false = Ok out).
Proof.
  split; [left|]. split; [left|]. split; [cbn; lia|].
  apply (C6_labels_all_ignored example_args example_data example_tokenizer true
           "train" [example_dialog; [[7]; [8; 9]]] example_dialog);
    [left|left|cbn; lia].
Defined.

Lemma C7_witness :
  ("train"%string, [example_dialog; [[7]; [8; 9]]]) ∈ example_data /\
  example_dialog ∈ [example_dialog; [[7]; [8; 9]]] /\
  (2 <= length example_dialog)%nat /\
  response_of example_dialog = Ok [30; 31] /\
  [30; 31] <> [] /\
  exists sp,
    special_ids example_tokenizer = Ok sp /\
    eos sp = tok_convert_token_to_id example_tokenizer "[SEP]" /\
    (exists inst,
       build_instance example_args sp true true example_dialog = Ok inst /\
       last (input_ids inst) = Some (eos sp) /\
       (forall out,
          data_process example_args example_data example_tokenizer true true
            = Ok out ->
          stored_under out "train" inst /\
          forall name' inst',
            stored_under out name' inst' ->
            last (input_ids inst') = Some (eos sp))) /\
    (exists inst,
       build_instance example_args sp false true example_dialog = Ok inst /\
       last (input_ids inst) = last [30; 31] /\
       (last (input_ids inst) = Some (eos sp) <-> last [30; 31] = Some (eos sp)) /\
       (forall out,
          data_process example_args example_data example_tokenizer false true
            = Ok out ->
          stored_under out "train" inst /\
          forall name' inst',
            stored_under out name' inst' ->
            exists dataset' D' response',
              (name', dataset') ∈ example_data /\ D' ∈ dataset' /\
              response_of D' = Ok response' /\
              (response' <> [] -> last (input_ids inst') = last response'))) /\
    ((forall name' dataset', (name', dataset') ∈ example_data -> [] ∉ dataset') ->
     forall with_eos,
       exists out,
         data_process example_args example_data example_tokenizer with_eos true
           = Ok out).
Proof.
  split; [left|]. split; [left|]. split; [cbn; lia|].
  split; [reflexivity|]. split; [done|].
  apply (C7_last_input_id example_args example_data example_tokenizer true
           "train" [example_dialog; [[7]; [8; 9]]] example_dialog [30; 31]);
    [left|left|cbn; lia|reflexivity|done].
Defined.

Lemma C8_witness :
  Loader.str_tree example_raw = true /\
  Loader.keys_unique example_raw = true /\
  exists out,
    Loader.tokenize example_tokenizer example_raw = Ok out /\
    Loader.same_shape example_tokenizer example_raw out /\
    (forall s, example_raw = Loader.PStr s ->
       out = Loader.PList
               (map Loader.PInt
                  (convert_tokens_to_ids example_tokenizer
                     (tok_tokenize example_tokenizer s)))) /\
    (forall l, example_raw = Loader.PList l ->
       exists l', out = Loader.PList l' /\ length l' = length l /\
                  Forall2 (Loader.same_shape example_tokenizer) l l') /\
    (forall d, example_raw = Loader.PDict d ->
       exists d', out = Loader.PDict d' /\ map fst d' = map fst d /\
                  length d' = length d /\
                  Forall2 (Loader.same_shape example_tokenizer)
                    (map snd d) (map snd d')) /\
    Loader.tokenize example_tokenizer (Loader.PList []) = Ok (Loader.PList []) /\
    Loader.tokenize example_tokenizer (Loader.PDict []) = Ok (Loader.PDict []).
Proof.
  split; [reflexivity|]. split; [vm_compute; reflexivity|].
  apply (C8_tokenize_preserves_shape example_tokenizer example_raw);
    [reflexivity|vm_compute; reflexivity].
Defined.

Lemma C9_witness :
  Loader.fs example_world !! Loader.cache_key example_tokenizer "cache"
    = Some (Loader.File "pickled") /\
  Loader.cache_key example_tokenizer "cache"
    = ("cache" ++ "_" ++ type_name example_tokenizer)%string /\
  Loader.get_data example_collab example_tokenizer "data.json" "cache" example_world =
    (match Loader.unpickle example_collab "pickled" with
     | Ok dataset => Ok (dataset, None)
     | Raise e => Raise e
     end,
     {| Loader.fs := Loader.fs example_world;
        Loader.log := Loader.log example_world ++
          [("Load tokenized dataset from cache at "
            ++ Loader.cache_key example_tokenizer "cache")%string] |}) /\
  (forall dataset,
     Loader.unpickle example_collab "pickled" = Ok dataset ->
     (Loader.get_data example_collab example_tokenizer "data.json" "cache"
        example_world).1 = Ok (dataset, None)) /\
  (forall tokenizer',
     type_name tokenizer' = type_name example_tokenizer ->
     Loader.get_data example_collab tokenizer' "data.json" "cache" example_world =
     Loader.get_data example_collab example_tokenizer "data.json" "cache"
       example_world).
Proof.
  split; [vm_compute; reflexivity|].
  apply (C9_cache_hit_returns_cached example_collab example_tokenizer
           "data.json" "cache" example_world "pickled").
  vm_compute; reflexivity.
Defined.

Lemma C10_witness :
  HeapModel.read_data example_heap (HeapModel.VRef 0) = Some example_data /\
  let run := HeapModel.data_process_h 5 example_args (HeapModel.VRef 0)
               example_tokenizer true true example_heap in
  (forall a o, example_heap !! a = Some o -> run.2 !! a = Some o) /\
  HeapModel.read_data run.2 (HeapModel.VRef 0) = Some example_data /\
  forall out,
    data_process example_args example_data example_tokenizer true true = Ok out ->
    (length example_data < 5)%nat ->
    (forall name dataset,
       (name, dataset) ∈ example_data -> (length dataset < 5)%nat) ->
    exists ds,
      run.1 = Ok (HeapModel.VRef ds) /\
      (length example_heap <= ds)%nat /\
      HeapModel.read_datasets run.2 (HeapModel.VRef ds) = Some out /\
      forall depth,
        Forall (fun b => (length example_heap <= b)%nat)
          (HeapModel.reach depth run.2 [ds]).
Proof.
  split; [reflexivity|].
  apply (C10_input_not_mutated 5 example_args (HeapModel.VRef 0)
           example_tokenizer true true example_heap example_data).
  reflexivity.
Defined.


(** * Further properties *)

(** ** [data_process]: failures and edge cases *)

Lemma build_instance_empty args sp with_eos lm_labels_flag :
  build_instance args sp with_eos lm_labels_flag [] = Raise IndexError.
Proof. reflexivity. Qed.

Lemma build_instance_nonempty args sp with_eos lm_labels_flag (D : Dialog) :
  D <> [] ->
  exists inst, build_instance args sp with_eos lm_labels_flag D = Ok inst.
Proof.
  intros HD.
  destruct (build_instance_ok args sp with_eos lm_labels_flag D) as (r & _ & ->).
  { destruct D; [done|cbn; lia]. }
  rewrite instance_of_turns_ok. eauto.
Qed.

Lemma build_instance_raise args sp with_eos lm_labels_flag (D : Dialog) e :
  build_instance args sp with_eos lm_labels_flag D = Raise e ->
  D = [] /\ e = IndexError.
Proof.
  intros Hb. destruct D as [|u D].
  - split; [done|]. rewrite build_instance_empty in Hb. congruence.
  - destruct (build_instance_nonempty args sp with_eos lm_labels_flag (u :: D))
      as (inst & Hi); [done|]. congruence.
Qed.

Section Failures.
Variables (args : Args) (sp : Special) (with_eos lm_labels_flag : bool).

Lemma process_dialogs_raise name (dataset : list Dialog) datasets e :
  process_dialogs args sp with_eos lm_labels_flag name dataset datasets = Raise e ->
  e = IndexError /\ [] ∈ dataset.
Proof.
  revert datasets. induction dataset as [|D dataset IH]; intros datasets Hp;
    [done|].
  cbn [process_dialogs] in Hp.
  destruct (build_instance args sp with_eos lm_labels_flag D) as [inst|e'] eqn:Hb.
  - cbn [bind] in Hp. destruct (IH _ Hp) as [-> Hin]. split; [done|by right].
  - cbn [bind] in Hp. injection Hp as <-.
    apply build_instance_raise in Hb as [-> ->]. split; [done|left].
Qed.

Lemma process_splits_raise (items : RawDataset) datasets e :
  process_splits args sp with_eos lm_labels_flag items datasets = Raise e ->
  e = IndexError /\ exists name dataset, (name, dataset) ∈ items /\ [] ∈ dataset.
Proof.
  revert datasets. induction items as [|[name dataset] items IH]; intros datasets Hp;
    [done|].
  cbn [process_splits] in Hp.
  destruct (process_dialogs args sp with_eos lm_labels_flag name dataset datasets)
    as [mid|e'] eqn:Hmid.
  - cbn [bind] in Hp. destruct (IH _ Hp) as (-> & n & ds & Hn & Hds).
    split; [done|]. exists n, ds. split; [by right|done].
  - cbn [bind] in Hp. injection Hp as <-.
    apply process_dialogs_raise in Hmid as [-> Hin].
    split; [done|]. exists name, dataset. split; [left|done].
Qed.

End Failures.

(** X1. [data_process] returns exactly when no dialogue of the dataset is
    empty. When it does not return, the exception is the [IndexError] of
    [dialog[-1]] on an empty dialogue: the assertion of line 92 fails on no
    dataset at all. *)
Theorem data_process_fails_only_on_empty_dialog
    (args : Args) (data : RawDataset) (tokenizer : Tokenizer)
    (with_eos lm_labels_flag : bool) :
  ((exists out, data_process args data tokenizer with_eos lm_labels_flag = Ok out) <->
   (forall name dataset, (name, dataset) ∈ data -> [] ∉ dataset)) /\
  (forall e,
     data_process args data tokenizer with_eos lm_labels_flag = Raise e ->
     e = IndexError /\
     exists name dataset, (name, dataset) ∈ data /\ [] ∈ dataset).
Proof.
  destruct (special_ids_ok tokenizer) as (sp & Hsp).
  assert (Hraise : forall e,
            data_process args data tokenizer with_eos lm_labels_flag = Raise e ->
            e = IndexError /\
            exists name dataset, (name, dataset) ∈ data /\ [] ∈ dataset).
  { intros e He. unfold data_process in He. rewrite Hsp in He. cbn [bind] in He.
    by eapply process_splits_raise. }
  split; [|exact Hraise]. split.
  - intros (out & Hout) name dataset Hn Hin.
    unfold data_process in Hout. rewrite Hsp in Hout. cbn [bind] in Hout.
    destruct (process_splits_built args sp with_eos lm_labels_flag data [] out Hout
                name dataset [] Hn Hin) as (inst & Hi).
    by rewrite build_instance_empty in Hi.
  - intros Hall.
    destruct (data_process args data tokenizer with_eos lm_labels_flag)
      as [out|e] eqn:Hd; [eauto|].
    destruct (Hraise e eq_refl) as (_ & name & dataset & Hn & Hin).
    by destruct (Hall name dataset Hn).
Qed.


Lemma history_length args (D : Dialog) :
  1 <= max_history args -> (1 <= length D)%nat ->
  Z.of_nat (length (history_of args D)) =
  Z.min (2 * max_history args) (Z.of_nat (length D)) - 1.
Proof.
  intros Hmh HD. destruct (nonempty_snoc D HD) as (older & u & ->).
  destruct (history_response args older u) as [_ Hh].
  rewrite Hh by lia. rewrite length_drop, length_app. cbn [length]. lia.
Qed.

Lemma even_pred_double (n : nat) (k : Z) :
  1 <= k -> Z.of_nat n = 2 * k - 1 -> Nat.even n = false.
Proof.
  intros Hk Hn. rewrite <- Nat.negb_odd.
  assert (Ho : Nat.odd n = true); [|by rewrite Ho].
  apply Nat.odd_spec. exists (Z.to_nat (k - 1)). lia.
Qed.

(** X2. Which speaker marker the response gets. For [max_history >= 1] and
    a dialogue that is not empty, the final turn of [input_ids] starts with
    the marker of index [len(history)]. A dialogue of at least
    [2*max_history] utterances keeps [2*max_history - 1] of them as
    history, and its response is marked [speaker2]; a shorter dialogue
    keeps all but the last, and its response is marked [speaker2] when the
    dialogue has an even number of utterances and [speaker1] when odd. *)
Theorem response_marker_by_history_parity
    (args : Args) (sp : Special) (with_eos lm_labels_flag : bool) (D : Dialog) :
  1 <= max_history args ->
  (1 <= length D)%nat ->
  exists response before inst,
    response_of D = Ok response /\
    build_instance args sp with_eos lm_labels_flag D = Ok inst /\
    input_ids inst =
      concat before ++
      marker sp (length (history_of args D))
        :: response ++ (if with_eos then [eos sp] else []) /\
    (2 * max_history args <= Z.of_nat (length D) ->
     Z.of_nat (length (history_of args D)) = 2 * max_history args - 1 /\
     marker sp (length (history_of args D)) = speaker2 sp) /\
    (Z.of_nat (length D) < 2 * max_history args ->
     length (history_of args D) = (length D - 1)%nat /\
     marker sp (length (history_of args D)) =
       if Nat.even (length D) then speaker2 sp else speaker1 sp).
Proof.
  intros Hmh HD.
  destruct (build_instance_ok args sp with_eos lm_labels_flag D HD) as (r & Hr & Hb).
  rewrite instance_of_turns_ok in Hb.
  pose proof (history_length args D Hmh HD) as Hlen.
  eexists r, ([bos sp] :: imap (mark sp) (history_of args D)), _.
  split; [done|]. split; [exact Hb|]. cbn [input_ids]. split.
  { rewrite marked_split, concat_app. f_equal. apply app_nil_r. }
  split.
  - intros Hlong. split; [lia|]. rewrite marker_parity.
    by rewrite (even_pred_double _ (max_history args)) by lia.
  - intros Hshort.
    assert (Hl : length (history_of args D) = (length D - 1)%nat) by lia.
    split; [done|]. rewrite marker_parity, Hl.
    replace (length D) with (S (length D - 1)) at 2 by lia.
    rewrite Nat.even_succ, <- Nat.negb_even.
    by destruct (Nat.even (length D - 1)).
Qed.

(** X3. [max_history <= 0] does not empty the history. The lower bound
    [-2*max_history] of the slice is then not negative and counts from the
    front: the history is the dialogue without its last utterance and
    without its first [-2*max_history] ones; for [max_history = 0] it is
    every utterance before the last. *)
Theorem history_for_nonpositive_max_history (args : Args) (D : Dialog) :
  max_history args <= 0 ->
  history_of args D =
    drop (Z.to_nat (-2 * max_history args)) (take (length D - 1) D) /\
  (max_history args = 0 -> history_of args D = take (length D - 1) D) /\
  (max_history args = 0 -> forall response,
     response_of D = Ok response -> D = history_of args D ++ [response]).
Proof.
  intros Hmh.
  assert (Hh : history_of args D =
               drop (Z.to_nat (-2 * max_history args)) (take (length D - 1) D)).
  { unfold history_of, slice, adjust. cbn [default from_option id]. case_cmp.
    destruct (decide (Z.to_nat (-2 * max_history args) <= length D - 1
                      /\ 1 <= length D)%nat) as [[Hle Hpos]|Hgt].
    - replace (Z.to_nat (Z.min _ _)) with (Z.to_nat (-2 * max_history args)) by lia.
      replace (Z.to_nat (Z.max _ _ - _))
        with (length D - 1 - Z.to_nat (-2 * max_history args))%nat by lia.
      rewrite take_drop_commute. do 2 f_equal. lia.
    - replace (Z.to_nat (Z.max _ _ - _)) with 0%nat by lia.
      rewrite take_0. symmetry. apply drop_ge. rewrite length_take. lia. }
  split; [exact Hh|]. split.
  - intros H0. rewrite Hh, H0. apply drop_0.
  - intros H0 response Hr. rewrite Hh, H0. cbn. rewrite drop_0.
    destruct (decide (D = [])) as [->|Hne];
      [unfold response_of in Hr; by rewrite index_empty in Hr|].
    destruct (exists_last Hne) as (older & u & ->).
    unfold response_of in Hr. rewrite index_last in Hr. injection Hr as <-.
    rewrite length_app. cbn [length].
    replace (length older + 1 - 1)%nat with (length older) by lia.
    by rewrite take_app_length.
Qed.

Lemma length_concat_imap_succ {A : Type} (f : nat -> list A -> list A)
    (l : list (list A)) :
  (forall i s, length (f i s) = S (length s)) ->
  length (concat (imap f l)) = (length l + length (concat l))%nat.
Proof.
  revert f. induction l as [|s l IH]; intros f Hf; [done|].
  cbn. rewrite !length_app, Hf, IH by (intros; apply Hf). lia.
Qed.

Lemma length_concat_marked sp (l : list (list Z)) :
  length (concat (imap (mark sp) l)) = (length l + length (concat l))%nat.
Proof. by apply length_concat_imap_succ. Qed.

(** X4. The length of an instance: one BOS, one marker per turn, the
    tokens of the history and of the response, and one EOS when asked. *)
Theorem input_ids_length
    (args : Args) (sp : Special) (with_eos lm_labels_flag : bool) (D : Dialog) :
  (1 <= length D)%nat ->
  exists response inst,
    response_of D = Ok response /\
    build_instance args sp with_eos lm_labels_flag D = Ok inst /\
    length (input_ids inst) =
      (2 + length (history_of args D) + length (concat (history_of args D))
       + length response + (if with_eos then 1 else 0))%nat.
Proof.
  intros HD.
  destruct (build_instance_ok args sp with_eos lm_labels_flag D HD) as (r & Hr & Hb).
  rewrite instance_of_turns_ok in Hb.
  eexists r, _. split; [done|]. split; [exact Hb|]. cbn [input_ids].
  change (concat ([bos sp] :: ?l)) with ([bos sp] ++ concat l).
  rewrite length_app, length_concat_marked, concat_app, !length_app.
  cbn [concat length]. rewrite app_nil_r, length_app.
  destruct with_eos; cbn [length]; lia.
Qed.


Lemma imap_middle {A B : Type} (f : nat -> A -> B) (l1 l2 : list A) (x : A) :
  imap f (l1 ++ x :: l2) =
  imap f l1 ++ f (length l1) x :: imap (fun i => f (S (length l1 + i))) l2.
Proof.
  rewrite imap_app. f_equal. cbn. rewrite Nat.add_0_r. f_equal.
  apply imap_ext. intros i y _. cbn. f_equal. lia.
Qed.

Lemma lookup_succ {A : Type} (x : A) (l : list A) (i : nat) :
  (x :: l) !! S i = l !! i.
Proof. reflexivity. Qed.

(** X5. [token_type_ids] runs along [input_ids]. Both start with the BOS
    id. The turn of index [i] after BOS begins, in [input_ids], at offset
    [1 + i + (the number of tokens of the turns before it)]: there
    [input_ids] has the marker of the turn and then the turn's own tokens,
    and [token_type_ids] has that same marker at every one of these
    positions. *)
Theorem token_type_ids_follow_turns
    (args : Args) (sp : Special) (with_eos lm_labels_flag : bool) (D : Dialog) :
  (1 <= length D)%nat ->
  exists response inst,
    response_of D = Ok response /\
    build_instance args sp with_eos lm_labels_flag D = Ok inst /\
    input_ids inst !! 0%nat = Some (bos sp) /\
    token_type_ids inst !! 0%nat = Some (bos sp) /\
    forall i s,
      turns_of sp with_eos (history_of args D) response !! i = Some s ->
      let off := (1 + i + length (concat
                   (take i (turns_of sp with_eos (history_of args D) response))))%nat in
      input_ids inst !! off = Some (marker sp i) /\
      (forall j, (j < length s)%nat -> input_ids inst !! (off + 1 + j)%nat = s !! j) /\
      (forall j, (j <= length s)%nat ->
         token_type_ids inst !! (off + j)%nat = Some (marker sp i)).
Proof.
  intros HD.
  destruct (build_instance_ok args sp with_eos lm_labels_flag D HD) as (r & Hr & Hb).
  rewrite instance_of_turns_ok in Hb.
  eexists r, _. split; [done|]. split; [exact Hb|].
  cbn [input_ids token_type_ids].
  split; [reflexivity|]. split; [reflexivity|].
  intros i s Hi. unfold turns_of in *.
  remember (history_of args D ++ [r ++ (if with_eos then [eos sp] else [])])
    as turns eqn:Hturns. clear Hturns Hb.
  assert (Hlt : length (take i turns) = i).
  { apply length_take_le. apply lookup_lt_Some in Hi. lia. }
  apply take_drop_middle in Hi.
  remember (take i turns) as A eqn:HA. remember (drop (S i) turns) as B eqn:HB.
  clear HA HB. subst turns.
  set (off := (1 + i + length (concat A))%nat).
  assert (Hoff : off = S (length (concat (imap (mark sp) A))))
    by (rewrite length_concat_marked, Hlt; subst off; lia).
  assert (Hoff' : off = S (length (concat (imap (span sp) A)))).
  { rewrite Hoff. f_equal. apply length_concat_imap. intros k t.
    unfold mark, span. by rewrite length_replicate. }
  change (concat ([bos sp] :: ?l)) with (bos sp :: concat l).
  rewrite !imap_middle, !concat_app, Hlt.
  cbn [concat]. split; [|split].
  - rewrite Hoff, lookup_succ, lookup_app_r by lia.
    by rewrite Nat.sub_diag.
  - intros j Hj. rewrite Hoff.
    replace (S (length (concat (imap (mark sp) A))) + 1 + j)%nat
      with (S (length (concat (imap (mark sp) A)) + S j)) by lia.
    rewrite lookup_succ, lookup_app_r by lia.
    replace (_ + S j - _)%nat with (S j) by lia.
    unfold mark at 1. rewrite <- app_comm_cons, lookup_succ.
    by rewrite lookup_app_l by lia.
  - intros j Hj. rewrite Hoff'.
    cbn [Nat.add]. rewrite lookup_succ, lookup_app_r by lia.
    replace (_ + j - _)%nat with j by lia.
    rewrite lookup_app_l by (unfold span; rewrite length_replicate; lia).
    apply lookup_replicate_2. lia.
Qed.

(** X6. What the two flags change. [with_eos] adds one position at the end
    of each sequence: the EOS id in [input_ids], the marker of the final
    turn in [token_type_ids], and in [lm_labels] the EOS id when
    [lm_labels] is set and [-1] when it is not. [lm_labels] changes neither
    [input_ids] nor [token_type_ids]. *)
Theorem flags_effect
    (args : Args) (sp : Special) (lm_labels_flag : bool) (D : Dialog) :
  (1 <= length D)%nat ->
  exists without with_ other,
    build_instance args sp false lm_labels_flag D = Ok without /\
    build_instance args sp true lm_labels_flag D = Ok with_ /\
    build_instance args sp true (negb lm_labels_flag) D = Ok other /\
    input_ids with_ = input_ids without ++ [eos sp] /\
    token_type_ids with_ =
      token_type_ids without ++ [marker sp (length (history_of args D))] /\
    lm_labels with_ =
      lm_labels without ++ [if lm_labels_flag then eos sp else -1] /\
    input_ids other = input_ids with_ /\
    token_type_ids other = token_type_ids with_.
Proof.
  intros HD.
  destruct (build_instance_ok args sp false lm_labels_flag D HD) as (r & Hr & Hb0).
  destruct (build_instance_ok args sp true lm_labels_flag D HD) as (r1 & Hr1 & Hb1).
  destruct (build_instance_ok args sp true (negb lm_labels_flag) D HD)
    as (r2 & Hr2 & Hb2).
  assert (r1 = r) as -> by congruence. assert (r2 = r) as -> by congruence.
  rewrite instance_of_turns_ok in Hb0, Hb1, Hb2.
  eexists _, _, _. split; [exact Hb0|]. split; [exact Hb1|]. split; [exact Hb2|].
  cbn [input_ids token_type_ids lm_labels].
  set (history := history_of args D).
  set (before := [bos sp] :: imap (mark sp) history).
  assert (Hids : forall tail : list Z,
            concat ([bos sp] :: imap (mark sp) (history ++ [r ++ tail])) =
            concat before ++ marker sp (length history) :: r ++ tail).
  { intros tail. rewrite marked_split, concat_app. fold before. f_equal.
    apply app_nil_r. }
  assert (Hty : forall tail : list Z,
            bos sp :: concat (imap (span sp) (history ++ [r ++ tail])) =
            (bos sp :: concat (imap (span sp) history)) ++
            replicate (S (length r + length tail)) (marker sp (length history))).
  { intros tail. rewrite imap_app, concat_app. cbn [imap concat].
    rewrite app_nil_r, Nat.add_0_r. unfold span at 2. by rewrite length_app. }
  rewrite !Hids, !Hty. cbn [length]. rewrite !app_nil_r, !Nat.add_0_r.
  split; [by rewrite app_comm_cons, !app_assoc|].
  split.
  { rewrite <- app_assoc. f_equal.
    replace (S (length r + 1)) with (S (S (length r))) by lia.
    by rewrite (replicate_S_end (S (length r))). }
  split; [|done].
  destruct lm_labels_flag.
  - by rewrite !app_assoc.
  - rewrite !length_app. cbn [length]. rewrite length_app. cbn [length].
    replace (length (concat before) + S (length r + 1))%nat
      with (S (length (concat before) + S (length r))) by lia.
    by rewrite replicate_S_end.
Qed.


(** ** [data_process]: the shape of the result *)

Lemma defaultdict_append_new {A : Type} (acc : list (string * list A)) name x :
  name ∉ acc.*1 -> defaultdict_append acc name x = acc ++ [(name, [x])].
Proof.
  induction acc as [|[k v] acc IH]; intros Hn; [done|].
  cbn in *. apply not_elem_of_cons in Hn as [Hne Hn].
  destruct (String.eqb_spec k name) as [->|_]; [done|]. by rewrite IH.
Qed.

Lemma defaultdict_append_last {A : Type} (acc : list (string * list A)) name l x :
  name ∉ acc.*1 ->
  defaultdict_append (acc ++ [(name, l)]) name x = acc ++ [(name, l ++ [x])].
Proof.
  induction acc as [|[k v] acc IH]; intros Hn.
  - cbn. by rewrite String.eqb_refl.
  - cbn in *. apply not_elem_of_cons in Hn as [Hne Hn].
    destruct (String.eqb_spec k name) as [->|_]; [done|]. by rewrite IH.
Qed.

Section Shape.
Variables (args : Args) (sp : Special) (with_eos lm_labels_flag : bool).

Lemma process_dialogs_onto name (dataset : list Dialog) insts acc l :
  name ∉ acc.*1 ->
  Forall2 (fun D inst => build_instance args sp with_eos lm_labels_flag D = Ok inst)
    dataset insts ->
  process_dialogs args sp with_eos lm_labels_flag name dataset (acc ++ [(name, l)])
  = Ok (acc ++ [(name, l ++ insts)]).
Proof.
  intros Hn HF. revert l.
  induction HF as [|D inst dataset insts HD _ IH]; intros l.
  - cbn. by rewrite app_nil_r.
  - cbn [process_dialogs]. rewrite HD. cbn [bind].
    rewrite defaultdict_append_last by done. rewrite IH.
    by rewrite <- app_assoc.
Qed.

Lemma process_dialogs_block name (dataset : list Dialog) insts acc :
  name ∉ acc.*1 ->
  Forall2 (fun D inst => build_instance args sp with_eos lm_labels_flag D = Ok inst)
    dataset insts ->
  process_dialogs args sp with_eos lm_labels_flag name dataset acc =
  Ok (if decide (dataset = []) then acc else acc ++ [(name, insts)]).
Proof.
  intros Hn HF. destruct HF as [|D inst dataset insts HD HF]; [done|].
  cbn [process_dialogs]. rewrite HD. cbn [bind].
  rewrite defaultdict_append_new by done.
  rewrite (process_dialogs_onto name dataset insts acc [inst] Hn HF).
  by destruct (decide _).
Qed.

Lemma process_splits_blocks (items : RawDataset) acc :
  NoDup (items.*1) ->
  (forall name, name ∈ items.*1 -> name ∉ acc.*1) ->
  (forall name dataset, (name, dataset) ∈ items -> [] ∉ dataset) ->
  exists blocks,
    process_splits args sp with_eos lm_labels_flag items acc = Ok (acc ++ blocks) /\
    Forall2 (fun kv ko =>
               kv.1 = ko.1 /\
               Forall2 (fun D inst =>
                          build_instance args sp with_eos lm_labels_flag D = Ok inst)
                 kv.2 ko.2)
      (filter (fun kv => kv.2 <> []) items) blocks.
Proof.
  revert acc. induction items as [|[name dataset] items IH]; intros acc Hnd Hdisj Hne.
  - exists []. split; [cbn; by rewrite app_nil_r|constructor].
  - cbn in Hnd. apply NoDup_cons in Hnd as [Hfresh Hnd].
    assert (Hbuilt : exists insts,
              Forall2 (fun D inst =>
                         build_instance args sp with_eos lm_labels_flag D = Ok inst)
                dataset insts).
    { assert (Hd : [] ∉ dataset) by (apply (Hne name); left).
      clear -Hd. induction dataset as [|D dataset IHd]; [exists []; constructor|].
      apply not_elem_of_cons in Hd as [HD Hd].
      destruct (IHd Hd) as (insts & HF).
      destruct (build_instance_nonempty args sp with_eos lm_labels_flag D)
        as (inst & Hi); [done|].
      exists (inst :: insts). by constructor. }
    destruct Hbuilt as (insts & HF).
    assert (Hacc : name ∉ acc.*1) by (apply Hdisj; left).
    cbn [process_splits].
    rewrite (process_dialogs_block name dataset insts acc Hacc HF). cbn [bind].
    rewrite filter_cons. cbn [snd].
    destruct (decide (dataset = [])) as [->|Hds].
    + destruct (IH acc Hnd) as (blocks & Hp & HB).
      { intros n Hin. apply Hdisj. by right. }
      { intros n ds Hin. apply (Hne n). by right. }
      exists blocks. split; [done|]. by destruct (decide ([] <> [])).
    + destruct (IH (acc ++ [(name, insts)]) Hnd) as (blocks & Hp & HB).
      { intros n Hin. rewrite fmap_app. cbn.
        rewrite elem_of_app, list_elem_of_singleton.
        intros [Hin'| ->]; [|done]. revert Hin'. apply Hdisj. by right. }
      { intros n ds Hin. apply (Hne n). by right. }
      exists ((name, insts) :: blocks).
      split; [by rewrite Hp, <- app_assoc|].
      destruct (decide (dataset <> [])) as [_|Hc]; [|done].
      by constructor.
Qed.

End Shape.

(** X7. What the result looks like. For a dataset with distinct split
    names and no empty dialogue, the result has one entry for each split
    that has at least one dialogue, in the order of the dataset, and none
    for a split without dialogues; the entry of a split holds one instance
    for each of its dialogues, in their order. *)
Theorem data_process_result_shape
    (args : Args) (data : RawDataset) (tokenizer : Tokenizer)
    (with_eos lm_labels_flag : bool) :
  NoDup (data.*1) ->
  (forall name dataset, (name, dataset) ∈ data -> [] ∉ dataset) ->
  exists sp out,
    special_ids tokenizer = Ok sp /\
    data_process args data tokenizer with_eos lm_labels_flag = Ok out /\
    out.*1 = (filter (fun kv => kv.2 <> []) data).*1 /\
    Forall2 (fun kv ko =>
               kv.1 = ko.1 /\
               length kv.2 = length ko.2 /\
               Forall2 (fun D inst =>
                          build_instance args sp with_eos lm_labels_flag D = Ok inst)
                 kv.2 ko.2)
      (filter (fun kv => kv.2 <> []) data) out.
Proof.
  intros Hnd Hne. destruct (special_ids_ok tokenizer) as (sp & Hsp).
  destruct (process_splits_blocks args sp with_eos lm_labels_flag data [] Hnd)
    as (out & Hout & HF); [intros n _; apply not_elem_of_nil|done|].
  exists sp, out. split; [done|].
  split; [unfold data_process; by rewrite Hsp|]. split.
  - clear Hout. induction HF as [|kv ko l1 l2 [Hk _] _ IH]; [done|].
    cbn. by rewrite Hk, IH.
  - eapply Forall2_impl; [exact HF|]. intros kv ko [Hk HF2].
    split; [done|]. split; [by eapply Forall2_length|done].
Qed.


(** ** [tokenize]: when it fails *)

Section TokenizeFails.
Import Loader.
Variable tokenizer : Tokenizer.

Lemma tokenize_cases obj :
  (str_tree obj = true /\ exists out, tokenize tokenizer obj = Ok out) \/
  (str_tree obj = false /\ tokenize tokenizer obj = Raise TypeError).
Proof.
  induction obj as [ |b|z|s|l IH|d IH] using pyobj_nested_ind;
    try (right; split; reflexivity).
  - left. split; [done|]. cbn. eauto.
  - assert (Hel : (forallb str_tree l = true /\
                   exists l', tokenize_elems tokenizer l = Ok l') \/
                  (forallb str_tree l = false /\
                   tokenize_elems tokenizer l = Raise TypeError)).
    { induction l as [|o l IHl]; [left; split; [done|by exists []]|].
      apply Forall_cons in IH as [IHo IHr]. cbn [forallb tokenize_elems].
      destruct IHo as [(Ho & o' & Ho')|(Ho & Ho')]; rewrite Ho, Ho'; cbn [bind andb].
      - fold (tokenize_elems tokenizer).
        destruct (IHl IHr) as [(Hl & l' & Hl')|(Hl & Hl')]; rewrite Hl'; cbn [bind].
        + left. split; [done|]. eauto.
        + right. done.
      - right. done. }
    rewrite tokenize_PList. cbn [str_tree].
    destruct Hel as [(Hl & l' & Hl')|(Hl & Hl')]; rewrite Hl'; cbn [bind].
    + left. split; [done|]. eauto.
    + right. done.
  - assert (Hit : (forallb (fun kv => str_tree kv.2) d = true /\
                   exists d', tokenize_items tokenizer d = Ok d') \/
                  (forallb (fun kv => str_tree kv.2) d = false /\
                   tokenize_items tokenizer d = Raise TypeError)).
    { induction d as [|[k o] d IHd]; [left; split; [done|by exists []]|].
      apply Forall_cons in IH as [IHo IHr]. cbn [forallb tokenize_items snd] in *.
      destruct IHo as [(Ho & o' & Ho')|(Ho & Ho')]; rewrite Ho, Ho'; cbn [bind andb].
      - fold (tokenize_items tokenizer).
        destruct (IHd IHr) as [(Hl & l' & Hl')|(Hl & Hl')]; rewrite Hl'; cbn [bind].
        + left. split; [done|]. eauto.
        + right. done.
      - right. done. }
    rewrite tokenize_PDict. cbn [str_tree].
    destruct Hit as [(Hl & d' & Hd')|(Hl & Hd')]; rewrite Hd'; cbn [bind].
    + left. split; [done|]. eauto.
    + right. done.
Qed.

End TokenizeFails.

(** X8. [tokenize] returns exactly on the values made of strings, lists and
    dictionaries only. A number, a boolean or a [None] anywhere in the
    value makes it raise, and what it raises is a [TypeError]. *)
Theorem tokenize_succeeds_iff_strings_only (tokenizer : Tokenizer) (obj : Loader.pyobj) :
  ((exists out, Loader.tokenize tokenizer obj = Ok out) <->
   Loader.str_tree obj = true) /\
  (Loader.str_tree obj = false ->
   Loader.tokenize tokenizer obj = Raise TypeError).
Proof.
  destruct (tokenize_cases tokenizer obj) as [(Hs & out & Ho)|(Hs & Ho)].
  - split; [split; eauto|]. congruence.
  - split; [|done]. split; [|congruence]. intros (out & Hout). congruence.
Qed.

(** ** [get_data]: the cache *)

Lemma dataset_path_fallback (dataset_path : string) :
  (if Loader.truthy dataset_path then dataset_path else SMALCleanWB_URL) = dataset_path.
Proof. by destruct dataset_path. Qed.

Lemma get_data_hit c tokenizer dataset_path dataset_cache w content :
  Loader.fs w !! Loader.cache_key tokenizer dataset_cache
    = Some (Loader.File content) ->
  Loader.get_data c tokenizer dataset_path dataset_cache w =
    (match Loader.unpickle c content with
     | Ok dataset => Ok (dataset, None)
     | Raise e => Raise e
     end,
     {| Loader.fs := Loader.fs w;
        Loader.log := Loader.log w ++
          [("Load tokenized dataset from cache at "
            ++ Loader.cache_key tokenizer dataset_cache)%string] |}).
Proof.
  intros Hfile. unfold Loader.get_data. rewrite cache_key_truthy.
  unfold SE.bind, Loader.os_path_isfile. rewrite Hfile.
  unfold Loader.logger_info, Loader.torch_load, SE.bind, Loader.read_file.
  cbn [Loader.fs Loader.log]. rewrite Hfile.
  unfold SE.lift, SE.ret. by destruct (Loader.unpickle c content).
Qed.


(** X10. [get_data] changes files only through [cached_path] and
    [torch.save]. When it raises on a cache hit, the file system is as it
    was. When it raises on a miss, the file system is as [cached_path] left
    it, unless everything before the write succeeded and it is
    [torch.save], given the tokenized dataset and the cache path, that
    raised: the file system is then as [torch.save] left it. *)
Theorem get_data_failure_file_system
    (c : Loader.Collab) (tokenizer : Tokenizer)
    (dataset_path dataset_cache : string) (w : Loader.world) (e : exn) :
  (Loader.get_data c tokenizer dataset_path dataset_cache w).1 = Raise e ->
  let after := Loader.fs (Loader.get_data c tokenizer dataset_path dataset_cache w).2 in
  match Loader.fs w !! Loader.cache_key tokenizer dataset_cache with
  | Some (Loader.File _) => after = Loader.fs w
  | _ =>
      let fs1 := (Loader.cached_path c dataset_path (Loader.fs w)).2 in
      after = fs1 \/
      exists cache_file content raw samples tokenized,
        (Loader.cached_path c dataset_path (Loader.fs w)).1 = Ok cache_file /\
        fs1 !! cache_file = Some (Loader.File content) /\
        Loader.json_loads c content = Ok raw /\
        Loader.take_samples raw = Ok samples /\
        Loader.tokenize tokenizer raw = Ok tokenized /\
        Loader.save c tokenized (Loader.cache_key tokenizer dataset_cache) fs1
          = (Raise e, after)
  end.
Proof.
  set (key := Loader.cache_key tokenizer dataset_cache).
  destruct (Loader.fs w !! key) as [[content|]|] eqn:Hkey.
  { intros _. cbv zeta.
    by rewrite (get_data_hit c tokenizer dataset_path dataset_cache w content). }
  all: cbv zeta; unfold Loader.get_data;
    rewrite dataset_path_fallback, cache_key_truthy; fold key;
    unfold SE.bind, Loader.os_path_isfile, Loader.logger_info,
      Loader.call_cached_path, Loader.read_file, SE.lift, Loader.torch_save,
      SE.ret;
    cbn [Loader.fs Loader.log]; rewrite Hkey;
    destruct (Loader.cached_path c dataset_path (Loader.fs w)) as [[cf|e1] fs1];
    cbn [fst snd Loader.fs Loader.log]; [|by left];
    (destruct (fs1 !! cf) as [[content|]|] eqn:Hcf; [|by left|by left]);
    (destruct (Loader.json_loads c content) as [raw|e2] eqn:Hjson; [|by left]);
    (destruct (Loader.take_samples raw) as [samples|e3] eqn:Hs; [|by left]);
    (destruct (Loader.tokenize tokenizer raw) as [tokenized|e4] eqn:Htok;
       [|by left]);
    cbn [fst snd Loader.fs Loader.log];
    destruct (Loader.save c tokenized key fs1) as [[[]|e5] fs2] eqn:Hsave;
    cbn [fst snd Loader.fs]; [done|];
    intros [= ->]; right; exists cf, content, raw, samples, tokenized;
    by rewrite Hsave.
Qed.


Lemma string_app_inj (s a b : string) :
  (s ++ a = s ++ b)%string -> a = b.
Proof. induction s as [|ch s IH]; cbn; [done|]. intros [= H]. by apply IH. Qed.

Lemma string_app_assoc (a b c : string) :
  ((a ++ b) ++ c = a ++ (b ++ c))%string.
Proof.
  induction a as [|ch a IH]; [done|].
  change (String ch ((a ++ b) ++ c) = String ch (a ++ (b ++ c)))%string.
  by rewrite IH.
Qed.

(** X11. With one [dataset_cache], tokenizers use the same cache file
    exactly when their classes have the same name: a cache written under
    one class name is not the file that a tokenizer of another class name
    looks for. *)
Theorem cache_key_separates_type_names
    (t1 t2 : Tokenizer) (dataset_cache : string) :
  Loader.cache_key t1 dataset_cache = Loader.cache_key t2 dataset_cache <->
  type_name t1 = type_name t2.
Proof.
  unfold Loader.cache_key. split; [|by intros ->].
  intros H. apply string_app_inj in H. by injection H.
Qed.

(** X12. Across different [dataset_cache] values the cache file does not
    tell the pair (dataset_cache, class name) apart: the path is their
    concatenation around an underscore, so a class name that contains an
    underscore shares its cache file with the rest of its name under a
    longer [dataset_cache]. *)
Theorem cache_key_collides_across_prefixes
    (t1 t2 : Tokenizer) (dataset_cache infix : string) :
  type_name t1 = (infix ++ "_" ++ type_name t2)%string ->
  Loader.cache_key t1 dataset_cache =
  Loader.cache_key t2 (dataset_cache ++ "_" ++ infix)%string.
Proof.
  intros H. unfold Loader.cache_key. rewrite H.
  rewrite !string_app_assoc. reflexivity.
Qed.

(** ** [get_data]: the samples *)

Lemma slice_first {A : Type} (l : list A) (k : nat) :
  slice l None (Some (Z.of_nat k)) = take k l.
Proof.
  unfold slice, adjust. cbn [default from_option id]. case_cmp.
  replace (Z.to_nat (Z.min 0 _)) with 0%nat by lia. rewrite drop_0.
  destruct (decide (k <= length l)%nat) as [Hle|Hgt].
  - f_equal. lia.
  - replace (Z.to_nat _) with (length l) by lia.
    rewrite !take_ge by lia. done.
Qed.

(** X13. The samples are the head of each split of the raw dataset. For a
    parsed file that is a dictionary whose values are lists, there is one
    sample per split, in the order of the file; the sample of a split is a
    dictionary with that split's name as its only key, bound to the first
    five dialogues of the split, or to all of them when there are fewer. *)
Theorem samples_are_first_five (d : list (string * Loader.pyobj)) :
  Forall (fun kv => exists l, kv.2 = Loader.PList l) d ->
  exists samples,
    Loader.take_samples (Loader.PDict d) = Ok samples /\
    length samples = length d /\
    forall i k l,
      d !! i = Some (k, Loader.PList l) ->
      samples !! i = Some (Loader.PDict [(k, Loader.PList (take 5 l))]) /\
      length (take 5 l) = Nat.min 5 (length l).
Proof.
  intros Hd. cbn [Loader.take_samples].
  induction Hd as [|[k v] d (l & Hv) _ (samples & Hs & Hlen & Hget)].
  - exists []. split; [done|]. split; [done|]. intros i k l Hi. done.
  - cbn in Hv. subst v. cbn [Loader.sample_items Loader.first_five bind].
    rewrite Hs. cbn [bind].
    eexists. split; [reflexivity|]. split; [cbn; by rewrite Hlen|].
    intros [|i] k' l' Hi.
    + injection Hi as <- <-. split; [|apply length_take].
      change (Some 5%Z) with (Some (Z.of_nat 5)). by rewrite slice_first.
    + by apply Hget.
Qed.


(** ** The store: a run that fails *)

Section StoreFailure.
Import HeapModel.
Local Open Scope nat_scope.
Local Open Scope se_scope.

Lemma build_instance_h_empty args sp with_eos lm_labels_flag h dialog :
  read_dialog h dialog = Some [] ->
  exists h', build_instance_h args sp with_eos lm_labels_flag dialog h
             = (Raise IndexError, h').
Proof.
  intros HD.
  destruct (read_list_inv read_utterance h dialog [] HD) as (a & l & -> & Ha & HF).
  apply Forall2_nil_inv_r in HF as ->.
  assert (Hlt : a < length h) by (by eapply lookup_lt_Some).
  eexists. unfold build_instance_h.
  unfold getslice at 1, list_items at 1, deref at 1, list_new, alloc.
  unfold SE.bind at 1 2 3. rewrite Ha. cbn [snd SE.ret].
  unfold SE.bind at 1.
  unfold getitem, list_items, SE.bind, deref, SE.lift.
  rewrite lookup_app_l by done. rewrite Ha. cbn [snd SE.ret].
  rewrite index_empty. reflexivity.
Qed.

Section FailingIteration.
Variables (args : Args) (sp : Special) (with_eos lm_labels_flag : bool).
Variables (h0 : heap) (a : addr).
Hypothesis Hna : length h0 <= a.

Lemma for_list_raise name dataset (Ds : list Dialog) :
  read_split h0 dataset = Some Ds ->
  forall fuel i h out e,
    grows h0 h ->
    datasets_repr (length h0) h a out ->
    process_dialogs args sp with_eos lm_labels_flag name (drop i Ds) out = Raise e ->
    length Ds - i < fuel ->
    exists h',
      for_list_from fuel dataset i
        (dialog_step args sp with_eos lm_labels_flag (VRef a) name) h = (Raise e, h').
Proof.
  intros HDs fuel. induction fuel as [|fuel IH]; intros i h out e Hg Hrep Hp Hfuel;
    [lia|].
  cbn [for_list_from].
  pose proof (read_split_kept _ _ _ _ (grows_lists_kept _ _ Hg) HDs) as HDs'.
  destruct (list_items_read read_dialog h dataset Ds HDs') as (l & Hl & HF).
  rewrite (bind_ok _ _ _ _ _ Hl).
  destruct (l !! i) as [x|] eqn:Hx.
  - destruct (Forall2_lookup_l _ _ _ _ _ HF Hx) as (D & HD & Hread).
    rewrite (drop_S _ _ _ HD) in Hp. cbn [process_dialogs] in Hp.
    destruct (build_instance args sp with_eos lm_labels_flag D) as [inst|e'] eqn:Hb.
    + cbn [bind] in Hp.
      destruct (dialog_step_spec (length h0) a args sp with_eos lm_labels_flag name
                  h x D inst out Hrep Hread Hb) as (h1 & E1 & Hrep1).
      destruct (steady_dialog_step (length h0) a Hna args sp with_eos lm_labels_flag
                  name x h (datasets_repr_at _ _ _ _ Hrep)) as (Hf & _ & _).
      rewrite E1 in Hf. cbn in Hf.
      rewrite (bind_ok _ _ _ _ _ E1).
      pose proof (lookup_lt_Some _ _ _ HD).
      eapply (IH (S i) h1); [by eapply grows_frame|exact Hrep1|exact Hp|lia].
    + cbn [bind] in Hp. injection Hp as <-.
      apply build_instance_raise in Hb as [-> ->].
      destruct (build_instance_h_empty args sp with_eos lm_labels_flag h x Hread)
        as (h1 & E1).
      eexists. unfold dialog_step, SE.bind. rewrite E1. reflexivity.
  - apply lookup_ge_None in Hx. rewrite (Forall2_length _ _ _ HF) in Hx.
    rewrite drop_ge in Hp by done. done.
Qed.

Lemma for_items_raise fuel0 data (Dt : RawDataset) :
  read_data h0 data = Some Dt ->
  (forall name Ds, (name, Ds) ∈ Dt -> length Ds < fuel0) ->
  forall fuel i h out e,
    grows h0 h ->
    datasets_repr (length h0) h a out ->
    process_splits args sp with_eos lm_labels_flag (drop i Dt) out = Raise e ->
    length Dt - i < fuel ->
    exists h',
      for_items_from fuel data (length Dt) i
        (fun dataset_name dataset =>
           for_list fuel0 dataset
             (dialog_step args sp with_eos lm_labels_flag (VRef a) dataset_name))
        h = (Raise e, h').
Proof.
  intros HDt Hfuel0 fuel.
  assert (Hents : exists dd ents,
            data = VRef dd /\ h0 !! dd = Some (ODict ents) /\
            Forall2 (fun kx kS => kx.1 = kS.1 /\
                       read_split h0 kx.2 = Some kS.2) ents Dt).
  { unfold read_data, read_dict in HDt. destruct data as [z|dd]; [done|].
    destruct (h0 !! dd) as [[l|ents]|] eqn:Hdd; try done.
    exists dd, ents. split; [done|]. split; [done|].
    apply mapM_Some in HDt. eapply Forall2_impl; [exact HDt|].
    intros [k x] [k' S]. cbn.
    destruct (read_split h0 x); [|done]. cbn. by intros [= <- <-]. }
  destruct Hents as (dd & ents & -> & Hdd & HF).
  induction fuel as [|fuel IH]; intros i h out e Hg Hrep Hp Hfuel; [lia|].
  cbn [for_items_from].
  assert (Hent : dict_entries (VRef dd) h = (Ok ents, h)).
  { unfold dict_entries, SE.bind, deref. by rewrite (Hg _ _ Hdd). }
  rewrite (bind_ok _ _ _ _ _ Hent).
  rewrite (Forall2_length _ _ _ HF), Nat.eqb_refl. cbn [negb].
  destruct (ents !! i) as [[k x]|] eqn:Hx.
  - destruct (Forall2_lookup_l _ _ _ _ _ HF Hx) as ([k' Ds] & HD & Hk & Hread).
    cbn in Hk, Hread. subst k'.
    rewrite (drop_S _ _ _ HD) in Hp. cbn [process_splits] in Hp.
    assert (HfDs : length Ds - 0 < fuel0).
    { assert (length Ds < fuel0); [|lia].
      apply (Hfuel0 k). by eapply list_elem_of_lookup_2. }
    destruct (process_dialogs args sp with_eos lm_labels_flag k Ds out)
      as [mid|e'] eqn:Hmid.
    + cbn [bind] in Hp.
      destruct (for_list_spec args sp with_eos lm_labels_flag h0 a Hna k x Ds Hread
                  fuel0 0 h out mid Hg Hrep) as (h1 & E1 & Hg1 & Hrep1);
        [by rewrite drop_0|done|].
      unfold for_list. rewrite (bind_ok _ _ _ _ _ E1).
      pose proof (lookup_lt_Some _ _ _ HD).
      eapply (IH (S i) h1); [exact Hg1|exact Hrep1|exact Hp|lia].
    + cbn [bind] in Hp. injection Hp as <-.
      destruct (for_list_raise k x Ds Hread fuel0 0 h out e' Hg Hrep)
        as (h1 & E1); [by rewrite drop_0|done|].
      eexists. unfold for_list, SE.bind. rewrite E1. reflexivity.
  - apply lookup_ge_None in Hx. rewrite (Forall2_length _ _ _ HF) in Hx.
    rewrite drop_ge in Hp by done. done.
Qed.

End FailingIteration.

End StoreFailure.

(** X14. The store model fails where the code on values fails. Run on a
    store in which [data] is a tokenized dataset with an empty dialogue,
    with fuel for its loops, [data_process] raises the [IndexError] of
    [dialog[-1]], as it does on values; the objects that were in the store
    are unchanged all the same. *)
Theorem store_run_fails_like_values
    (fuel : nat) (args : Args) (data : HeapModel.val) (tokenizer : Tokenizer)
    (with_eos lm_labels_flag : bool) (h : list HeapModel.obj) (D : RawDataset)
    (e : exn) :
  HeapModel.read_data h data = Some D ->
  data_process args D tokenizer with_eos lm_labels_flag = Raise e ->
  (length D < fuel)%nat ->
  (forall name dataset, (name, dataset) ∈ D -> (length dataset < fuel)%nat) ->
  e = IndexError /\
  (HeapModel.data_process_h fuel args data tokenizer with_eos lm_labels_flag h).1
    = Raise IndexError /\
  (forall a o,
     h !! a = Some o ->
     (HeapModel.data_process_h fuel args data tokenizer with_eos lm_labels_flag h).2
       !! a = Some o).
Proof.
  intros HD Hraise Hfuel Hfuel0.
  unfold data_process in Hraise.
  destruct (special_ids tokenizer) as [sp|e'] eqn:Hsp;
    [|by destruct (special_ids_ok tokenizer) as (sp & Hsp'); congruence].
  cbn [bind] in Hraise.
  destruct (process_splits_raise _ _ _ _ _ _ _ Hraise) as [-> _].
  split; [done|]. split; [|apply frame_grows, data_process_h_frame].
  assert (Hents : exists dd ents,
            data = HeapModel.VRef dd /\ h !! dd = Some (HeapModel.ODict ents) /\
            length ents = length D).
  { unfold HeapModel.read_data, HeapModel.read_dict in HD.
    destruct data as [z|dd]; [done|].
    destruct (h !! dd) as [[l|ents]|] eqn:Hdd; try done.
    exists dd, ents. split; [done|]. split; [done|].
    apply mapM_Some in HD. by eapply Forall2_length. }
  destruct Hents as (dd & ents & -> & Hdd & Hlen).
  set (a := length h). set (h1 := h ++ [HeapModel.ODict []]).
  assert (Hrep : HeapModel.datasets_repr (length h) h1 a []).
  { exists []. split; [by apply list_lookup_middle|].
    split; [done|]. split; [constructor|]. split; [done|].
    intros i b kv Hb. done. }
  destruct (for_items_raise args sp with_eos lm_labels_flag h a (le_n _) fuel
              (HeapModel.VRef dd) D HD Hfuel0 fuel 0%nat h1 [] IndexError)
    as (h' & E); [apply grows_alloc|done|by rewrite drop_0|lia|].
  unfold HeapModel.data_process_h. rewrite Hsp.
  rewrite (bind_ok _ _ _ _ _ (eq_refl : SE.lift (Ok sp) h = (Ok sp, h))).
  rewrite (bind_ok _ _ _ _ _
             (eq_refl : HeapModel.dict_new h = (Ok (HeapModel.VRef a), h1))).
  unfold HeapModel.for_items. rewrite bind_assoc.
  assert (Hent : HeapModel.dict_entries (HeapModel.VRef dd) h1 = (Ok ents, h1)).
  { unfold HeapModel.dict_entries, SE.bind, HeapModel.deref.
    unfold h1. rewrite lookup_app_l by (by eapply lookup_lt_Some).
    by rewrite Hdd. }
  rewrite (bind_ok _ _ _ _ _ Hent), Hlen.
  unfold SE.bind. by rewrite E.
Qed.

(** ** The further properties at concrete inputs *)

Lemma no_empty_dialogue_decided (data : RawDataset) :
  bool_decide (Forall (fun kv : string * list Dialog => [] ∉ kv.2) data) ->
  forall name dataset, (name, dataset) ∈ data -> [] ∉ dataset.
Proof.
  intros H%bool_decide_unpack name dataset Hin.
  by apply (proj1 (Forall_forall _ _) H (name, dataset)).
Qed.

Lemma short_splits_decided (fuel : nat) (data : RawDataset) :
  bool_decide (Forall (fun kv : string * list Dialog => (length kv.2 < fuel)%nat)
                 data) ->
  forall name dataset, (name, dataset) ∈ data -> (length dataset < fuel)%nat.
Proof.
  intros H%bool_decide_unpack name dataset Hin.
  by apply (proj1 (Forall_forall _ _) H (name, dataset)).
Qed.

Lemma response_marker_witness :
  1 <= max_history example_args /\
  (1 <= length example_dialog)%nat /\
  exists response before inst,
    response_of example_dialog = Ok response /\
    build_instance example_args example_special true true example_dialog = Ok inst /\
    input_ids inst =
      concat before ++
      marker example_special (length (history_of example_args example_dialog))
        :: response ++ [eos example_special] /\
    (2 * max_history example_args <= Z.of_nat (length example_dialog) ->
     Z.of_nat (length (history_of example_args example_dialog)) =
       2 * max_history example_args - 1 /\
     marker example_special (length (history_of example_args example_dialog)) =
       speaker2 example_special) /\
    (Z.of_nat (length example_dialog) < 2 * max_history example_args ->
     length (history_of example_args example_dialog) =
       (length example_dialog - 1)%nat /\
     marker example_special (length (history_of example_args example_dialog)) =
       if Nat.even (length example_dialog) then speaker2 example_special
       else speaker1 example_special).
Proof.
  split; [cbn; lia|]. split; [cbn; lia|].
  apply (response_marker_by_history_parity example_args example_special true true
           example_dialog);
    cbn; lia.
Defined.

Lemma nonpositive_max_history_witness :
  max_history no_history_args <= 0 /\
  history_of no_history_args example_dialog =
    drop (Z.to_nat (-2 * max_history no_history_args))
      (take (length example_dialog - 1) example_dialog) /\
  (max_history no_history_args = 0 ->
   history_of no_history_args example_dialog =
     take (length example_dialog - 1) example_dialog) /\
  (max_history no_history_args = 0 -> forall response,
     response_of example_dialog = Ok response ->
     example_dialog = history_of no_history_args example_dialog ++ [response]).
Proof.
  split; [cbn; lia|].
  apply (history_for_nonpositive_max_history no_history_args example_dialog).
  cbn; lia.
Defined.

Lemma input_ids_length_witness :
  (1 <= length example_dialog)%nat /\
  exists response inst,
    response_of example_dialog = Ok response /\
    build_instance example_args example_special true true example_dialog = Ok inst /\
    length (input_ids inst) =
      (2 + length (history_of example_args example_dialog)
       + length (concat (history_of example_args example_dialog))
       + length response + 1)%nat.
Proof.
  split; [cbn; lia|].
  apply (input_ids_length example_args example_special true true example_dialog).
  cbn; lia.
Defined.

Lemma token_type_ids_witness :
  (1 <= length example_dialog)%nat /\
  exists response inst,
    response_of example_dialog = Ok response /\
    build_instance example_args example_special true true example_dialog = Ok inst /\
    input_ids inst !! 0%nat = Some (bos example_special) /\
    token_type_ids inst !! 0%nat = Some (bos example_special) /\
    forall i s,
      turns_of example_special true (history_of example_args example_dialog)
        response !! i = Some s ->
      let off :=
        (1 + i + length (concat
                   (take i (turns_of example_special true
                              (history_of example_args example_dialog)
                              response))))%nat in
      input_ids inst !! off = Some (marker example_special i) /\
      (forall j, (j < length s)%nat ->
         input_ids inst !! (off + 1 + j)%nat = s !! j) /\
      (forall j, (j <= length s)%nat ->
         token_type_ids inst !! (off + j)%nat = Some (marker example_special i)).
Proof.
  split; [cbn; lia|].
  apply (token_type_ids_follow_turns example_args example_special true true
           example_dialog).
  cbn; lia.
Defined.

Lemma flags_effect_witness :
  (1 <= length example_dialog)%nat /\
  exists without with_ other,
    build_instance example_args example_special false true example_dialog
      = Ok without /\
    build_instance example_args example_special true true example_dialog
      = Ok with_ /\
    build_instance example_args example_special true false example_dialog
      = Ok other /\
    input_ids with_ = input_ids without ++ [eos example_special] /\
    token_type_ids with_ =
      token_type_ids without ++
      [marker example_special (length (history_of example_args example_dialog))] /\
    lm_labels with_ = lm_labels without ++ [eos example_special] /\
    input_ids other = input_ids with_ /\
    token_type_ids other = token_type_ids with_.
Proof.
  split; [cbn; lia|].
  apply (flags_effect example_args example_special true example_dialog).
  cbn; lia.
Defined.

Lemma result_shape_witness :
  NoDup (example_data.*1) /\
  (forall name dataset, (name, dataset) ∈ example_data -> [] ∉ dataset) /\
  exists sp out,
    special_ids example_tokenizer = Ok sp /\
    data_process example_args example_data example_tokenizer true true = Ok out /\
    out.*1 = (filter (fun kv => kv.2 <> []) example_data).*1 /\
    Forall2 (fun kv ko =>
               kv.1 = ko.1 /\
               length kv.2 = length ko.2 /\
               Forall2 (fun D inst =>
                          build_instance example_args sp true true D = Ok inst)
                 kv.2 ko.2)
      (filter (fun kv => kv.2 <> []) example_data) out.
Proof.
  split; [by apply (bool_decide_unpack _)|].
  split; [by apply no_empty_dialogue_decided|].
  apply (data_process_result_shape example_args example_data example_tokenizer
           true true);
    [by apply (bool_decide_unpack _)|by apply no_empty_dialogue_decided].
Defined.


Lemma failure_file_system_witness :
  (Loader.get_data failing_save_collab example_tokenizer "data.json" "cache"
     fresh_world).1 = Raise OSError /\
  let after :=
    Loader.fs (Loader.get_data failing_save_collab example_tokenizer
                 "data.json" "cache" fresh_world).2 in
  match Loader.fs fresh_world !! Loader.cache_key example_tokenizer "cache" with
  | Some (Loader.File _) => after = Loader.fs fresh_world
  | _ =>
      let fs1 :=
        (Loader.cached_path failing_save_collab "data.json"
           (Loader.fs fresh_world)).2 in
      after = fs1 \/
      exists cache_file content raw samples tokenized,
        (Loader.cached_path failing_save_collab "data.json"
           (Loader.fs fresh_world)).1 = Ok cache_file /\
        fs1 !! cache_file = Some (Loader.File content) /\
        Loader.json_loads failing_save_collab content = Ok raw /\
        Loader.take_samples raw = Ok samples /\
        Loader.tokenize example_tokenizer raw = Ok tokenized /\
        Loader.save failing_save_collab tokenized
          (Loader.cache_key example_tokenizer "cache") fs1
          = (Raise OSError, after)
  end.
Proof.
  split; [by vm_compute|].
  apply (get_data_failure_file_system failing_save_collab example_tokenizer
           "data.json" "cache" fresh_world OSError).
  by vm_compute.
Defined.

Lemma cache_key_collision_witness :
  type_name fast_tokenizer = ("Fast" ++ "_" ++ type_name example_tokenizer)%string /\
  Loader.cache_key fast_tokenizer "cache" =
  Loader.cache_key example_tokenizer ("cache" ++ "_" ++ "Fast")%string.
Proof.
  split; [reflexivity|].
  apply (cache_key_collides_across_prefixes fast_tokenizer example_tokenizer
           "cache" "Fast").
  reflexivity.
Defined.

Lemma samples_witness :
  Forall (fun kv => exists l, kv.2 = Loader.PList l) example_entries /\
  exists samples,
    Loader.take_samples (Loader.PDict example_entries) = Ok samples /\
    length samples = length example_entries /\
    forall i k l,
      example_entries !! i = Some (k, Loader.PList l) ->
      samples !! i = Some (Loader.PDict [(k, Loader.PList (take 5 l))]) /\
      length (take 5 l) = Nat.min 5 (length l).
Proof.
  split; [repeat first [apply Forall_nil_2 | apply Forall_cons_2; [by eexists|]]|].
  apply (samples_are_first_five example_entries).
  repeat first [apply Forall_nil_2 | apply Forall_cons_2; [by eexists|]].
Defined.

Lemma store_failure_witness :
  HeapModel.read_data faulty_heap (HeapModel.VRef 0) = Some faulty_data /\
  data_process example_args faulty_data example_tokenizer true true
    = Raise IndexError /\
  (length faulty_data < 3)%nat /\
  (forall name dataset, (name, dataset) ∈ faulty_data -> (length dataset < 3)%nat) /\
  IndexError = IndexError /\
  (HeapModel.data_process_h 3 example_args (HeapModel.VRef 0) example_tokenizer
     true true faulty_heap).1 = Raise IndexError /\
  (forall a o,
     faulty_heap !! a = Some o ->
     (HeapModel.data_process_h 3 example_args (HeapModel.VRef 0) example_tokenizer
        true true faulty_heap).2 !! a = Some o).
Proof.
  split; [reflexivity|]. split; [reflexivity|]. split; [cbn; lia|].
  split; [by apply short_splits_decided|].
  apply (store_run_fails_like_values 3 example_args (HeapModel.VRef 0)
           example_tokenizer true true faulty_heap faulty_data IndexError);
    [reflexivity|reflexivity|cbn; lia|by apply short_splits_decided].
Defined.
